(** * Adila: the fairness reranking pipeline of [src/main.py]

    A shallow embedding of class [Reranking] and of the sequential driver
    of [src/main.py], followed by the properties of the pipeline.

    Conventions of the embedding.
    - A Python exception is the name of its class ([exn]); a computation
      that may raise returns a [result].
    - Python [float] and numpy [float64] are the binary64 numbers of
      [PrimFloat]; Python [int] is [Z].
    - The files the pipeline reads and writes are a finite map from path
      to content ([files]); a write always succeeds (directories are not
      modelled), reading an absent path raises [FileNotFoundError].
    - The serialisers ([pickle], [pandas], [json], [torch]) and the
      external libraries ([reranking], [experiment.metric]) are the
      fields of the class [Collaborators]: the pipeline is defined, and
      its theorems are proved, for every such collaborator.
    - [calls] is a ghost trace: each of the five stage functions records
      its name there when it is entered. *)

From Stdlib Require Import ZArith Floats Lia.
From stdpp Require Import base strings gmap list sorting pretty.

Open Scope Z_scope.

(** ** Exceptions and results *)

Definition exn := string.

Definition FileNotFoundError : exn := "FileNotFoundError".
Definition EOFError : exn := "EOFError".
Definition IndexError : exn := "IndexError".
Definition KeyError : exn := "KeyError".
Definition ValueError : exn := "ValueError".
Definition OverflowError : exn := "OverflowError".
Definition TypeError : exn := "TypeError".
Definition ZeroDivisionError : exn := "ZeroDivisionError".

(** Two class names the specification uses; [src/main.py] defines neither. *)
Definition EmptyInputError : exn := "EmptyInputError".
Definition IndexMappingError : exn := "IndexMappingError".

Inductive result (A : Type) : Type :=
| Ok (a : A)
| Raise (e : exn).
Arguments Ok {A} a.
Arguments Raise {A} e.

#[global] Instance result_ret : MRet result := @Ok.
#[global] Instance result_bind : MBind result := λ A B f r,
  match r with Ok a => f a | Raise e => Raise e end.

Definition is_ok {A} (r : result A) : bool :=
  match r with Ok _ => true | Raise _ => false end.

(** ** Python primitives *)

(** [l[i]] on a list: a negative [i] counts from the end, anything outside
    [-len(l) <= i < len(l)] raises [IndexError]. *)
Definition py_getitem {A} (l : list A) (i : Z) : result A :=
  let n := Z.of_nat (length l) in
  let j := if i <? 0 then n + i else i in
  if (0 <=? j) && (j <? n)
  then match l !! Z.to_nat j with Some x => Ok x | None => Raise IndexError end
  else Raise IndexError.

(** [d[k]] on a dict. *)
Definition py_key {V} (d : gmap string V) (k : string) : result V :=
  match d !! k with Some v => Ok v | None => Raise KeyError end.

(** [enumerate(l)], counting from [i]. *)
Fixpoint enumerate_from {A} (i : nat) (l : list A) : list (nat * A) :=
  match l with
  | [] => []
  | x :: l' => (i, x) :: enumerate_from (S i) l'
  end.
Definition enumerate {A} (l : list A) : list (nat * A) := enumerate_from 0 l.

(** [sorted(l, key=..., reverse=True)] and [l.sort(key=..., reverse=True)]:
    a stable sort, descending; [lt x y] is [key(x) < key(y)], the only
    comparison Python's sort makes. An element moves right only past the
    elements that are strictly greater, so equal keys keep their order.
    On keys that [<] orders totally (no [nan]) this is the result of any
    stable sort, Python's included. *)
Fixpoint insert_reverse {A} (lt : A → A → bool) (x : A) (l : list A) : list A :=
  match l with
  | [] => [x]
  | y :: l' => if lt x y then y :: insert_reverse lt x l' else x :: y :: l'
  end.
Definition sorted_reverse {A} (lt : A → A → bool) (l : list A) : list A :=
  foldr (insert_reverse lt) [] l.

(** [l.count(x)] on a list of strings. *)
Definition py_count (x : string) (l : list string) : nat :=
  length (filter (λ y, y = x) l).

(** [x in t] for a tuple of strings. *)
Definition py_in (x : string) (t : list string) : bool :=
  bool_decide (x ∈ t).

(** [str(k_max)]: [k_max] is an [int] or [None]. *)
Definition str_k_max (k_max : option Z) : string :=
  match k_max with None => "None" | Some k => pretty k end.

Definition newline : string := String (Ascii.ascii_of_nat 10) EmptyString.
Definition slash : Ascii.ascii := Ascii.ascii_of_nat 47.

(** [os.path.split(p)[-1]]: what follows the last slash of [p], the whole
    of [p] when it has none. *)
Fixpoint after_last_slash (p : string) : option string :=
  match p with
  | EmptyString => None
  | String c r =>
      match after_last_slash r with
      | Some t => Some t
      | None => if Ascii.eqb c slash then Some r else None
      end
  end.
Definition os_path_split_tail (p : string) : string :=
  default p (after_last_slash p).

(** ** Numbers *)

(** [float(n)] for an integer [n]: the nearest binary64 number (the
    integer itself below 2^53). *)
Definition float_of_Z (n : Z) : float :=
  SF2Prim (binary_normalize prec emax n 0 false).

(** [a / b] on two Python [int]s: the quotient rounded once, which for
    operands below 2^53 is the binary64 division of their conversions. *)
Definition py_truediv (a b : Z) : result float :=
  if b =? 0 then Raise ZeroDivisionError
  else Ok (float_of_Z a / float_of_Z b)%float.

Definition sum_Z (l : list Z) : Z := foldr Z.add 0 l.

(** [numpy.mean] of an integer vector: the sum over the size, in binary64
    ([nan] for the empty vector, with a warning and no exception). The
    sum is exact as long as it stays below 2^53. *)
Definition np_mean (l : list Z) : float :=
  (float_of_Z (sum_Z l) / float_of_Z (Z.of_nat (length l)))%float.

(** ** Data model *)

(** A team-membership matrix ([teamsvecs['member']]): [shape1] columns and
    one list per row; an entry a row does not hold reads as 0. *)
Record matrix := { shape1 : nat; rows : list (list Z) }.

Definition shape0 (a : matrix) : nat := length (rows a).
Definition entry (row : list Z) (c : nat) : Z := default 0 (row !! c).

(** [a.sum(axis=0)], flattened: the sum of each column. *)
Definition sum_axis0 (a : matrix) : list Z :=
  map (λ c, sum_Z (map (λ row, entry row c) (rows a))) (seq 0 (shape1 a)).

(** [a[index]] for a list of row numbers. *)
Definition select_rows (a : matrix) (index : list Z) : result matrix :=
  sel ← mapM (py_getitem (rows a)) index;
  mret {| shape1 := shape1 a; rows := sel |}.

(** The [stats] dictionary of [get_stats], one field per key. *)
Record stats := {
  nmembers : nat;
  nteams_candidate_idx : list (nat * Z);
  avg_nteams_member : float;
  popularity_ratio : float * float
}.

(** What [run] may hold in [ratios]: [None], the list of floats of the
    command line, or the dictionary [{'p': _, 'np': _}]. *)
Inductive ratios_t :=
| RatiosNone
| RatiosList (l : list float)
| RatiosDict (p np : float).

(** [not ratios] *)
Definition py_not_ratios (r : ratios_t) : bool :=
  match r with
  | RatiosNone | RatiosList [] => true
  | _ => false
  end.

(** The pair [(idx, probs)] that [rerank] returns. *)
Definition reranked := (list (list Z) * list (list float))%type.

(** The dictionary of [eval_fairness]. *)
Record faireval := { ndkl_before : list float; ndkl_after : list float }.

(** [csr_matrix((value, (rows, cols)), shape)]: the entries as they were
    given, and the shape. Reading an entry adds up the values given for
    it; an entry never given reads as zero. *)
Record csr_matrix := {
  csr_shape : nat * nat;
  csr_entries : list (nat * Z * float)
}.

Definition sum_duplicates (vs : list float) : float :=
  match vs with
  | [] => 0%float
  | v :: vs' => foldl PrimFloat.add v vs'
  end.

Definition at_cell (i : nat) (c : Z) : nat * Z * float → option float :=
  λ '(r, k, v), if bool_decide (r = i ∧ k = c) then Some v else None.

Definition csr_values (m : csr_matrix) (i : nat) (c : Z) : list float :=
  omap (at_cell i c) (csr_entries m).

Definition csr_get (m : csr_matrix) (i : nat) (c : Z) : float :=
  sum_duplicates (csr_values m i c).

(** [m.toarray()] *)
Definition toarray (m : csr_matrix) : list (list float) :=
  map (λ i, map (λ c, csr_get m i (Z.of_nat c)) (seq 0 (csr_shape m).2))
      (seq 0 (csr_shape m).1).

(** A Python integer that a signed 64-bit integer holds. *)
Definition fits_int64 (k : Z) : bool := (- 2 ^ 63 <=? k) && (k <? 2 ^ 63).

(** The constructor converts the indices to arrays of 64-bit integers, which
    raises [OverflowError] for a Python integer that does not fit, and
    then checks every index against the shape, which raises [ValueError].
    The shape of a scipy matrix is made of 64-bit integers itself, so that
    an index inside the shape fits; the row indices count the teams of a
    list and fit. *)
Definition make_csr (entries : list (nat * Z * float)) (shape : nat * nat)
  : result csr_matrix :=
  if forallb (λ '(r, k, _), (r <? shape.1)%nat && (0 <=? k) && (k <? Z.of_nat shape.2))
             entries
  then Ok {| csr_shape := shape; csr_entries := entries |}
  else if forallb (λ '(_, k, _), fits_int64 k) entries
  then Raise ValueError
  else Raise OverflowError.

(** The table of mean metric values that [calculate_metrics] returns
    (its second component, the only one [eval_utility] uses). *)
Definition df_mean := list (string * float).

(** ** The files and the pipeline monad *)

Record state := {
  files : gmap string string;
  calls : list string
}.

Definition M (A : Type) : Type := state → result A * state.

#[global] Instance M_ret : MRet M := λ A a s, (Ok a, s).
#[global] Instance M_bind : MBind M := λ A B f m s,
  match m s with
  | (Ok a, s') => f a s'
  | (Raise e, s') => (Raise e, s')
  end.

Definition lift {A} (r : result A) : M A := λ s, (r, s).

(** [open(path, 'r')] and reading it all. *)
Definition read_file (path : string) : M string := λ s,
  match files s !! path with
  | Some c => (Ok c, s)
  | None => (Raise FileNotFoundError, s)
  end.

(** [open(path, 'w')] and writing [content]. *)
Definition written (path content : string) (s : state) : state :=
  {| files := <[path := content]> (files s); calls := calls s |}.
Definition write_file (path content : string) : M unit := λ s,
  (Ok (), written path content s).

(** [open(path, 'a')] and writing [content]. *)
Definition append_file (path content : string) : M unit := λ s,
  (Ok (), written path (default "" (files s !! path) +:+ content) s).

(** Ghost: a stage function was entered. *)
Definition entered (stage : string) (s : state) : state :=
  {| files := files s; calls := calls s ++ [stage] |}.
Definition invoked (stage : string) : M unit := λ s, (Ok (), entered stage s).

(** [try: body except <classes>: handler]; [catches e] tells whether the
    clause names the class [e]. *)
Definition try_except {A} (body : M A) (catches : exn → bool) (handler : M A) : M A :=
  λ s, match body s with
       | (Raise e, s') => if catches e then handler s' else (Raise e, s')
       | r => r
       end.

Definition except_FileNotFoundError (e : exn) : bool :=
  bool_decide (e = FileNotFoundError).
Definition except_FileNotFoundError_EOFError (e : exn) : bool :=
  bool_decide (e = FileNotFoundError) || bool_decide (e = EOFError).
(** A bare [except:]. *)
Definition except_all (e : exn) : bool := true.

(** ** The collaborators *)

(** A serialiser and its loader; the loader may raise on any content. *)
Record Codec (A : Type) := {
  dump : A → string;
  load : string → result A
}.
Arguments dump {A} _ _.
Arguments load {A} _ _.

Class Collaborators := {
  (** [reranking.rerank(labels, ratios, k_max=, algorithm=)] *)
  reranking_rerank : list string → ratios_t → option Z → string → result (list Z);
  (** [reranking.ndkl(labels, ratios)] *)
  reranking_ndkl : list string → ratios_t → result float;
  (** [calculate_metrics(y_test, y_pred, True, metrics)] *)
  calculate_metrics : matrix → list (list float) → bool → list string → result df_mean;
  (** the text of [finish_time - start_time] around the reranker's call *)
  elapsed : list string → string;
  pickle_stats : Codec stats;
  csv_popularity : Codec (list string);
  csv_rerank : Codec reranked;
  csv_faireval : Codec faireval;
  pickle_reranked_preds : Codec csr_matrix;
  csv_utility : Codec df_mean;
  pickle_teamsvecs : Codec (gmap string matrix);
  json_splits : Codec (gmap string (list Z));
  torch_preds : Codec (list (list float))
}.

(** Open [path] and deserialise it. *)
Definition load_file {A} (codec : Codec A) (path : string) : M A :=
  c ← read_file path; lift (load codec c).

(** ** Checkpoint paths *)

Definition stats_pkl (output : string) : string := output +:+ "stats.pkl".
Definition popularity_csv (output : string) : string := output +:+ "popularity.csv".
Definition rerank_csv (output algorithm : string) (k_max : option Z) : string :=
  output +:+ ".rerank." +:+ algorithm +:+ "." +:+ str_k_max k_max +:+ ".csv".
Definition faireval_csv (output algorithm : string) (k_max : option Z) : string :=
  output +:+ ".faireval." +:+ algorithm +:+ "." +:+ str_k_max k_max +:+ ".csv".
Definition reranked_preds_pkl (output algorithm : string) (k_max : option Z) : string :=
  output +:+ "reranked." +:+ algorithm +:+ "." +:+ str_k_max k_max +:+ ".preds.pkl".
Definition utilityeval_before_csv (output : string) : string :=
  output +:+ ".utilityeval.before.csv".
Definition utilityeval_after_csv (output algorithm : string) (k_max : option Z) : string :=
  output +:+ ".utilityeval." +:+ algorithm +:+ "." +:+ str_k_max k_max +:+ ".after.csv".
Definition fairness_runtime_txt : string := "../output/fairness.runtime.txt".

(** ** Class [Reranking] *)

Section Reranking.
Context {collaborators : Collaborators}.

(** *** [get_stats] *)

Definition popularity_threshold (coefficient : float) (teamsvecs_members : matrix) : float :=
  (coefficient * np_mean (sum_axis0 teamsvecs_members))%float.

Definition popularity_label (threshold : float) (nteam_member : Z) : string :=
  if (threshold <=? float_of_Z nteam_member)%float then "p" else "np".

Definition get_stats (teamsvecs_members : matrix) (coefficient : float) (output : string)
  : M (stats * list string) :=
  invoked "get_stats";;
  let n := shape1 teamsvecs_members in
  let col_sums := sum_axis0 teamsvecs_members in
  let threshold := popularity_threshold coefficient teamsvecs_members in
  let labels := map (popularity_label threshold) col_sums in
  popular_portion ← lift (py_truediv (Z.of_nat (py_count "p" labels)) (Z.of_nat n));
  let st := {| nmembers := n;
               nteams_candidate_idx := enumerate (sorted_reverse Z.ltb col_sums);
               avg_nteams_member := np_mean col_sums;
               popularity_ratio := (popular_portion, (1 - popular_portion)%float) |} in
  write_file (stats_pkl output) (dump pickle_stats st);;
  write_file (popularity_csv output) (dump csv_popularity labels);;
  mret (st, labels).

(** *** [rerank] *)

(** [member_popularity_probs], sorted: the triples (candidate id, label,
    score) of a team, by descending score. *)
Definition member_popularity_probs (labels : list string) (team : list float)
  : result (list (nat * string * float)) :=
  table ← mapM (λ '(m, prob), label ← py_getitem labels (Z.of_nat m); mret (m, label, prob))
               (enumerate team);
  mret (sorted_reverse (λ x y, (x.2 <? y.2)%float) table).

Definition rerank_team (labels : list string) (output : string) (ratios : ratios_t)
    (algorithm : string) (k_max : option Z) (team : list float)
  : M (list Z * list float) :=
  table ← lift (member_popularity_probs labels team);
  let sorted_labels := map (λ x, x.1.2) table in
  reranked_idx ← lift (reranking_rerank sorted_labels ratios k_max algorithm);
  append_file fairness_runtime_txt
    (elapsed sorted_labels +:+ " " +:+ output +:+ " " +:+ algorithm +:+ " "
       +:+ str_k_max k_max +:+ newline);;
  reranked_probs ← lift (mapM (λ m, x ← py_getitem table m; mret (x.2)) reranked_idx);
  mret (reranked_idx, reranked_probs).

Definition rerank (preds : list (list float)) (labels : list string) (output : string)
    (ratios : ratios_t) (algorithm : string) (k_max : option Z) : M reranked :=
  invoked "rerank";;
  teams ← mapM (rerank_team labels output ratios algorithm k_max) preds;
  let idx := teams.*1 in
  let probs := teams.*2 in
  write_file (rerank_csv output algorithm k_max) (dump csv_rerank (idx, probs));;
  mret (idx, probs).

(** *** [eval_fairness] *)

Definition eval_fairness_team (labels : list string) (reranked_idx : list (list Z))
    (ratios : ratios_t) (i : nat) (team : list float) : result (float * float) :=
  table ← member_popularity_probs labels team;
  before ← reranking_ndkl (map (λ x, x.1.2) table) ratios;
  members ← py_getitem reranked_idx (Z.of_nat i);
  after_labels ← mapM (py_getitem labels) members;
  after ← reranking_ndkl after_labels ratios;
  mret (before, after).

Definition eval_fairness (preds : list (list float)) (labels : list string)
    (reranked_idx : list (list Z)) (ratios : ratios_t) (output algorithm : string)
    (k_max : option Z) : M faireval :=
  invoked "eval_fairness";;
  teams ← lift (mapM (λ '(i, team), eval_fairness_team labels reranked_idx ratios i team)
                     (enumerate preds));
  let dic := {| ndkl_before := teams.*1; ndkl_after := teams.*2 |} in
  write_file (faireval_csv output algorithm k_max) (dump csv_faireval dic);;
  mret dic.

(** *** [reranked_preds] *)

(** The inner loop: one entry per member of a reranked team. *)
Definition reranked_team_entries (reranked_probs : list (list float)) (i : nat)
    (reranked_team : list Z) : result (list (nat * Z * float)) :=
  mapM (λ '(j, reranked_member),
          probs_i ← py_getitem reranked_probs (Z.of_nat i);
          value ← py_getitem probs_i (Z.of_nat j);
          mret (i, reranked_member, value))
       (enumerate reranked_team).

Definition reranked_entries (reranked_idx : list (list Z)) (reranked_probs : list (list float))
  : result (list (nat * Z * float)) :=
  per_team ← mapM (λ '(i, reranked_team), reranked_team_entries reranked_probs i reranked_team)
                  (enumerate reranked_idx);
  mret (concat per_team).

Definition reranked_preds (teamsvecs_members : matrix) (splits : gmap string (list Z))
    (reranked_idx : list (list Z)) (reranked_probs : list (list float))
    (output algorithm : string) (k_max : option Z) : M csr_matrix :=
  invoked "reranked_preds";;
  test ← lift (py_key splits "test");
  y_test ← lift (select_rows teamsvecs_members test);
  entries ← lift (reranked_entries reranked_idx reranked_probs);
  sparse_matrix_reranked ← lift (make_csr entries (shape0 y_test, shape1 y_test));
  write_file (reranked_preds_pkl output algorithm k_max)
             (dump pickle_reranked_preds sparse_matrix_reranked);;
  mret sparse_matrix_reranked.

(** *** [eval_utility] *)

Definition eval_utility (teamsvecs_members : matrix) (reranked_preds : csr_matrix)
    (preds : list (list float)) (splits : gmap string (list Z)) (metrics : list string)
    (output algorithm : string) (op : list string) (k_max : option Z) : M unit :=
  invoked "eval_utility";;
  test ← lift (py_key splits "test");
  y_test ← lift (select_rows teamsvecs_members test);
  (if py_in "before" op
   then df_mean_ ← lift (calculate_metrics y_test preds true metrics);
        write_file (utilityeval_before_csv output) (dump csv_utility df_mean_)
   else mret ());;
  (if py_in "after" op
   then df_mean ← lift (calculate_metrics y_test (toarray reranked_preds) true metrics);
        write_file (utilityeval_after_csv output algorithm k_max) (dump csv_utility df_mean)
   else mret ()).

(** *** [run]

    One definition per [try] statement of [run], in the order of the
    source; [run] is their sequence. Each [load_*] is the body of the
    [try], each [*_stage] the whole statement. *)

Definition load_labels (output : string) : M (stats * list string) :=
  st ← load_file pickle_stats (stats_pkl output);
  labels ← load_file csv_popularity (popularity_csv output);
  mret (st, labels).

Definition labels_stage (teamsvecs : gmap string matrix) (output : string)
  : M (stats * list string) :=
  try_except (load_labels output) except_FileNotFoundError_EOFError
    (member ← lift (py_key teamsvecs "member");
     get_stats member 1%float output).

Definition load_rerank (new_output algorithm : string) (k_max : option Z) : M reranked :=
  load_file csv_rerank (rerank_csv new_output algorithm k_max).

Definition rerank_stage (preds : list (list float)) (labels : list string)
    (new_output : string) (ratios : ratios_t) (algorithm : string) (k_max : option Z)
  : M reranked :=
  try_except (load_rerank new_output algorithm k_max) except_FileNotFoundError
    (rerank preds labels new_output ratios algorithm k_max).

Definition load_faireval (new_output algorithm : string) (k_max : option Z) : M unit :=
  load_file csv_faireval (faireval_csv new_output algorithm k_max);; mret ().

Definition faireval_stage (preds : list (list float)) (labels : list string)
    (reranked_idx : list (list Z)) (ratios : ratios_t) (new_output algorithm : string)
    (k_max : option Z) : M unit :=
  try_except (load_faireval new_output algorithm k_max) except_FileNotFoundError
    (eval_fairness preds labels reranked_idx ratios new_output algorithm k_max;; mret ()).

Definition load_reranked_preds (output algorithm : string) (k_max : option Z)
  : M csr_matrix :=
  load_file pickle_reranked_preds (reranked_preds_pkl output algorithm k_max).

Definition reranked_preds_stage (teamsvecs : gmap string matrix)
    (splits : gmap string (list Z)) (reranked_idx : list (list Z))
    (probs : list (list float)) (output algorithm : string) (k_max : option Z)
  : M csr_matrix :=
  try_except (load_reranked_preds output algorithm k_max) except_FileNotFoundError
    (member ← lift (py_key teamsvecs "member");
     reranked_preds member splits reranked_idx probs output algorithm k_max).

Definition load_utility_before (new_output : string) : M unit :=
  load_file csv_utility (utilityeval_before_csv new_output);; mret ().

Definition utility_before_stage (teamsvecs : gmap string matrix)
    (reranked_preds : csr_matrix) (preds : list (list float))
    (splits : gmap string (list Z)) (utility_metrics : list string)
    (new_output algorithm : string) (k_max : option Z) : M unit :=
  try_except (load_utility_before new_output) except_all
    (member ← lift (py_key teamsvecs "member");
     eval_utility member reranked_preds preds splits utility_metrics new_output algorithm
                  ["after"; "before"] k_max).

Definition load_utility_after (new_output algorithm : string) (k_max : option Z) : M unit :=
  load_file csv_utility (utilityeval_after_csv new_output algorithm k_max);; mret ().

Definition utility_after_stage (teamsvecs : gmap string matrix)
    (reranked_preds : csr_matrix) (preds : list (list float))
    (splits : gmap string (list Z)) (utility_metrics : list string)
    (new_output algorithm : string) (k_max : option Z) : M unit :=
  try_except (load_utility_after new_output algorithm k_max) except_all
    (member ← lift (py_key teamsvecs "member");
     eval_utility member reranked_preds preds splits utility_metrics new_output algorithm
                  ["after"] k_max).

Definition new_output_of (output fpreds : string) : string :=
  output +:+ "/" +:+ os_path_split_tail fpreds.

Definition run (fpreds output fteamsvecs fsplits : string) (ratios : ratios_t)
    (fairness_metric utility_metrics : list string) (algorithm : string)
    (k_max : option Z) : M unit :=
  teamsvecs ← load_file pickle_teamsvecs fteamsvecs;
  splits ← load_file json_splits fsplits;
  preds ← load_file torch_preds fpreds;
  '(st, labels) ← labels_stage teamsvecs output;
  let ratios :=
    if py_not_ratios ratios
    then RatiosDict (popularity_ratio st).1 (popularity_ratio st).2
    else ratios in
  let new_output := new_output_of output fpreds in
  '(reranked_idx, probs) ← rerank_stage preds labels new_output ratios algorithm k_max;
  faireval_stage preds labels reranked_idx ratios new_output algorithm k_max;;
  reranked_preds ← reranked_preds_stage teamsvecs splits reranked_idx probs
                                         output algorithm k_max;
  utility_before_stage teamsvecs reranked_preds preds splits utility_metrics
                       new_output algorithm k_max;;
  utility_after_stage teamsvecs reranked_preds preds splits utility_metrics
                      new_output algorithm k_max.

(** *** [run], from one of its stages to the end

    The [try] statements of [run] that follow the one for the sparse matrix
    (lines 208 to 218), the fairness evaluation (lines 202 to 218), the
    reranking (lines 196 to 218) and the popularity labels (lines 184 to
    218), as functions of what the stages before them have resolved. *)

Definition after_reranked_preds (teamsvecs : gmap string matrix)
    (reranked_preds : csr_matrix) (preds : list (list float))
    (splits : gmap string (list Z)) (utility_metrics : list string)
    (new_output algorithm : string) (k_max : option Z) : M unit :=
  utility_before_stage teamsvecs reranked_preds preds splits utility_metrics
                       new_output algorithm k_max;;
  utility_after_stage teamsvecs reranked_preds preds splits utility_metrics
                      new_output algorithm k_max.

Definition after_faireval (teamsvecs : gmap string matrix)
    (splits : gmap string (list Z)) (preds : list (list float))
    (reranked_idx : list (list Z)) (probs : list (list float))
    (utility_metrics : list string) (output new_output algorithm : string)
    (k_max : option Z) : M unit :=
  reranked_preds ← reranked_preds_stage teamsvecs splits reranked_idx probs
                                         output algorithm k_max;
  after_reranked_preds teamsvecs reranked_preds preds splits utility_metrics
                       new_output algorithm k_max.

Definition after_rerank (teamsvecs : gmap string matrix)
    (splits : gmap string (list Z)) (preds : list (list float)) (labels : list string)
    (ratios : ratios_t) (utility_metrics : list string)
    (output new_output algorithm : string) (k_max : option Z) (r : reranked) : M unit :=
  let '(reranked_idx, probs) := r in
  faireval_stage preds labels reranked_idx ratios new_output algorithm k_max;;
  after_faireval teamsvecs splits preds reranked_idx probs utility_metrics
                 output new_output algorithm k_max.

(** [if not ratios: ratios = stats['popularity_ratio']] *)
Definition ratios_or_stats (ratios : ratios_t) (st : stats) : ratios_t :=
  if py_not_ratios ratios
  then RatiosDict (popularity_ratio st).1 (popularity_ratio st).2
  else ratios.

Definition after_labels (teamsvecs : gmap string matrix)
    (splits : gmap string (list Z)) (preds : list (list float)) (ratios : ratios_t)
    (utility_metrics : list string) (fpreds output algorithm : string)
    (k_max : option Z) (sl : stats * list string) : M unit :=
  let '(st, labels) := sl in
  r ← rerank_stage preds labels (new_output_of output fpreds) (ratios_or_stats ratios st)
                   algorithm k_max;
  after_rerank teamsvecs splits preds labels (ratios_or_stats ratios st) utility_metrics
               output (new_output_of output fpreds) algorithm k_max r.

(** *** The driver, sequential mode ([args.mode == 0]) *)

(** The command line, as far as the driver reads it. *)
Record args := {
  args_fteamsvecs : string;
  args_fsplits : string;
  args_ratios : option (list float)
}.

(** A discovered prediction file: the six components of its path. *)
Record pred_file := {
  dot : string; dotdot : string; domain : string;
  baseline : string; setting : string; rfile : string
}.

(** [dict([('p', args.ratios[0]), ('np', args.ratios[1])])] *)
Definition ratios_dict (r : option (list float)) : result (float * float) :=
  match r with
  | None => Raise TypeError
  | Some l => a ← py_getitem l 0; b ← py_getitem l 1; mret (a, b)
  end.

Definition ratios_arg (r : option (list float)) : ratios_t :=
  match r with None => RatiosNone | Some l => RatiosList l end.

Definition row_output (row : pred_file) : string :=
  dot row +:+ "/" +:+ dotdot row +:+ "/" +:+ domain row +:+ "/" +:+ baseline row
    +:+ "/" +:+ setting row +:+ "/".

(** The body of the loop: [run] with the defaults of its signature for
    the metrics, the algorithm and [k_max]. *)
Definition run_row (a : args) (row : pred_file) : M unit :=
  let output := row_output row in
  run (output +:+ "/" +:+ rfile row) (output +:+ "/rerank/")
      (args_fteamsvecs a) (args_fsplits a) (ratios_arg (args_ratios a))
      ["ndkl"] ["map_cut_2,5,10"] "det_cons" None.

Definition main_sequential (a : args) (files_found : list pred_file) : M unit :=
  lift (ratios_dict (args_ratios a));;
  mapM (run_row a) files_found;;
  mret ().

(** *** The driver, parallel mode ([args.mode == 1])

    [multiprocessing.Pool(processes).starmap(partial(Reranking.run, ...), pairs)],
    where [processes] is [cpu_count()] or [args.core].

    [starmap] cuts the tasks into batches of [chunksize] tasks, in order;
    a worker process runs the tasks of a batch one after the other and
    gives the batch up at the first task that raises; the map waits for
    every batch, keeps the exception of the first batch that failed and
    raises it at the end.

    The batches are run here one at a time, in the order they were
    submitted. That is the pool with one worker process; with more, the
    workers run batches side by side on the same files, and this is the
    schedule in which each batch ends before the next begins. *)







End Reranking.

(** ** The specification's index mapping

    Follows the specification (section 4.2): each position the reranker
    returns is mapped back to the original candidate id through the
    sorted table. [src/main.py] has no such function; it is stated here
    to be compared with what [rerank] returns. *)
Definition original_candidate_ids (table : list (nat * string * float))
    (positions : list Z) : result (list Z) :=
  mapM (λ m, x ← py_getitem table m; mret (Z.of_nat x.1.1)) positions.

(** The positions the reranker returns for a team, as [rerank] asks for
    them. *)
Definition reranker_positions `{Collaborators} (labels : list string) (ratios : ratios_t)
    (algorithm : string) (k_max : option Z) (team : list float) : result (list Z) :=
  table ← member_popularity_probs labels team;
  reranking_rerank (map (λ x, x.1.2) table) ratios k_max algorithm.

(** The value [rerank_team] returns or the exception it raises; neither
    depends on the files. *)
Definition rerank_team_result `{Collaborators} (labels : list string) (ratios : ratios_t)
    (algorithm : string) (k_max : option Z) (team : list float)
  : result (list Z * list float) :=
  table ← member_popularity_probs labels team;
  reranked_idx ← reranking_rerank (map (λ x, x.1.2) table) ratios k_max algorithm;
  reranked_probs ← mapM (λ m, x ← py_getitem table m; mret (x.2)) reranked_idx;
  mret (reranked_idx, reranked_probs).

(** The entries the two loops of [reranked_preds] give to [csr_matrix]
    when every team has as many scores as members: team [i], member [j]
    contributes [(i, reranked_idx[i][j], reranked_probs[i][j])]. *)
Fixpoint aligned_entries (i : nat) (reranked_idx : list (list Z))
    (reranked_probs : list (list float)) : list (nat * Z * float) :=
  match reranked_idx, reranked_probs with
  | ids :: idx', ps :: probs' =>
      zip_with (λ c v, (i, c, v)) ids ps ++ aligned_entries (S i) idx' probs'
  | _, _ => []
  end.

(** A checkpoint is present: the file exists and its loader accepts it. *)
Definition checkpoint_present {A} (codec : Codec A) (path : string) (s : state) : bool :=
  match files s !! path with
  | Some c => is_ok (load codec c)
  | None => false
  end.

(** ** Footprints

    [writes_only paths m]: running [m] leaves every file outside [paths]
    as it was, whether [m] returns or raises. *)
Definition writes_only {A} (paths : list string) (m : M A) : Prop :=
  ∀ s p, p ∉ paths → files (m s).2 !! p = files s !! p.

(** [appends_to path m]: whatever [m] does to the file at [path], the
    content it had stays at the front (an absent file counts as empty). *)
Definition appends_to {A} (path : string) (m : M A) : Prop :=
  ∀ s, ∃ added,
    default "" (files (m s).2 !! path) = default "" (files s !! path) +:+ added.

(** [enters stages m]: the stage functions [m] enters are all among
    [stages]. *)
Definition enters {A} (stages : list string) (m : M A) : Prop :=
  ∀ s, ∃ l, calls (m s).2 = calls s ++ l ∧ Forall (λ x, x ∈ stages) l.

(** The paths [run] reads its checkpoints from and writes them to, and
    the runtime log. *)
Definition run_paths (fpreds output algorithm : string) (k_max : option Z) : list string :=
  [ stats_pkl output; popularity_csv output;
    rerank_csv (new_output_of output fpreds) algorithm k_max;
    faireval_csv (new_output_of output fpreds) algorithm k_max;
    reranked_preds_pkl output algorithm k_max;
    utilityeval_before_csv (new_output_of output fpreds);
    utilityeval_after_csv (new_output_of output fpreds) algorithm k_max;
    fairness_runtime_txt ].

(** The four checkpoints of a run whose path is made from [new_output],
    that is from the name of the prediction file. *)
Definition per_file_paths (fpreds output algorithm : string) (k_max : option Z)
  : list string :=
  [ rerank_csv (new_output_of output fpreds) algorithm k_max;
    faireval_csv (new_output_of output fpreds) algorithm k_max;
    utilityeval_before_csv (new_output_of output fpreds);
    utilityeval_after_csv (new_output_of output fpreds) algorithm k_max ].

(** The paths the sequential driver may write for the prediction files it
    found: for each row, the paths of its [run]. *)
Definition row_paths (row : pred_file) : list string :=
  run_paths (row_output row +:+ "/" +:+ rfile row) (row_output row +:+ "/rerank/")
            "det_cons" None.

Definition driver_paths (files_found : list pred_file) : list string :=
  concat (map row_paths files_found).

(** A loader that accepts whatever its serialiser wrote. *)
Definition loads_own_dump {A} (codec : Codec A) : Prop :=
  ∀ v, is_ok (load codec (dump codec v)) = true.

(** The path has no slash. *)
Fixpoint no_slash (p : string) : bool :=
  match p with
  | EmptyString => true
  | String c r => negb (Ascii.eqb c slash) && no_slash r
  end.

(** ** A concrete instance

    Collaborators small enough to run the pipeline on: every loader
    raises on an empty file (a truncated write) and returns a fixed value
    on anything else; the reranker returns the same [positions] for every
    team. *)
Module Example.

Definition fixed_codec {A} (tag : string) (value : A) (on_empty : exn) : Codec A :=
  {| dump := λ _, tag;
     load := λ c, if bool_decide (c = "") then Raise on_empty else Ok value |}.

(** Ten teams over two candidates: the first is in eight teams, the
    second in two. *)
Definition members_8_2 : matrix :=
  {| shape1 := 2; rows := replicate 8 [1; 0] ++ replicate 2 [0; 1] |}.

(** A membership matrix without columns. *)
Definition members_empty : matrix := {| shape1 := 0; rows := [[]; []] |}.

Definition teamsvecs_value : gmap string matrix := {[ "member" := members_8_2 ]}.
Definition splits_value : gmap string (list Z) := {[ "test" := [8; 9]; "train" := [0; 1; 2] ]}.
Definition preds_value : list (list float) := [[0.25; 0.75]; [0.5; 0.125]]%float.

Definition collaborators (positions : list Z) : Collaborators := {|
  reranking_rerank := λ _ _ _ _, Ok positions;
  reranking_ndkl := λ _ _, Ok 0%float;
  calculate_metrics := λ _ _ _ _, Ok [("map_cut_2", 0.5%float)];
  elapsed := λ _, "0.001";
  pickle_stats := fixed_codec "<stats>"
    {| nmembers := 2; nteams_candidate_idx := [(0%nat, 8); (1%nat, 2)];
       avg_nteams_member := 5%float; popularity_ratio := (0.5, 0.5)%float |} EOFError;
  csv_popularity := fixed_codec "<popularity>" ["p"; "np"] "EmptyDataError";
  csv_rerank := fixed_codec "<rerank>" ([[1; 0]; [0; 1]], [[0.75; 0.25]; [0.5; 0.125]]%float)
                            "EmptyDataError";
  csv_faireval := fixed_codec "<faireval>"
    {| ndkl_before := [0; 0]%float; ndkl_after := [0; 0]%float |} "EmptyDataError";
  pickle_reranked_preds := fixed_codec "<reranked preds>"
    {| csr_shape := (2%nat, 2%nat); csr_entries := [] |} EOFError;
  csv_utility := fixed_codec "<utility>" [("map_cut_2", 0.5%float)] "EmptyDataError";
  pickle_teamsvecs := fixed_codec "<teamsvecs>" teamsvecs_value EOFError;
  json_splits := fixed_codec "<splits>" splits_value "JSONDecodeError";
  torch_preds := fixed_codec "<preds>" preds_value EOFError
|}.

Definition no_calls (fs : gmap string string) : state := {| files := fs; calls := [] |}.

(** The inputs of one run, and no checkpoint. *)
Definition inputs : gmap string string :=
  {[ "teamsvecs.pkl" := "<teamsvecs>"; "splits.json" := "<splits>";
     "out/f0.test.pred" := "<preds>"; "out/f1.test.pred" := "<preds>" ]}.

(** The driver's view of two prediction files of one setting. *)
Definition the_args : args :=
  {| args_fteamsvecs := "teamsvecs.pkl"; args_fsplits := "splits.json";
     args_ratios := Some [0.5; 0.5]%float |}.
Definition file0 : pred_file :=
  {| dot := "."; dotdot := ".."; domain := "output"; baseline := "bnn";
     setting := "t1"; rfile := "f0.test.pred" |}.
Definition file1 : pred_file :=
  {| dot := "."; dotdot := ".."; domain := "output"; baseline := "bnn";
     setting := "t1"; rfile := "f1.test.pred" |}.


(** [file0] was truncated, [file1] is whole. *)
Definition driver_inputs : gmap string string :=
  {[ "teamsvecs.pkl" := "<teamsvecs>"; "splits.json" := "<splits>";
     "./../output/bnn/t1//f0.test.pred" := "";
     "./../output/bnn/t1//f1.test.pred" := "<preds>" ]}.


(** The files after a first run on ["out/f0.test.pred"], with the trace
    emptied. *)
Definition after_first_run : state :=
  no_calls (files (run (collaborators := collaborators [1; 0])
                       "out/f0.test.pred" "out/rerank/" "teamsvecs.pkl" "splits.json"
                       RatiosNone ["ndkl"] ["map_cut_2,5,10"] "det_cons" None
                       (no_calls inputs)).2).

(** The inputs and a rerank checkpoint cut short to nothing. *)
Definition truncated_rerank : state :=
  no_calls (<[ "out/rerank//f0.test.pred.rerank.det_cons.None.csv" := "" ]> inputs).


(** The files after a first run, without the table of the utility
    evaluation "before". *)
Definition without_utility_before : state :=
  no_calls (delete "out/rerank//f0.test.pred.utilityeval.before.csv"
                   (files after_first_run)).

End Example.

(** * Properties *)

(** ** Binary64: multiplying by one *)



(** ** The two monads *)

Lemma result_bind_eq {A B} (r : result A) (f : A → result B) :
  r ≫= f = match r with Ok a => f a | Raise e => Raise e end.
Proof. reflexivity. Qed.

Lemma M_bind_eq {A B} (m : M A) (f : A → M B) (s : state) :
  (m ≫= f) s =
  match m s with
  | (Ok a, s') => f a s'
  | (Raise e, s') => (Raise e, s')
  end.
Proof. reflexivity. Qed.

Lemma is_ok_true {A} (r : result A) : is_ok r = true ↔ ∃ a, r = Ok a.
Proof.
  destruct r as [a|e]; simpl; split; eauto.
  - intros; discriminate.
  - intros [a Ha]; discriminate.
Qed.

(** Loading reads the files and changes nothing. *)
Lemma read_file_state path s : (read_file path s).2 = s.
Proof. unfold read_file. destruct (files s !! path); reflexivity. Qed.

Lemma load_file_state {A} (codec : Codec A) path s : (load_file codec path s).2 = s.
Proof.
  unfold load_file, read_file. rewrite M_bind_eq.
  destruct (files s !! path); reflexivity.
Qed.

Lemma load_file_present {A} (codec : Codec A) path s :
  checkpoint_present codec path s = true →
  ∃ v, load_file codec path s = (Ok v, s).
Proof.
  unfold checkpoint_present, load_file, read_file. rewrite M_bind_eq.
  destruct (files s !! path) as [c|]; [|discriminate].
  intros [v Hv]%is_ok_true. exists v. unfold lift. by rewrite Hv.
Qed.

Lemma load_file_result {A} (codec : Codec A) path s :
  load_file codec path s = ((load_file codec path s).1, s).
Proof. rewrite <- (load_file_state codec path s) at 3. by destruct (load_file codec path s). Qed.

(** ** Lists *)

Lemma enumerate_from_length {A} (i : nat) (l : list A) :
  length (enumerate_from i l) = length l.
Proof. revert i; induction l as [|x l IH]; intros i; simpl; [done|by rewrite IH]. Qed.

Lemma insert_reverse_length {A} (lt : A → A → bool) x l :
  length (insert_reverse lt x l) = S (length l).
Proof. induction l as [|y l IH]; simpl; [done|]. destruct (lt x y); simpl; by rewrite ?IH. Qed.

Lemma sorted_reverse_length {A} (lt : A → A → bool) l :
  length (sorted_reverse lt l) = length l.
Proof.
  induction l as [|x l IH]; simpl; [done|].
  unfold sorted_reverse in *. simpl. by rewrite insert_reverse_length, IH.
Qed.

Lemma sum_axis0_length a : length (sum_axis0 a) = shape1 a.
Proof. unfold sum_axis0. by rewrite length_map, length_seq. Qed.

(** [mapM] in [result]: every element succeeds, or the first failure is
    the result. *)
Lemma mapM_result_Ok {A B} (f : A → result B) l k :
  mapM f l = Ok k ↔ Forall2 (λ x y, f x = Ok y) l k.
Proof.
  revert k; induction l as [|x l IH]; intros k; simpl.
  - split; [intros [= <-]; constructor|by inversion 1].
  - rewrite result_bind_eq. destruct (f x) as [y|e] eqn:Hx.
    + rewrite result_bind_eq. destruct (mapM f l) as [k'|e] eqn:Hl.
      * split.
        -- intros [= <-]. constructor; [done|by apply IH].
        -- inversion 1 as [|? ? ? ? Hy Hk]; subst. rewrite Hx in Hy.
           injection Hy as <-. apply IH in Hk. by injection Hk as <-.
      * split; [discriminate|].
        inversion 1 as [|? ? ? ? Hy Hk]; subst. apply IH in Hk. discriminate.
    + split; [discriminate|]. inversion 1; congruence.
Qed.

Lemma mapM_result_length {A B} (f : A → result B) l k :
  mapM f l = Ok k → length k = length l.
Proof. intros Hk%mapM_result_Ok. symmetry. by eapply Forall2_length. Qed.

Lemma mapM_result_is_ok {A B} (f : A → result B) l :
  Forall (λ x, is_ok (f x) = true) l → is_ok (mapM f l) = true.
Proof.
  induction 1 as [|x l [y Hy]%is_ok_true _ IH]; simpl; [done|].
  rewrite result_bind_eq, Hy, result_bind_eq.
  apply is_ok_true in IH as [k ->]. done.
Qed.

(** When every failure of [f] is the exception [e], so is every failure
    of [mapM f]; and one failing element makes it fail. *)
Lemma mapM_result_Raise {A B} (f : A → result B) l e :
  Forall (λ x, is_ok (f x) = true ∨ f x = Raise e) l →
  Exists (λ x, f x = Raise e) l →
  mapM f l = Raise e.
Proof.
  induction 1 as [|x l Hx Hl IH]; intros Hex; [by inversion Hex|].
  simpl. rewrite result_bind_eq.
  destruct Hx as [[y Hy]%is_ok_true| ->]; [|done].
  rewrite Hy, result_bind_eq.
  inversion Hex as [? ? Hbad|? ? Hbad]; subst; [congruence|].
  by rewrite (IH Hbad).
Qed.

Section Properties.
Context {collaborators : Collaborators}.

(** ** [get_stats] *)

(** What [get_stats] computes, written out: it raises exactly when the
    division of line 36 does, and otherwise writes its two files. *)
Lemma get_stats_eq a coefficient output s :
  get_stats a coefficient output s =
  let labels := map (popularity_label (popularity_threshold coefficient a)) (sum_axis0 a) in
  match py_truediv (Z.of_nat (py_count "p" labels)) (Z.of_nat (shape1 a)) with
  | Ok popular_portion =>
      let st := {| nmembers := shape1 a;
                   nteams_candidate_idx := enumerate (sorted_reverse Z.ltb (sum_axis0 a));
                   avg_nteams_member := np_mean (sum_axis0 a);
                   popularity_ratio := (popular_portion, (1 - popular_portion)%float) |} in
      (Ok (st, labels),
       written (popularity_csv output) (dump csv_popularity labels)
         (written (stats_pkl output) (dump pickle_stats st) (entered "get_stats" s)))
  | Raise e => (Raise e, entered "get_stats" s)
  end.
Proof.
  unfold get_stats. rewrite M_bind_eq. cbn [invoked]. rewrite M_bind_eq. unfold lift at 1.
  cbv zeta. destruct (py_truediv _ _); reflexivity.
Qed.

Lemma py_truediv_zero a : py_truediv a 0 = Raise ZeroDivisionError.
Proof. reflexivity. Qed.

Lemma py_truediv_nonzero a b :
  b ≠ 0 → py_truediv a b = Ok (float_of_Z a / float_of_Z b)%float.
Proof. intros Hb. unfold py_truediv. by destruct (Z.eqb_spec b 0). Qed.

(** C7, as the code has it. [get_stats] raises when the membership matrix
    has no column, and the exception is Python's [ZeroDivisionError], from
    dividing the number of popular members by the number of members; with
    at least one column it returns. *)
Theorem get_stats_raises_iff_no_column a coefficient output s :
  (shape1 a = 0%nat →
   (get_stats a coefficient output s).1 = Raise ZeroDivisionError) ∧
  (shape1 a ≠ 0%nat →
   is_ok (get_stats a coefficient output s).1 = true).
Proof.
  rewrite get_stats_eq. cbv zeta. split; intros Hn.
  - by rewrite Hn, py_truediv_zero.
  - rewrite py_truediv_nonzero by lia. reflexivity.
Qed.

(** C9. With at least one column [get_stats] returns; candidate [c] is
    labelled ["p"] exactly when [coefficient * mean <= participation c],
    whatever the other candidates are, and the ratio is the fraction of
    candidates labelled ["p"] and one minus it. On ten teams over two
    candidates, eight for the first and two for the second, and
    coefficient 1.0: labels [p; np] and ratio (0.5, 0.5). *)
Theorem get_stats_labels_and_ratio :
  (∀ a coefficient output s, shape1 a ≠ 0%nat →
     ∃ st labels s',
       get_stats a coefficient output s = (Ok (st, labels), s') ∧
       length labels = shape1 a ∧
       (∀ c n, sum_axis0 a !! c = Some n →
          labels !! c =
          Some (if (coefficient * np_mean (sum_axis0 a) <=? float_of_Z n)%float
                then "p" else "np")) ∧
       popularity_ratio st =
         let n_popular := float_of_Z (Z.of_nat (py_count "p" labels)) in
         let n_candidates := float_of_Z (Z.of_nat (shape1 a)) in
         (n_popular / n_candidates, 1 - n_popular / n_candidates)%float) ∧
  (∀ output s,
     ∃ st s',
       get_stats Example.members_8_2 1%float output s = (Ok (st, ["p"; "np"]), s') ∧
       sum_axis0 Example.members_8_2 = [8; 2] ∧
       popularity_ratio st = (0.5, 0.5)%float).
Proof.
  split.
  - intros a coefficient output s Hn.
    rewrite get_stats_eq. cbv zeta.
    rewrite py_truediv_nonzero by lia.
    eexists _, _, _. split; [reflexivity|]. split; [|split].
    + by rewrite length_map, sum_axis0_length.
    + intros c n Hc. rewrite list_lookup_fmap, Hc. reflexivity.
    + reflexivity.
  - intros output s. rewrite get_stats_eq. cbv zeta.
    let t := eval vm_compute in (popularity_threshold 1 Example.members_8_2) in
    change (popularity_threshold 1 Example.members_8_2) with t.
    change (sum_axis0 Example.members_8_2) with [8; 2].
    eexists _, _. split; [reflexivity|]. split; reflexivity.
Qed.

(** ** Loading and [try] *)

Lemma try_except_Ok {A} (body handler : M A) catches s v s' :
  body s = (Ok v, s') → try_except body catches handler s = (Ok v, s').
Proof. unfold try_except. by intros ->. Qed.

Lemma try_except_caught {A} (body handler : M A) catches s e s' :
  body s = (Raise e, s') → catches e = true →
  try_except body catches handler s = handler s'.
Proof. unfold try_except. by intros -> ->. Qed.

Lemma try_except_uncaught {A} (body handler : M A) catches s e s' :
  body s = (Raise e, s') → catches e = false →
  try_except body catches handler s = (Raise e, s').
Proof. unfold try_except. by intros -> ->. Qed.

Lemma load_then_unit {A} (codec : Codec A) path s :
  (load_file codec path;; mret ()) s =
  (match (load_file codec path s).1 with Ok _ => Ok () | Raise e => Raise e end, s).
Proof.
  rewrite M_bind_eq, (load_file_result codec path s).
  by destruct (load_file codec path s).1.
Qed.


Lemma handler_member {A} (teamsvecs : gmap string matrix) member (k : matrix → M A) s :
  teamsvecs !! "member" = Some member →
  (member ← lift (py_key teamsvecs "member"); k member) s = k member s.
Proof. intros Hm. rewrite M_bind_eq. unfold lift, py_key. by rewrite Hm. Qed.

(** ** The trace only grows *)

Definition grows {A} (m : M A) : Prop :=
  ∀ s, ∃ l, calls (m s).2 = calls s ++ l.

Lemma grows_ret {A} (a : A) : grows (mret a).
Proof. intros s. exists []. by rewrite app_nil_r. Qed.

Lemma grows_lift {A} (r : result A) : grows (lift r).
Proof. intros s. exists []. by rewrite app_nil_r. Qed.

Lemma grows_load_file {A} (codec : Codec A) path : grows (load_file codec path).
Proof. intros s. exists []. by rewrite load_file_state, app_nil_r. Qed.

Lemma grows_write_file path content : grows (write_file path content).
Proof. intros s. exists []. by rewrite app_nil_r. Qed.

Lemma grows_append_file path content : grows (append_file path content).
Proof. intros s. exists []. by rewrite app_nil_r. Qed.

Lemma grows_invoked stage : grows (invoked stage).
Proof. intros s. by exists [stage]. Qed.

Lemma grows_bind {A B} (m : M A) (f : A → M B) :
  grows m → (∀ a, grows (f a)) → grows (m ≫= f).
Proof.
  intros Hm Hf s. rewrite M_bind_eq. destruct (Hm s) as [l Hl].
  destruct (m s) as [[a|e] s1]; simpl in Hl.
  - destruct (Hf a s1) as [l' Hl']. exists (l ++ l'). by rewrite Hl', Hl, app_assoc.
  - by exists l.
Qed.

Lemma grows_try_except {A} (body handler : M A) catches :
  grows body → grows handler → grows (try_except body catches handler).
Proof.
  intros Hbody Hhandler s. unfold try_except. destruct (Hbody s) as [l Hl].
  destruct (body s) as [[a|e] s1]; simpl in Hl; [by exists l|].
  destruct (catches e); [|by exists l].
  destruct (Hhandler s1) as [l' Hl']. exists (l ++ l'). by rewrite Hl', Hl, app_assoc.
Qed.

Lemma grows_mapM {A B} (f : A → M B) l : (∀ x, grows (f x)) → grows (mapM f l).
Proof.
  intros Hf. induction l as [|x l IH]; [apply grows_ret|].
  apply grows_bind; [apply Hf|]. intros y.
  apply grows_bind; [apply IH|]. intros k. apply grows_ret.
Qed.

Create HintDb grows.
#[local] Hint Resolve grows_ret grows_lift grows_load_file grows_write_file
  grows_append_file grows_invoked grows_try_except grows_mapM : grows.

(** Sequencing, branches and destructuring binders, then the hints. *)
Ltac grows_step :=
  lazymatch goal with
  | |- grows (_ ≫= _) => apply grows_bind; [|intros ?]
  | |- grows (if ?b then _ else _) => destruct b
  | |- grows (let '(_, _) := ?p in _) => destruct p
  | |- grows (mapM _ _) => apply grows_mapM; intros ?
  | |- grows (try_except _ _ _) => apply grows_try_except
  | |- _ => solve [auto with grows]
  end.
Ltac grows := repeat grows_step.

Lemma grows_get_stats member coefficient output : grows (get_stats member coefficient output).
Proof. unfold get_stats. grows. Qed.

Lemma grows_rerank preds labels output ratios algorithm k_max :
  grows (rerank preds labels output ratios algorithm k_max).
Proof. unfold rerank, rerank_team. grows. Qed.

Lemma grows_eval_fairness preds labels reranked_idx ratios output algorithm k_max :
  grows (eval_fairness preds labels reranked_idx ratios output algorithm k_max).
Proof. unfold eval_fairness. grows. Qed.

Lemma grows_reranked_preds member splits reranked_idx probs output algorithm k_max :
  grows (reranked_preds member splits reranked_idx probs output algorithm k_max).
Proof. unfold reranked_preds. grows. Qed.

Lemma grows_eval_utility member sparse preds splits metrics output algorithm op k_max :
  grows (eval_utility member sparse preds splits metrics output algorithm op k_max).
Proof. unfold eval_utility. grows. Qed.

#[local] Hint Resolve grows_get_stats grows_rerank grows_eval_fairness
  grows_reranked_preds grows_eval_utility : grows.




(** ** [rerank] *)

Lemma rerank_team_fst labels output ratios algorithm k_max team s :
  (rerank_team labels output ratios algorithm k_max team s).1 =
  rerank_team_result labels ratios algorithm k_max team.
Proof.
  unfold rerank_team, rerank_team_result.
  rewrite M_bind_eq, result_bind_eq. unfold lift at 1.
  destruct (member_popularity_probs labels team) as [table|e]; [|done].
  rewrite M_bind_eq, result_bind_eq. unfold lift at 1.
  destruct (reranking_rerank _ _ _ _) as [pos|e]; [|done].
  rewrite M_bind_eq. cbn [append_file]. rewrite M_bind_eq, result_bind_eq. unfold lift.
  by destruct (mapM _ pos).
Qed.

Lemma mapM_M_fst {A B} (f : A → M B) (g : A → result B) l :
  (∀ x s, (f x s).1 = g x) → ∀ s, (mapM f l s).1 = mapM g l.
Proof.
  intros Hfg. induction l as [|x l IH]; intros s; simpl; [done|].
  rewrite M_bind_eq, result_bind_eq. specialize (Hfg x s).
  destruct (f x s) as [[y|e] s1]; simpl in Hfg; rewrite <- Hfg; [|done].
  rewrite M_bind_eq, result_bind_eq. specialize (IH s1).
  destruct (mapM f l s1) as [[k|e] s2]; simpl in IH; rewrite <- IH; done.
Qed.

Lemma rerank_fst preds labels output ratios algorithm k_max s :
  (rerank preds labels output ratios algorithm k_max s).1 =
  (teams ← mapM (rerank_team_result labels ratios algorithm k_max) preds;
   mret (teams.*1, teams.*2)).
Proof.
  unfold rerank. rewrite M_bind_eq. cbn [invoked]. rewrite M_bind_eq, result_bind_eq.
  rewrite <- (mapM_M_fst (rerank_team labels output ratios algorithm k_max) _ preds
                (λ x s, rerank_team_fst labels output ratios algorithm k_max x s)
                (entered "rerank" s)).
  by destruct (mapM (rerank_team _ _ _ _ _) preds _) as [[teams|e] s1].
Qed.

Lemma py_getitem_in_range {A} (l : list A) (i : Z) :
  - Z.of_nat (length l) ≤ i < Z.of_nat (length l) → is_ok (py_getitem l i) = true.
Proof.
  intros Hi. unfold py_getitem. cbv zeta.
  set (j := if i <? 0 then Z.of_nat (length l) + i else i).
  assert (0 ≤ j < Z.of_nat (length l)) as Hj by (unfold j; destruct (Z.ltb_spec i 0); lia).
  destruct (Z.leb_spec 0 j); [|lia]. destruct (Z.ltb_spec j (Z.of_nat (length l))); [|lia].
  simpl. destruct (l !! Z.to_nat j) eqn:Hl; [done|].
  apply lookup_ge_None in Hl. lia.
Qed.

Lemma py_getitem_out_of_range {A} (l : list A) (i : Z) :
  i < - Z.of_nat (length l) ∨ Z.of_nat (length l) ≤ i → py_getitem l i = Raise IndexError.
Proof.
  intros Hi. unfold py_getitem. cbv zeta.
  set (j := if i <? 0 then Z.of_nat (length l) + i else i).
  assert (j < 0 ∨ Z.of_nat (length l) ≤ j) as Hj by (unfold j; destruct (Z.ltb_spec i 0); lia).
  destruct (Z.leb_spec 0 j); destruct (Z.ltb_spec j (Z.of_nat (length l))); simpl; try done; lia.
Qed.

Lemma py_getitem_cases {A} (l : list A) (i : Z) :
  is_ok (py_getitem l i) = true ∨ py_getitem l i = Raise IndexError.
Proof.
  destruct (decide (- Z.of_nat (length l) ≤ i < Z.of_nat (length l))).
  - left. by apply py_getitem_in_range.
  - right. apply py_getitem_out_of_range. lia.
Qed.

Lemma member_popularity_probs_length labels team table :
  member_popularity_probs labels team = Ok table → length table = length team.
Proof.
  unfold member_popularity_probs. rewrite result_bind_eq.
  destruct (mapM _ (enumerate team)) as [t|e] eqn:Ht; [|discriminate].
  intros [= <-]. rewrite sorted_reverse_length.
  apply mapM_result_length in Ht. rewrite Ht. apply enumerate_from_length.
Qed.

(** One team: once the reranker has returned [positions], the team is
    reranked when every position is within [-n, n), and [IndexError] is
    raised when one is not. *)
Lemma rerank_team_result_cases labels ratios algorithm k_max team positions :
  reranker_positions labels ratios algorithm k_max team = Ok positions →
  let n := Z.of_nat (length team) in
  (Forall (λ m, - n ≤ m < n) positions →
   ∃ probs, rerank_team_result labels ratios algorithm k_max team = Ok (positions, probs)) ∧
  (Exists (λ m, m < - n ∨ n ≤ m) positions →
   rerank_team_result labels ratios algorithm k_max team = Raise IndexError).
Proof.
  unfold reranker_positions, rerank_team_result. rewrite !result_bind_eq.
  destruct (member_popularity_probs labels team) as [table|e] eqn:Htable; [|discriminate].
  intros ->. cbv zeta. rewrite result_bind_eq.
  apply member_popularity_probs_length in Htable. rewrite <- Htable.
  set (f := λ m : Z, x ← py_getitem table m; mret (x.2)).
  assert (Hf : ∀ m, is_ok (py_getitem table m) = is_ok (f m)).
  { intros m. unfold f. rewrite result_bind_eq. by destruct (py_getitem table m). }
  split.
  - intros Hall.
    assert (is_ok (mapM f positions) = true) as [probs Hprobs]%is_ok_true.
    { apply mapM_result_is_ok. eapply Forall_impl; [exact Hall|].
      intros m Hm. simpl. rewrite <- Hf. by apply py_getitem_in_range. }
    exists probs. rewrite Hprobs. reflexivity.
  - intros Hex.
    rewrite (mapM_result_Raise f positions IndexError); [done| |].
    + apply Forall_forall. intros m _.
      destruct (py_getitem_cases table m) as [Hok|Hbad].
      * left. by rewrite <- Hf.
      * right. unfold f. by rewrite Hbad.
    + eapply Exists_impl; [exact Hex|]. intros m Hm. simpl.
      unfold f. by rewrite (py_getitem_out_of_range table m Hm).
Qed.

(** What [rerank] returns as [idx] is, team by team, the list of positions
    the reranker returned: positions in the sorted table, passed on as
    they are. *)
Lemma rerank_idx_is_reranker_positions preds labels output ratios algorithm k_max s idx probs :
  (rerank preds labels output ratios algorithm k_max s).1 = Ok (idx, probs) →
  Forall2 (λ team positions,
             reranker_positions labels ratios algorithm k_max team = Ok positions)
          preds idx.
Proof.
  rewrite rerank_fst, result_bind_eq.
  destruct (mapM _ preds) as [teams|e] eqn:Hteams; [|discriminate].
  intros [= <- _]. apply mapM_result_Ok in Hteams.
  apply Forall2_fmap_r. eapply Forall2_impl; [exact Hteams|].
  intros team [positions ps]. simpl.
  unfold rerank_team_result, reranker_positions. rewrite !result_bind_eq.
  destruct (member_popularity_probs labels team); [|discriminate].
  rewrite result_bind_eq.
  destruct (reranking_rerank _ _ _ _); [|discriminate].
  rewrite result_bind_eq. destruct (mapM _ _); [|discriminate].
  by intros [= -> _].
Qed.

(** C8, as the code has it. Provided the reranker returns for every team:
    when it returns, for some team, a position below [-team_size] or at
    least [team_size], [rerank] raises Python's [IndexError]; when every
    position it returns is within [0, team_size), [rerank] returns. *)
Theorem rerank_raises_IndexError preds labels output ratios algorithm k_max s :
  Forall (λ team, is_ok (reranker_positions labels ratios algorithm k_max team) = true)
         preds →
  (Exists (λ team, ∃ positions m,
             reranker_positions labels ratios algorithm k_max team = Ok positions ∧
             m ∈ positions ∧
             (m < - Z.of_nat (length team) ∨ Z.of_nat (length team) ≤ m)) preds →
   (rerank preds labels output ratios algorithm k_max s).1 = Raise IndexError) ∧
  (Forall (λ team, ∀ positions m,
             reranker_positions labels ratios algorithm k_max team = Ok positions →
             m ∈ positions → 0 ≤ m < Z.of_nat (length team)) preds →
   is_ok (rerank preds labels output ratios algorithm k_max s).1 = true).
Proof.
  intros Horacle. rewrite rerank_fst, result_bind_eq. split.
  - intros Hex.
    rewrite (mapM_result_Raise _ preds IndexError); [done| |].
    + eapply Forall_impl; [exact Horacle|]. intros team [positions Hpos]%is_ok_true. simpl.
      destruct (rerank_team_result_cases _ _ _ _ _ _ Hpos) as [Hin Hout].
      destruct (decide (Forall (λ m, - Z.of_nat (length team) ≤ m < Z.of_nat (length team))
                               positions)) as [Hall|Hnot].
      * left. destruct (Hin Hall) as [probs ->]. done.
      * right. apply Hout. apply not_Forall_Exists in Hnot; [ | apply _ ].
        eapply Exists_impl; [exact Hnot| ]. simpl. intros m Hm. lia.
    + eapply Exists_impl; [exact Hex|]. simpl.
      intros team (positions & m & Hpos & Hm & Hrange).
      destruct (rerank_team_result_cases _ _ _ _ _ _ Hpos) as [_ Hout].
      apply Hout. apply Exists_exists. eauto.
  - intros Hall.
    assert (is_ok (mapM (rerank_team_result labels ratios algorithm k_max) preds) = true)
      as [teams ->]%is_ok_true; [|done].
    apply mapM_result_is_ok. apply Forall_forall. intros team Hteam.
    rewrite Forall_forall in Horacle, Hall.
    specialize (Horacle team Hteam). apply is_ok_true in Horacle as [positions Hpos].
    destruct (rerank_team_result_cases _ _ _ _ _ _ Hpos) as [Hin _].
    destruct Hin as [probs ->]; [|done].
    apply Forall_forall. intros m Hm. specialize (Hall team Hteam positions m Hpos Hm). lia.
Qed.

(** ** [reranked_preds] *)

Lemma py_getitem_nat {A} (l : list A) (i : nat) x :
  l !! i = Some x → py_getitem l (Z.of_nat i) = Ok x.
Proof.
  intros Hx. pose proof (lookup_lt_Some _ _ _ Hx) as Hlt.
  unfold py_getitem. cbv zeta.
  destruct (Z.ltb_spec (Z.of_nat i) 0); [lia|].
  destruct (Z.leb_spec 0 (Z.of_nat i)); [|lia].
  destruct (Z.ltb_spec (Z.of_nat i) (Z.of_nat (length l))); [|lia].
  simpl. by rewrite Nat2Z.id, Hx.
Qed.

Lemma mapM_result_cons {A B} (f : A → result B) x l :
  mapM f (x :: l) =
  match f x with
  | Ok y => match mapM f l with Ok k => Ok (y :: k) | Raise e => Raise e end
  | Raise e => Raise e
  end.
Proof. reflexivity. Qed.

Lemma drop_lookup_head {A} (l rest : list A) (i : nat) x :
  drop i l = x :: rest → l !! i = Some x ∧ drop (S i) l = rest.
Proof.
  intros Hdrop. split.
  - rewrite <- (Nat.add_0_r i), <- lookup_drop, Hdrop. done.
  - replace (S i) with (i + 1)%nat by lia. rewrite <- drop_drop, Hdrop. done.
Qed.

Lemma reranked_team_entries_aligned reranked_probs i ps ids :
  reranked_probs !! i = Some ps →
  length ids = length ps →
  reranked_team_entries reranked_probs i ids = Ok (zip_with (λ c v, (i, c, v)) ids ps).
Proof.
  intros Hps Hlen. unfold reranked_team_entries, enumerate.
  set (f := λ '(j, reranked_member), _).
  assert (Hf : ∀ j c v, ps !! j = Some v → f (j, c) = Ok (i, c, v)).
  { intros j c v Hv. unfold f.
    by rewrite result_bind_eq, (py_getitem_nat _ _ _ Hps),
               result_bind_eq, (py_getitem_nat _ _ _ Hv). }
  assert (Hgen : ∀ j0 rest, drop j0 ps = rest → length ids = length rest →
    mapM f (enumerate_from j0 ids) = Ok (zip_with (λ c v, (i, c, v)) ids rest)).
  { clear Hlen. induction ids as [|c ids IH]; intros j0 rest Hdrop Hlen; [done|].
    destruct rest as [|v rest]; [discriminate|].
    apply drop_lookup_head in Hdrop as [Hv Hdrop].
    cbn [enumerate_from]. rewrite mapM_result_cons, (Hf _ _ _ Hv).
    rewrite (IH (S j0) rest); [done|done|by injection Hlen]. }
  apply (Hgen 0%nat ps); done.
Qed.

Lemma reranked_entries_aligned reranked_idx reranked_probs :
  Forall2 (λ ids ps, length ids = length ps) reranked_idx reranked_probs →
  reranked_entries reranked_idx reranked_probs = Ok (aligned_entries 0 reranked_idx reranked_probs).
Proof.
  intros Hall. unfold reranked_entries, enumerate. rewrite result_bind_eq.
  set (f := λ '(i, reranked_team), _).
  assert (Hgen : ∀ idx i0 rest, drop i0 reranked_probs = rest →
    Forall2 (λ ids ps, length ids = length ps) idx rest →
    ∃ per_team,
      mapM f (enumerate_from i0 idx) = Ok per_team ∧
      concat per_team = aligned_entries i0 idx rest).
  { induction idx as [|ids idx IH]; intros i0 rest Hdrop Hlen.
    - exists []. by inversion Hlen.
    - inversion Hlen as [|? ps ? rest' Hhead Htail]; subst.
      symmetry in H1. apply drop_lookup_head in H1 as [Hps Hdrop].
      destruct (IH (S i0) rest' Hdrop Htail) as (per_team & Hper & Hconcat).
      exists (zip_with (λ c v, (i0, c, v)) ids ps :: per_team). split.
      + cbn [enumerate_from]. rewrite mapM_result_cons. unfold f at 1.
        by rewrite (reranked_team_entries_aligned _ _ ps), Hper.
      + simpl. by rewrite Hconcat. }
  destruct (Hgen reranked_idx 0%nat reranked_probs) as (per_team & -> & <-); done.
Qed.

Lemma py_getitem_nat_inv {A} (l : list A) (i : nat) x :
  py_getitem l (Z.of_nat i) = Ok x → l !! i = Some x.
Proof.
  unfold py_getitem. cbv zeta.
  destruct (Z.ltb_spec (Z.of_nat i) 0); [lia|].
  destruct (_ && _); [|discriminate].
  rewrite Nat2Z.id. destruct (l !! i); [|discriminate]. by intros [= ->].
Qed.

Lemma aligned_entries_nil_r i idx : aligned_entries i idx [] = [].
Proof. by destruct idx. Qed.

(** Conversely: whenever the loops end without [IndexError], the entries
    are the aligned ones (a team without members reads no score). *)
Lemma reranked_team_entries_Ok reranked_probs i ids l :
  reranked_team_entries reranked_probs i ids = Ok l →
  (ids = [] ∧ l = []) ∨
  (∃ ps, reranked_probs !! i = Some ps ∧ l = zip_with (λ c v, (i, c, v)) ids ps).
Proof.
  unfold reranked_team_entries, enumerate.
  destruct (py_getitem reranked_probs (Z.of_nat i)) as [ps|e] eqn:Hps.
  - set (f := λ '(j, reranked_member), _).
    intros Hl. right. exists ps. split; [by apply py_getitem_nat_inv|].
    assert (Hf : ∀ j c y, f (j, c) = Ok y → ∃ v, ps !! j = Some v ∧ y = (i, c, v)).
    { intros j c y. unfold f. rewrite !result_bind_eq.
      destruct (py_getitem ps (Z.of_nat j)) as [v|e] eqn:Hv; [|discriminate].
      intros [= <-]. exists v. split; [by apply py_getitem_nat_inv|done]. }
    assert (Hgen : ∀ ids j0 l, mapM f (enumerate_from j0 ids) = Ok l →
                               l = zip_with (λ c v, (i, c, v)) ids (drop j0 ps)).
    { clear Hl l ids. induction ids as [|c ids IH]; intros j0 l.
      - by intros [= <-].
      - cbn [enumerate_from]. rewrite mapM_result_cons.
        destruct (f (j0, c)) as [y|e] eqn:Hy; [|discriminate].
        destruct (mapM f (enumerate_from (S j0) ids)) as [k|e] eqn:Hk; [|discriminate].
        intros [= <-]. apply Hf in Hy as (v & Hv & ->).
        rewrite (drop_S _ _ _ Hv). cbn [zip_with]. f_equal. by apply IH. }
    by apply (Hgen ids 0%nat l).
  - destruct ids as [|c ids]; [by intros [= <-]; left|].
    cbn [enumerate_from]. rewrite mapM_result_cons, result_bind_eq. discriminate.
Qed.

Lemma reranked_entries_Ok reranked_idx reranked_probs entries :
  reranked_entries reranked_idx reranked_probs = Ok entries →
  entries = aligned_entries 0 reranked_idx reranked_probs.
Proof.
  unfold reranked_entries, enumerate. rewrite result_bind_eq.
  set (f := λ '(i, reranked_team), _).
  assert (Hgen : ∀ idx i0 per_team, mapM f (enumerate_from i0 idx) = Ok per_team →
                 concat per_team = aligned_entries i0 idx (drop i0 reranked_probs)).
  { induction idx as [|ids idx IH]; intros i0 per_team.
    - intros [= <-]. by destruct (drop i0 reranked_probs).
    - cbn [enumerate_from]. rewrite mapM_result_cons.
      destruct (f (i0, ids)) as [l|e] eqn:Hl; [|discriminate].
      destruct (mapM f (enumerate_from (S i0) idx)) as [k|e] eqn:Hk; [|discriminate].
      intros [= <-]. cbn [concat]. rewrite (IH _ _ Hk).
      apply reranked_team_entries_Ok in Hl as [[-> ->]|(ps & Hps & ->)].
      + destruct (drop i0 reranked_probs) as [|ps rest] eqn:Hdrop.
        * replace (drop (S i0) reranked_probs) with (@nil (list float)).
          { by rewrite aligned_entries_nil_r. }
          symmetry. apply drop_ge. apply drop_nil_inv in Hdrop. lia.
        * apply drop_lookup_head in Hdrop as [_ ->]. done.
      + by rewrite (drop_S _ _ _ Hps). }
  destruct (mapM f (enumerate_from 0 reranked_idx)) as [per_team|e] eqn:Hper; [|discriminate].
  intros [= <-]. by apply (Hgen reranked_idx 0%nat).
Qed.

Lemma row_other i i' c ids ps :
  i' ≠ i → omap (at_cell i c) (zip_with (λ k v, (i', k, v)) ids ps) = [].
Proof.
  intros Hi. revert ps. induction ids as [|k ids IH]; intros [|v ps]; try done.
  cbn [zip_with omap list_omap at_cell]. rewrite bool_decide_eq_false_2 by (intros [? _]; done). apply IH.
Qed.

Lemma row_miss i c ids ps :
  c ∉ ids → omap (at_cell i c) (zip_with (λ k v, (i, k, v)) ids ps) = [].
Proof.
  revert ps. induction ids as [|k ids IH]; intros [|v ps] Hc; try done.
  apply not_elem_of_cons in Hc as [Hk Hc].
  cbn [zip_with omap list_omap at_cell]. rewrite bool_decide_eq_false_2 by (intros [_ ?]; done). by apply IH.
Qed.

Lemma row_hit i c v ids ps j :
  NoDup ids → ids !! j = Some c → ps !! j = Some v →
  omap (at_cell i c) (zip_with (λ k v, (i, k, v)) ids ps) = [v].
Proof.
  revert ps j. induction ids as [|k ids IH]; intros ps j Hnodup Hc Hv.
  - by rewrite lookup_nil in Hc.
  - destruct ps as [|v0 ps]; [by rewrite lookup_nil in Hv|].
    apply NoDup_cons in Hnodup as [Hk Hnodup].
    cbn [zip_with omap list_omap at_cell]. destruct j as [|j]; simpl in Hc, Hv.
    + injection Hc as ->. injection Hv as ->.
      rewrite bool_decide_eq_true_2 by done. f_equal. by apply row_miss.
    + rewrite bool_decide_eq_false_2.
      * by apply (IH ps j).
      * intros [_ ->]. apply Hk. by eapply list_elem_of_lookup_2.
Qed.

Lemma aligned_rows_below i i0 c idx probs :
  (i < i0)%nat → omap (at_cell i c) (aligned_entries i0 idx probs) = [].
Proof.
  revert i0 probs. induction idx as [|ids idx IH]; intros i0 [|ps probs] Hi; try done.
  cbn [aligned_entries]. rewrite omap_app, row_other by lia.
  apply IH. lia.
Qed.

Lemma aligned_hit idx probs i0 k ids ps j c v :
  Forall NoDup idx →
  idx !! k = Some ids → probs !! k = Some ps →
  ids !! j = Some c → ps !! j = Some v →
  omap (at_cell (i0 + k) c) (aligned_entries i0 idx probs) = [v].
Proof.
  revert probs i0 k.
  induction idx as [|ids0 idx IH]; intros [|ps0 probs] i0 k Hnodup Hids Hps Hc Hv; try done.
  apply Forall_cons in Hnodup as [Hnodup0 Hnodup].
  cbn [aligned_entries]. rewrite omap_app. destruct k as [|k]; simpl in Hids, Hps.
  - injection Hids as ->. injection Hps as ->. rewrite Nat.add_0_r.
    rewrite (row_hit _ _ v _ _ j), aligned_rows_below by (done || lia). done.
  - rewrite row_other by lia.
    replace (i0 + S k)%nat with (S i0 + k)%nat by lia. by apply IH.
Qed.

Lemma aligned_miss idx probs i0 k c :
  (∀ ids, idx !! k = Some ids → c ∉ ids) →
  omap (at_cell (i0 + k) c) (aligned_entries i0 idx probs) = [].
Proof.
  revert probs i0 k.
  induction idx as [|ids0 idx IH]; intros [|ps0 probs] i0 k Hc; try done.
  cbn [aligned_entries]. rewrite omap_app. destruct k as [|k].
  - rewrite Nat.add_0_r, row_miss, aligned_rows_below by (lia || by apply Hc). done.
  - rewrite row_other by lia.
    replace (i0 + S k)%nat with (S i0 + k)%nat by lia. apply IH.
    intros ids Hids. by apply Hc.
Qed.

Lemma aligned_entries_in_shape idx probs i0 (n0 n1 : nat) :
  (i0 + length idx ≤ n0)%nat →
  Forall (Forall (λ c, 0 ≤ c < Z.of_nat n1)) idx →
  forallb (λ '(r, k, _), (r <? n0)%nat && (0 <=? k) && (k <? Z.of_nat n1))
          (aligned_entries i0 idx probs) = true.
Proof.
  revert probs i0. induction idx as [|ids idx IH]; intros [|ps probs] i0 Hrows Hcols; try done.
  apply Forall_cons in Hcols as [Hids Hcols]. simpl in Hrows.
  cbn [aligned_entries]. rewrite forallb_app, IH by (done || lia).
  rewrite andb_true_r. clear IH Hcols.
  revert ps. induction Hids as [|c ids Hc _ IH]; intros [|v ps]; try done.
  cbn [zip_with forallb]. rewrite IH, andb_true_r.
  destruct (Nat.ltb_spec i0 n0); [|lia].
  destruct (Z.leb_spec 0 c); [|lia]. destruct (Z.ltb_spec c (Z.of_nat n1)); [done|lia].
Qed.

Lemma select_rows_shape a index y :
  select_rows a index = Ok y → shape0 y = length index ∧ shape1 y = shape1 a.
Proof.
  unfold select_rows. rewrite result_bind_eq.
  destruct (mapM _ index) as [sel|e] eqn:Hsel; [|discriminate].
  intros [= <-]. split; [|done]. by apply mapM_result_length in Hsel.
Qed.

Lemma reranked_preds_persists member splits reranked_idx probs output algorithm k_max s v s' :
  reranked_preds member splits reranked_idx probs output algorithm k_max s = (Ok v, s') →
  files s' !! reranked_preds_pkl output algorithm k_max
    = Some (dump pickle_reranked_preds v).
Proof.
  unfold reranked_preds. rewrite M_bind_eq. cbn [invoked]. rewrite M_bind_eq. unfold lift at 1.
  destruct (py_key splits "test") as [test|e]; [|discriminate].
  rewrite M_bind_eq. unfold lift at 1.
  destruct (select_rows member test) as [y_test|e]; [|discriminate].
  rewrite M_bind_eq. unfold lift at 1.
  destruct (reranked_entries reranked_idx probs) as [entries|e]; [|discriminate].
  rewrite M_bind_eq. unfold lift at 1.
  destruct (make_csr entries _) as [m|e]; [|discriminate].
  rewrite M_bind_eq. cbn [write_file]. intros [= <- <-].
  cbn [written files]. apply lookup_insert_eq.
Qed.

(** Whenever [reranked_preds] returns, its matrix holds the aligned
    entries and was written to the checkpoint. *)
Lemma reranked_preds_Ok member splits reranked_idx reranked_probs output algorithm k_max
    s m s' :
  reranked_preds member splits reranked_idx reranked_probs output algorithm k_max s
    = (Ok m, s') →
  csr_entries m = aligned_entries 0 reranked_idx reranked_probs.
Proof.
  unfold reranked_preds. rewrite M_bind_eq. cbn [invoked]. rewrite M_bind_eq. unfold lift at 1.
  destruct (py_key splits "test") as [test|e]; [|discriminate].
  rewrite M_bind_eq. unfold lift at 1.
  destruct (select_rows member test) as [y_test|e]; [|discriminate].
  rewrite M_bind_eq. unfold lift at 1.
  destruct (reranked_entries reranked_idx reranked_probs) as [entries|e] eqn:Hentries;
    [|discriminate].
  apply reranked_entries_Ok in Hentries as ->.
  rewrite M_bind_eq. unfold lift at 1, make_csr.
  destruct (forallb _ _); [|by destruct (forallb _ _)].
  rewrite M_bind_eq. cbn [write_file]. by intros [= <- <-].
Qed.

(** With reranked teams that fit the test split, [reranked_preds]
    returns a matrix of the shape of the split. *)
Lemma reranked_preds_returns member splits test reranked_idx reranked_probs
    output algorithm k_max s :
  splits !! "test" = Some test →
  is_ok (select_rows member test) = true →
  (length reranked_idx ≤ length test)%nat →
  Forall2 (λ ids ps, length ids = length ps) reranked_idx reranked_probs →
  Forall (Forall (λ c, 0 ≤ c < Z.of_nat (shape1 member))) reranked_idx →
  ∃ m s',
    reranked_preds member splits reranked_idx reranked_probs output algorithm k_max s
      = (Ok m, s') ∧
    csr_shape m = (length test, shape1 member).
Proof.
  intros Htest [y_test Hy]%is_ok_true Hrows Haligned Hcols.
  destruct (select_rows_shape _ _ _ Hy) as [Hshape0 Hshape1].
  eexists _, _. split.
  - unfold reranked_preds. rewrite M_bind_eq. cbn [invoked].
    rewrite M_bind_eq. unfold lift at 1, py_key. rewrite Htest.
    rewrite M_bind_eq. unfold lift at 1. rewrite Hy.
    rewrite M_bind_eq. unfold lift at 1. rewrite (reranked_entries_aligned _ _ Haligned).
    rewrite M_bind_eq. unfold lift at 1, make_csr. rewrite Hshape0, Hshape1.
    cbn [fst snd]. rewrite aligned_entries_in_shape by done.
    reflexivity.
  - reflexivity.
Qed.

(** C4. Let no reranked team repeat a candidate. Whenever [reranked_preds]
    returns a matrix, the matrix holds at row [i] and column
    [reranked_idx[i][j]] the single value [reranked_probs[i][j]], holds
    nothing at a (team, candidate) pair that the reranked teams do not
    have, which therefore reads as zero, and is what the checkpoint
    keeps. And it does return a matrix, of the shape of the test split,
    for reranked teams that fit the split: no more teams than test rows,
    every candidate index a column of the membership matrix, one score
    per member. *)
Theorem reranked_preds_round_trip
    (teamsvecs_members : matrix) (splits : gmap string (list Z))
    (reranked_idx : list (list Z)) (reranked_probs : list (list float))
    (output algorithm : string) (k_max : option Z) (s : state) :
  Forall NoDup reranked_idx →
  (∀ m s',
     reranked_preds teamsvecs_members splits reranked_idx reranked_probs
                    output algorithm k_max s = (Ok m, s') →
     (∀ i j ids ps c v,
        reranked_idx !! i = Some ids → ids !! j = Some c →
        reranked_probs !! i = Some ps → ps !! j = Some v →
        csr_values m i c = [v] ∧ csr_get m i c = v) ∧
     (∀ i c,
        (∀ ids, reranked_idx !! i = Some ids → c ∉ ids) →
        csr_values m i c = [] ∧ csr_get m i c = 0%float) ∧
     files s' !! reranked_preds_pkl output algorithm k_max
       = Some (dump pickle_reranked_preds m)) ∧
  (∀ test,
     splits !! "test" = Some test →
     is_ok (select_rows teamsvecs_members test) = true →
     (length reranked_idx ≤ length test)%nat →
     Forall2 (λ ids ps, length ids = length ps) reranked_idx reranked_probs →
     Forall (Forall (λ c, 0 ≤ c < Z.of_nat (shape1 teamsvecs_members))) reranked_idx →
     ∃ m s',
       reranked_preds teamsvecs_members splits reranked_idx reranked_probs
                      output algorithm k_max s = (Ok m, s') ∧
       csr_shape m = (length test, shape1 teamsvecs_members)).
Proof.
  intros Hnodup. split.
  - intros m s' Hrun. pose proof (reranked_preds_Ok _ _ _ _ _ _ _ _ _ _ Hrun) as Hentries.
    split_and!.
    + intros i j ids ps c v Hids Hc Hps Hv.
      assert (csr_values m i c = [v]) as Hvalues.
      { unfold csr_values. rewrite Hentries.
        apply (aligned_hit _ _ 0%nat i ids ps j c v Hnodup Hids Hps Hc Hv). }
      split; [done|]. unfold csr_get. by rewrite Hvalues.
    + intros i c Hc.
      assert (csr_values m i c = []) as Hvalues.
      { unfold csr_values. rewrite Hentries. apply (aligned_miss _ _ 0%nat i c Hc). }
      split; [done|]. unfold csr_get. by rewrite Hvalues.
    + by eapply reranked_preds_persists.
  - intros test. apply reranked_preds_returns.
Qed.

(** ** [run]: the stages and their checkpoints *)

(** A stage that returns has written its checkpoint. *)
Lemma rerank_persists preds labels output ratios algorithm k_max s v s' :
  rerank preds labels output ratios algorithm k_max s = (Ok v, s') →
  files s' !! rerank_csv output algorithm k_max = Some (dump csv_rerank v).
Proof.
  unfold rerank. rewrite M_bind_eq. cbn [invoked]. rewrite M_bind_eq.
  destruct (mapM (rerank_team _ _ _ _ _) preds _) as [[teams|e] s1]; [|discriminate].
  rewrite M_bind_eq. cbn [write_file]. intros [= <- <-].
  cbn [written files]. apply lookup_insert_eq.
Qed.

Lemma eval_fairness_persists preds labels reranked_idx ratios output algorithm k_max s v s' :
  eval_fairness preds labels reranked_idx ratios output algorithm k_max s = (Ok v, s') →
  files s' !! faireval_csv output algorithm k_max = Some (dump csv_faireval v).
Proof.
  unfold eval_fairness. rewrite M_bind_eq. cbn [invoked]. rewrite M_bind_eq. unfold lift.
  destruct (mapM _ (enumerate preds)) as [teams|e]; [|discriminate].
  rewrite M_bind_eq. cbn [write_file]. intros [= <- <-].
  cbn [written files]. apply lookup_insert_eq.
Qed.

Lemma eval_utility_persists member reranked_preds preds splits metrics output algorithm
    op k_max s s' :
  eval_utility member reranked_preds preds splits metrics output algorithm op k_max s
    = (Ok (), s') →
  ("before" ∈ op → is_Some (files s' !! utilityeval_before_csv output)) ∧
  ("after" ∈ op → is_Some (files s' !! utilityeval_after_csv output algorithm k_max)).
Proof.
  unfold eval_utility. rewrite M_bind_eq. cbn [invoked]. rewrite M_bind_eq. unfold lift at 1.
  destruct (py_key splits "test") as [test|e]; [|discriminate].
  rewrite M_bind_eq. unfold lift at 1.
  destruct (select_rows member test) as [y_test|e]; [|discriminate].
  rewrite M_bind_eq. unfold py_in.
  set (s0 := entered "eval_utility" s).
  assert (∃ s1, (if bool_decide ("before" ∈ op)
                 then df_mean_ ← lift (calculate_metrics y_test preds true metrics);
                      write_file (utilityeval_before_csv output) (dump csv_utility df_mean_)
                 else mret ()) s0 = ((if bool_decide ("before" ∈ op)
                                      then calculate_metrics y_test preds true metrics ≫= λ _, Ok ()
                                      else Ok ()), s1) ∧
               (is_ok (calculate_metrics y_test preds true metrics) = true →
                "before" ∈ op → is_Some (files s1 !! utilityeval_before_csv output)))
    as (s1 & -> & Hbefore).
  { case_bool_decide as Hop.
    - rewrite M_bind_eq, result_bind_eq. unfold lift.
      destruct (calculate_metrics y_test preds true metrics) as [df|e].
      + eexists. split; [reflexivity|]. intros _ _. cbn [written files].
        rewrite lookup_insert_eq. by eexists.
      + exists s0. split; [done|]. discriminate.
    - exists s0. split; [done|]. done. }
  case_bool_decide as Hop1.
  - rewrite result_bind_eq.
    destruct (calculate_metrics y_test preds true metrics) as [df|e]; [|discriminate].
    specialize (Hbefore eq_refl Hop1). revert Hbefore. cbn. intros Hbefore.
    case_bool_decide as Hop2.
    + rewrite M_bind_eq. unfold lift.
      destruct (calculate_metrics y_test (toarray reranked_preds) true metrics) as [df'|e];
        [|discriminate].
      cbn [write_file]. intros [= <-]. cbn [written files]. split; intros _.
      * apply lookup_insert_is_Some'. by right.
      * rewrite lookup_insert_eq. by eexists.
    + intros [= <-]. split; [done|]. intros; done.
  - case_bool_decide as Hop2.
    + rewrite M_bind_eq. unfold lift.
      destruct (calculate_metrics y_test (toarray reranked_preds) true metrics) as [df'|e];
        [|discriminate].
      cbn [write_file]. intros [= <-]. cbn [written files]. split; [done|]. intros _.
      rewrite lookup_insert_eq. by eexists.
    + intros [= <-]. split; intros; done.
Qed.

(** A [try] whose body only loads: a caught exception starts the handler
    in the same state, any other leaves [run] from that state. *)
Lemma try_load_failure {A} (body handler : M A) catches s e :
  body s = ((body s).1, s) →
  (body s).1 = Raise e →
  try_except body catches handler s = if catches e then handler s else (Raise e, s).
Proof.
  intros Hstate Hraise. rewrite Hraise in Hstate.
  destruct (catches e) eqn:Hcatch.
  - by eapply try_except_caught.
  - by eapply try_except_uncaught.
Qed.

Lemma load_faireval_result new_output algorithm k_max s :
  load_faireval new_output algorithm k_max s =
  ((load_faireval new_output algorithm k_max s).1, s).
Proof. unfold load_faireval. by rewrite load_then_unit. Qed.

Lemma load_utility_before_result new_output s :
  load_utility_before new_output s = ((load_utility_before new_output s).1, s).
Proof. unfold load_utility_before. by rewrite load_then_unit. Qed.

Lemma load_utility_after_result new_output algorithm k_max s :
  load_utility_after new_output algorithm k_max s =
  ((load_utility_after new_output algorithm k_max s).1, s).
Proof. unfold load_utility_after. by rewrite load_then_unit. Qed.

(** The [try] statements of [run], one by one. In the rerank,
    fairness-evaluation and sparse-reconstruction stages the [except]
    clause names [FileNotFoundError] alone: when loading the checkpoint
    raises it, the stage is the fresh computation, and any other
    exception of the loader is the outcome of the stage. In the two
    utility stages the clause is bare: whatever the loader raises, the
    stage is the fresh evaluation. A fresh computation that returns has
    written its checkpoint. *)
Lemma stage_wrappers_on_load_failure
    (teamsvecs : gmap string matrix) (member : matrix) (splits : gmap string (list Z))
    (preds : list (list float)) (labels : list string) (ratios : ratios_t)
    (reranked_idx : list (list Z)) (probs : list (list float)) (sparse : csr_matrix)
    (utility_metrics : list string) (output new_output algorithm : string)
    (k_max : option Z) (s : state) (e : exn) :
  teamsvecs !! "member" = Some member →
  ((load_rerank new_output algorithm k_max s).1 = Raise e →
   (e = FileNotFoundError →
    rerank_stage preds labels new_output ratios algorithm k_max s
    = rerank preds labels new_output ratios algorithm k_max s) ∧
   (e ≠ FileNotFoundError →
    rerank_stage preds labels new_output ratios algorithm k_max s = (Raise e, s))) ∧
  ((load_faireval new_output algorithm k_max s).1 = Raise e →
   (e = FileNotFoundError →
    faireval_stage preds labels reranked_idx ratios new_output algorithm k_max s
    = (eval_fairness preds labels reranked_idx ratios new_output algorithm k_max;;
       mret ()) s) ∧
   (e ≠ FileNotFoundError →
    faireval_stage preds labels reranked_idx ratios new_output algorithm k_max s
    = (Raise e, s))) ∧
  ((load_reranked_preds output algorithm k_max s).1 = Raise e →
   (e = FileNotFoundError →
    reranked_preds_stage teamsvecs splits reranked_idx probs output algorithm k_max s
    = reranked_preds member splits reranked_idx probs output algorithm k_max s) ∧
   (e ≠ FileNotFoundError →
    reranked_preds_stage teamsvecs splits reranked_idx probs output algorithm k_max s
    = (Raise e, s))) ∧
  ((load_utility_before new_output s).1 = Raise e →
   utility_before_stage teamsvecs sparse preds splits utility_metrics
                        new_output algorithm k_max s
   = eval_utility member sparse preds splits utility_metrics new_output algorithm
                  ["after"; "before"] k_max s) ∧
  ((load_utility_after new_output algorithm k_max s).1 = Raise e →
   utility_after_stage teamsvecs sparse preds splits utility_metrics
                       new_output algorithm k_max s
   = eval_utility member sparse preds splits utility_metrics new_output algorithm
                  ["after"] k_max s) ∧
  (∀ v s', rerank preds labels new_output ratios algorithm k_max s = (Ok v, s') →
     files s' !! rerank_csv new_output algorithm k_max = Some (dump csv_rerank v)) ∧
  (∀ v s', eval_fairness preds labels reranked_idx ratios new_output algorithm k_max s
           = (Ok v, s') →
     files s' !! faireval_csv new_output algorithm k_max = Some (dump csv_faireval v)) ∧
  (∀ v s', reranked_preds member splits reranked_idx probs output algorithm k_max s
           = (Ok v, s') →
     files s' !! reranked_preds_pkl output algorithm k_max
       = Some (dump pickle_reranked_preds v)) ∧
  (∀ s', eval_utility member sparse preds splits utility_metrics new_output algorithm
                      ["after"; "before"] k_max s = (Ok (), s') →
     is_Some (files s' !! utilityeval_before_csv new_output) ∧
     is_Some (files s' !! utilityeval_after_csv new_output algorithm k_max)) ∧
  (∀ s', eval_utility member sparse preds splits utility_metrics new_output algorithm
                      ["after"] k_max s = (Ok (), s') →
     is_Some (files s' !! utilityeval_after_csv new_output algorithm k_max)).
Proof.
  intros Hmember.
  assert (Hfnf : ∀ x : exn, x = FileNotFoundError → except_FileNotFoundError x = true)
    by (intros x ->; done).
  assert (Hother : ∀ x : exn, x ≠ FileNotFoundError → except_FileNotFoundError x = false)
    by (intros x Hx; by apply bool_decide_eq_false_2).
  split_and!.
  - intros Hload. unfold rerank_stage.
    rewrite (try_load_failure _ _ _ s e (load_file_result _ _ _) Hload).
    split; intros He; [by rewrite Hfnf|by rewrite Hother].
  - intros Hload. unfold faireval_stage.
    rewrite (try_load_failure _ _ _ s e (load_faireval_result _ _ _ _) Hload).
    split; intros He; [by rewrite Hfnf|by rewrite Hother].
  - intros Hload. unfold reranked_preds_stage.
    rewrite (try_load_failure _ _ _ s e (load_file_result _ _ _) Hload).
    split; intros He; [rewrite Hfnf by done|by rewrite Hother].
    by apply (handler_member _ _ (λ m, reranked_preds m _ _ _ _ _ _)).
  - intros Hload. unfold utility_before_stage.
    rewrite (try_load_failure _ _ _ s e (load_utility_before_result _ _) Hload).
    by apply (handler_member _ _ (λ m, eval_utility m _ _ _ _ _ _ _ _)).
  - intros Hload. unfold utility_after_stage.
    rewrite (try_load_failure _ _ _ s e (load_utility_after_result _ _ _ _) Hload).
    by apply (handler_member _ _ (λ m, eval_utility m _ _ _ _ _ _ _ _)).
  - apply rerank_persists.
  - apply eval_fairness_persists.
  - apply reranked_preds_persists.
  - intros s' Hrun. apply eval_utility_persists in Hrun as [Hbefore Hafter].
    split; [apply Hbefore|apply Hafter]; set_solver.
  - intros s' Hrun. apply eval_utility_persists in Hrun as [_ Hafter].
    apply Hafter. set_solver.
Qed.

(** A stage whose checkpoint is present is its loaded value, in the same
    state. *)
Lemma load_unit_present {A} (codec : Codec A) path s :
  checkpoint_present codec path s = true →
  (load_file codec path;; mret ()) s = (Ok (), s).
Proof.
  intros [v Hv]%load_file_present. by rewrite load_then_unit, Hv.
Qed.

(** C3. When the seven checkpoints of a prediction file are present (the
    statistics, the labels, the reranking, the fairness evaluation, the
    sparse matrix and the two utility evaluations), [run] ends in the
    state it started in: no stage function is entered, no file is
    written, the runtime log included; and it returns when its three
    inputs load. *)
Theorem run_with_all_checkpoints
    (fpreds output fteamsvecs fsplits : string) (ratios : ratios_t)
    (fairness_metric utility_metrics : list string) (algorithm : string)
    (k_max : option Z) (s : state) :
  checkpoint_present pickle_stats (stats_pkl output) s = true →
  checkpoint_present csv_popularity (popularity_csv output) s = true →
  checkpoint_present csv_rerank
    (rerank_csv (new_output_of output fpreds) algorithm k_max) s = true →
  checkpoint_present csv_faireval
    (faireval_csv (new_output_of output fpreds) algorithm k_max) s = true →
  checkpoint_present pickle_reranked_preds
    (reranked_preds_pkl output algorithm k_max) s = true →
  checkpoint_present csv_utility
    (utilityeval_before_csv (new_output_of output fpreds)) s = true →
  checkpoint_present csv_utility
    (utilityeval_after_csv (new_output_of output fpreds) algorithm k_max) s = true →
  (run fpreds output fteamsvecs fsplits ratios fairness_metric utility_metrics
       algorithm k_max s).2 = s ∧
  (checkpoint_present pickle_teamsvecs fteamsvecs s = true →
   checkpoint_present json_splits fsplits s = true →
   checkpoint_present torch_preds fpreds s = true →
   (run fpreds output fteamsvecs fsplits ratios fairness_metric utility_metrics
        algorithm k_max s).1 = Ok ()).
Proof.
  intros [st Hstats]%load_file_present [labels Hlabels]%load_file_present
         [[reranked_idx probs] Hrerank]%load_file_present
         Hfaireval%load_unit_present
         [sparse Hsparse]%load_file_present
         Hbefore%load_unit_present Hafter%load_unit_present.
  assert (Hrest : ∀ teamsvecs splits preds,
    ('(st, labels) ← labels_stage teamsvecs output;
     let ratios :=
       if py_not_ratios ratios
       then RatiosDict (popularity_ratio st).1 (popularity_ratio st).2
       else ratios in
     let new_output := new_output_of output fpreds in
     '(reranked_idx, probs) ← rerank_stage preds labels new_output ratios algorithm k_max;
     faireval_stage preds labels reranked_idx ratios new_output algorithm k_max;;
     reranked_preds ← reranked_preds_stage teamsvecs splits reranked_idx probs
                                            output algorithm k_max;
     utility_before_stage teamsvecs reranked_preds preds splits utility_metrics
                          new_output algorithm k_max;;
     utility_after_stage teamsvecs reranked_preds preds splits utility_metrics
                         new_output algorithm k_max) s = (Ok (), s)).
  { intros teamsvecs splits preds.
    rewrite M_bind_eq. unfold labels_stage.
    erewrite try_except_Ok; last first.
    { unfold load_labels. rewrite M_bind_eq, Hstats, M_bind_eq, Hlabels. reflexivity. }
    cbv beta iota zeta. rewrite M_bind_eq. unfold rerank_stage.
    erewrite try_except_Ok; [|exact Hrerank].
    cbv beta iota. rewrite M_bind_eq. unfold faireval_stage.
    erewrite try_except_Ok; [|exact Hfaireval].
    cbv beta iota. rewrite M_bind_eq. unfold reranked_preds_stage.
    erewrite try_except_Ok; [|exact Hsparse].
    cbv beta iota. rewrite M_bind_eq. unfold utility_before_stage.
    erewrite try_except_Ok; [|exact Hbefore].
    cbv beta iota. unfold utility_after_stage.
    erewrite try_except_Ok; [|exact Hafter]. reflexivity. }
  unfold run. split.
  - rewrite M_bind_eq, (load_file_result pickle_teamsvecs).
    destruct (load_file pickle_teamsvecs fteamsvecs s).1 as [teamsvecs|e]; [|done].
    rewrite M_bind_eq, (load_file_result json_splits).
    destruct (load_file json_splits fsplits s).1 as [splits|e]; [|done].
    rewrite M_bind_eq, (load_file_result torch_preds).
    destruct (load_file torch_preds fpreds s).1 as [preds|e]; [|done].
    by rewrite Hrest.
  - intros [teamsvecs Hteamsvecs]%load_file_present [splits Hsplits]%load_file_present
           [preds Hpreds]%load_file_present.
    rewrite M_bind_eq, Hteamsvecs, M_bind_eq, Hsplits, M_bind_eq, Hpreds.
    by rewrite Hrest.
Qed.

(** ** The driver *)




End Properties.

(** ** Checkpoint paths of two prediction files *)

Lemma list_ascii_of_string_app (s1 s2 : string) :
  String.list_ascii_of_string (s1 +:+ s2) =
  String.list_ascii_of_string s1 ++ String.list_ascii_of_string s2.
Proof. induction s1 as [|c s1 IH]; simpl; [done|by rewrite IH]. Qed.

Lemma string_app_inv_tail (s1 s2 t : string) : s1 +:+ t = s2 +:+ t → s1 = s2.
Proof.
  intros Heq. apply (f_equal String.list_ascii_of_string) in Heq.
  rewrite !list_ascii_of_string_app in Heq. apply app_inv_tail in Heq.
  rewrite <- (String.string_of_list_ascii_of_string s1),
          <- (String.string_of_list_ascii_of_string s2).
  by rewrite Heq.
Qed.

Lemma new_output_of_inj output fpreds1 fpreds2 suffix :
  new_output_of output fpreds1 +:+ suffix = new_output_of output fpreds2 +:+ suffix →
  os_path_split_tail fpreds1 = os_path_split_tail fpreds2.
Proof.
  intros Heq%string_app_inv_tail. unfold new_output_of in Heq.
  by apply String.app_inj, String.app_inj in Heq.
Qed.

(** The checkpoints whose path is made from [new_output] are apart for
    two prediction files of different names, under one output directory,
    algorithm and [k_max]. *)
Lemma per_file_checkpoints_apart output fpreds1 fpreds2 algorithm k_max :
  os_path_split_tail fpreds1 ≠ os_path_split_tail fpreds2 →
  rerank_csv (new_output_of output fpreds1) algorithm k_max
    ≠ rerank_csv (new_output_of output fpreds2) algorithm k_max ∧
  faireval_csv (new_output_of output fpreds1) algorithm k_max
    ≠ faireval_csv (new_output_of output fpreds2) algorithm k_max ∧
  utilityeval_before_csv (new_output_of output fpreds1)
    ≠ utilityeval_before_csv (new_output_of output fpreds2) ∧
  utilityeval_after_csv (new_output_of output fpreds1) algorithm k_max
    ≠ utilityeval_after_csv (new_output_of output fpreds2) algorithm k_max.
Proof.
  intros Hne. split_and!; intros Heq; apply Hne; by eapply new_output_of_inj.
Qed.

(** * Concrete runs *)

Module Runs.
Import Example.

(** C1: a team whose second candidate has the higher score, and a reranker
    that keeps the sorted order (positions 0, 1). [rerank] returns the
    positions [0; 1] as the team's indices, next to the scores 0.75 and
    0.25; the candidates holding these scores are 1 and 0, which is what
    mapping the positions through the sorted table gives. *)
Theorem rerank_returns_sorted_positions :
  (rerank (collaborators := collaborators [0; 1]) [[0.25; 0.75]%float] ["p"; "np"]
          "out/f0" RatiosNone "det_cons" None (no_calls ∅)).1
    = Ok ([[0; 1]], [[0.75; 0.25]%float]) ∧
  (table ← member_popularity_probs ["p"; "np"] [0.25; 0.75]%float;
   original_candidate_ids table [0; 1]) = Ok [1; 0].
Proof. split; vm_compute; reflexivity. Qed.

(** C2, counterexample: the rerank checkpoint exists and is empty, the
    loader raises [EmptyDataError]; [run] raises it and [rerank] is never
    entered. *)
Lemma truncated_rerank_checkpoint_leaves_run :
  (run (collaborators := collaborators [1; 0])
       "out/f0.test.pred" "out/rerank/" "teamsvecs.pkl" "splits.json"
       RatiosNone ["ndkl"] ["map_cut_2,5,10"] "det_cons" None truncated_rerank).1
    = Raise "EmptyDataError" ∧
  calls (run (collaborators := collaborators [1; 0])
             "out/f0.test.pred" "out/rerank/" "teamsvecs.pkl" "splits.json"
             RatiosNone ["ndkl"] ["map_cut_2,5,10"] "det_cons" None truncated_rerank).2
    = ["get_stats"].
Proof. split; vm_compute; reflexivity. Qed.

(** C3, witness: a second run on the files the first run left. *)
Lemma run_with_all_checkpoints_witness :
  (run (collaborators := collaborators [1; 0])
       "out/f0.test.pred" "out/rerank/" "teamsvecs.pkl" "splits.json"
       RatiosNone ["ndkl"] ["map_cut_2,5,10"] "det_cons" None after_first_run).2
    = after_first_run ∧
  (run (collaborators := collaborators [1; 0])
       "out/f0.test.pred" "out/rerank/" "teamsvecs.pkl" "splits.json"
       RatiosNone ["ndkl"] ["map_cut_2,5,10"] "det_cons" None after_first_run).1
    = Ok ().
Proof.
  pose proof (run_with_all_checkpoints (collaborators := collaborators [1; 0])
                "out/f0.test.pred" "out/rerank/" "teamsvecs.pkl" "splits.json"
                RatiosNone ["ndkl"] ["map_cut_2,5,10"] "det_cons" None after_first_run) as H.
  destruct H as [Hstate Hvalue]; try (vm_compute; reflexivity).
  split; [exact Hstate|]. apply Hvalue; vm_compute; reflexivity.
Defined.

(** C4, witness: two test teams, the first reranked to candidates 1 and 0,
    the second to candidate 0 alone. *)
Lemma reranked_preds_round_trip_witness :
  ∃ m s',
    reranked_preds (collaborators := collaborators [1; 0]) members_8_2 splits_value
                   [[1; 0]; [0]] [[0.75; 0.25]; [0.5]]%float
                   "out/rerank/" "det_cons" None (no_calls inputs) = (Ok m, s') ∧
    csr_shape m = (2%nat, 2%nat) ∧
    csr_get m 0 1 = 0.75%float ∧ csr_get m 0 0 = 0.25%float ∧
    csr_get m 1 0 = 0.5%float ∧ csr_get m 1 1 = 0%float.
Proof.
  destruct (reranked_preds_round_trip (collaborators := collaborators [1; 0])
              members_8_2 splits_value [[1; 0]; [0]] [[0.75; 0.25]; [0.5]]%float
              "out/rerank/" "det_cons" None (no_calls inputs))
    as [Hread Hreturns].
  { apply (bool_decide_unpack _). vm_compute. exact I. }
  destruct (Hreturns [8; 9]) as (m & s' & Hrun & Hshape).
  { vm_compute; reflexivity. }
  { vm_compute; reflexivity. }
  { simpl; lia. }
  { repeat constructor. }
  { repeat constructor; simpl; lia. }
  destruct (Hread m s' Hrun) as (Hhit & Hmiss & _).
  exists m, s'. split_and!; [exact Hrun|exact Hshape|..].
  - apply (Hhit 0%nat 0%nat [1; 0] [0.75; 0.25]%float 1 0.75%float); reflexivity.
  - apply (Hhit 0%nat 1%nat [1; 0] [0.75; 0.25]%float 0 0.25%float); reflexivity.
  - apply (Hhit 1%nat 0%nat [0] [0.5]%float 0 0.5%float); reflexivity.
  - apply (Hmiss 1%nat 1). intros ids [= <-].
    apply (bool_decide_unpack _). vm_compute. exact I.
Defined.

(** C5: two prediction files of one output directory, run one after the
    other from the inputs alone. The first run enters every stage; the
    second finds the sparse matrix of the first under the path both
    share, and never enters [reranked_preds]. *)
Theorem second_file_loads_first_sparse_matrix :
  reranked_preds_pkl "out/rerank/" "det_cons" None
    = "out/rerank/reranked.det_cons.None.preds.pkl" ∧
  calls (run (collaborators := collaborators [1; 0])
             "out/f0.test.pred" "out/rerank/" "teamsvecs.pkl" "splits.json"
             RatiosNone ["ndkl"] ["map_cut_2,5,10"] "det_cons" None (no_calls inputs)).2
    = ["get_stats"; "rerank"; "eval_fairness"; "reranked_preds"; "eval_utility"] ∧
  (run (collaborators := collaborators [1; 0])
       "out/f1.test.pred" "out/rerank/" "teamsvecs.pkl" "splits.json"
       RatiosNone ["ndkl"] ["map_cut_2,5,10"] "det_cons" None after_first_run).1
    = Ok () ∧
  calls (run (collaborators := collaborators [1; 0])
             "out/f1.test.pred" "out/rerank/" "teamsvecs.pkl" "splits.json"
             RatiosNone ["ndkl"] ["map_cut_2,5,10"] "det_cons" None after_first_run).2
    = ["rerank"; "eval_fairness"; "eval_utility"].
Proof. split_and!; vm_compute; reflexivity. Qed.


(** C7, counterexample: a membership matrix without columns; the exception
    is [ZeroDivisionError]. *)
Lemma get_stats_no_column_ZeroDivisionError :
  (get_stats (collaborators := collaborators []) members_empty 1%float "out/"
             (no_calls ∅)).1 = Raise ZeroDivisionError ∧
  (get_stats (collaborators := collaborators []) members_empty 1%float "out/"
             (no_calls ∅)).1 ≠ Raise EmptyInputError.
Proof. split; [vm_compute; reflexivity|vm_compute; discriminate]. Qed.

(** C7, witness. *)
Lemma get_stats_raises_iff_no_column_witness :
  (get_stats (collaborators := collaborators []) members_empty 1%float "out/"
             (no_calls ∅)).1 = Raise ZeroDivisionError ∧
  is_ok (get_stats (collaborators := collaborators []) members_8_2 1%float "out/"
                   (no_calls ∅)).1 = true.
Proof.
  split.
  - apply (proj1 (get_stats_raises_iff_no_column (collaborators := collaborators [])
                    members_empty 1%float "out/" (no_calls ∅))). reflexivity.
  - apply (proj2 (get_stats_raises_iff_no_column (collaborators := collaborators [])
                    members_8_2 1%float "out/" (no_calls ∅))). simpl; lia.
Defined.

(** C8, counterexample: on a team of two, position 5 raises [IndexError]
    and not [IndexMappingError]; position -1 is outside [0, 2) and raises
    nothing, it reads the last row of the table. *)
Lemma rerank_position_outside :
  (rerank (collaborators := collaborators [5]) [[0.25; 0.75]%float] ["p"; "np"]
          "out/f0" RatiosNone "det_cons" None (no_calls ∅)).1 = Raise IndexError ∧
  (rerank (collaborators := collaborators [5]) [[0.25; 0.75]%float] ["p"; "np"]
          "out/f0" RatiosNone "det_cons" None (no_calls ∅)).1 ≠ Raise IndexMappingError ∧
  (rerank (collaborators := collaborators [-1]) [[0.25; 0.75]%float] ["p"; "np"]
          "out/f0" RatiosNone "det_cons" None (no_calls ∅)).1
    = Ok ([[-1]], [[0.25]%float]).
Proof. split_and!; vm_compute; (reflexivity || discriminate). Qed.

(** C8, witness: position 5 on a team of two. *)
Lemma rerank_raises_IndexError_witness :
  (rerank (collaborators := collaborators [5]) [[0.25; 0.75]%float] ["p"; "np"]
          "out/f0" RatiosNone "det_cons" None (no_calls ∅)).1 = Raise IndexError.
Proof.
  refine (proj1 (rerank_raises_IndexError (collaborators := collaborators [5])
                   [[0.25; 0.75]%float] ["p"; "np"] "out/f0" RatiosNone "det_cons" None
                   (no_calls ∅) _) _).
  - repeat constructor.
  - apply Exists_cons_hd. exists [5], 5. split_and!.
    + vm_compute; reflexivity.
    + set_solver.
    + right. simpl; lia.
Defined.

(** C9, witness: the general statement at the ten teams of the example. *)
Lemma get_stats_labels_and_ratio_witness :
  ∃ st labels s',
    get_stats (collaborators := collaborators []) members_8_2 1%float "out/" (no_calls ∅)
      = (Ok (st, labels), s') ∧
    length labels = shape1 members_8_2 ∧
    (∀ c n, sum_axis0 members_8_2 !! c = Some n →
       labels !! c =
       Some (if (1 * np_mean (sum_axis0 members_8_2) <=? float_of_Z n)%float
             then "p" else "np")) ∧
    popularity_ratio st =
      let n_popular := float_of_Z (Z.of_nat (py_count "p" labels)) in
      let n_candidates := float_of_Z (Z.of_nat (shape1 members_8_2)) in
      (n_popular / n_candidates, 1 - n_popular / n_candidates)%float.
Proof.
  apply (proj1 (get_stats_labels_and_ratio (collaborators := collaborators []))
           members_8_2 1%float "out/" (no_calls ∅)).
  simpl; lia.
Defined.

End Runs.

(** * Further properties *)

Section Footprints.
Context {collaborators : Collaborators}.

Lemma writes_only_ret {A} paths (a : A) : writes_only paths (mret a).
Proof. by intros s p _. Qed.

Lemma writes_only_lift {A} paths (r : result A) : writes_only paths (lift r).
Proof. by intros s p _. Qed.

Lemma writes_only_invoked paths stage : writes_only paths (invoked stage).
Proof. by intros s p _. Qed.

Lemma writes_only_load_file {A} paths (codec : Codec A) path :
  writes_only paths (load_file codec path).
Proof. intros s p _. by rewrite load_file_state. Qed.

Lemma writes_only_write_file paths path content :
  path ∈ paths → writes_only paths (write_file path content).
Proof.
  intros Hin s p Hp. cbn [write_file written files snd].
  apply lookup_insert_ne. by intros ->.
Qed.

Lemma writes_only_append_file paths path content :
  path ∈ paths → writes_only paths (append_file path content).
Proof.
  intros Hin s p Hp. cbn [append_file written files snd].
  apply lookup_insert_ne. by intros ->.
Qed.

Lemma writes_only_bind {A B} paths (m : M A) (f : A → M B) :
  writes_only paths m → (∀ a, writes_only paths (f a)) → writes_only paths (m ≫= f).
Proof.
  intros Hm Hf s p Hp. rewrite M_bind_eq. specialize (Hm s p Hp).
  destruct (m s) as [[a|e] s1]; simpl in Hm; [|done].
  by rewrite (Hf a s1 p Hp).
Qed.

Lemma writes_only_try_except {A} paths (body handler : M A) catches :
  writes_only paths body → writes_only paths handler →
  writes_only paths (try_except body catches handler).
Proof.
  intros Hbody Hhandler s p Hp. unfold try_except. specialize (Hbody s p Hp).
  destruct (body s) as [[a|e] s1]; simpl in Hbody; [done|].
  destruct (catches e); [|done]. by rewrite (Hhandler s1 p Hp).
Qed.

Lemma writes_only_mapM {A B} paths (f : A → M B) l :
  (∀ x, writes_only paths (f x)) → writes_only paths (mapM f l).
Proof.
  intros Hf. induction l as [|x l IH]; [apply writes_only_ret|].
  apply writes_only_bind; [apply Hf|]. intros y.
  apply writes_only_bind; [apply IH|]. intros k. apply writes_only_ret.
Qed.

Lemma writes_only_weaken {A} paths paths' (m : M A) :
  paths ⊆ paths' → writes_only paths m → writes_only paths' m.
Proof. intros Hsub Hm s p Hp. apply Hm. intros Hin. apply Hp, Hsub, Hin. Qed.

Create HintDb footprint.
#[local] Hint Resolve writes_only_ret writes_only_lift writes_only_invoked
  writes_only_load_file : footprint.

Ltac in_paths := repeat first [ apply list_elem_of_here | apply list_elem_of_further ].

Ltac footprint_step :=
  lazymatch goal with
  | |- writes_only _ (_ ≫= _) => apply writes_only_bind; [|intros ?]
  | |- writes_only _ (if ?b then _ else _) => destruct b
  | |- writes_only _ (let '(_, _) := ?p in _) => destruct p
  | |- writes_only _ (mapM _ _) => apply writes_only_mapM; intros ?
  | |- writes_only _ (try_except _ _ _) => apply writes_only_try_except
  | |- writes_only _ (write_file _ _) => apply writes_only_write_file; in_paths
  | |- writes_only _ (append_file _ _) => apply writes_only_append_file; in_paths
  | |- _ => solve [auto with footprint]
  end.
Ltac footprint := repeat footprint_step.

Lemma get_stats_footprint member coefficient output :
  writes_only [stats_pkl output; popularity_csv output]
              (get_stats member coefficient output).
Proof. unfold get_stats. footprint. Qed.

Lemma rerank_footprint preds labels output ratios algorithm k_max :
  writes_only [fairness_runtime_txt; rerank_csv output algorithm k_max]
              (rerank preds labels output ratios algorithm k_max).
Proof. unfold rerank, rerank_team. footprint. Qed.

Lemma eval_fairness_footprint preds labels reranked_idx ratios output algorithm k_max :
  writes_only [faireval_csv output algorithm k_max]
              (eval_fairness preds labels reranked_idx ratios output algorithm k_max).
Proof. unfold eval_fairness. footprint. Qed.

Lemma reranked_preds_footprint member splits reranked_idx probs output algorithm k_max :
  writes_only [reranked_preds_pkl output algorithm k_max]
              (reranked_preds member splits reranked_idx probs output algorithm k_max).
Proof. unfold reranked_preds. footprint. Qed.

Lemma eval_utility_footprint member sparse preds splits metrics output algorithm op k_max :
  writes_only [utilityeval_before_csv output; utilityeval_after_csv output algorithm k_max]
              (eval_utility member sparse preds splits metrics output algorithm op k_max).
Proof. unfold eval_utility. footprint. Qed.

(** ** The paths of one run are apart *)

Lemma string_app_assoc (s1 s2 s3 : string) : (s1 +:+ s2) +:+ s3 = s1 +:+ (s2 +:+ s3).
Proof.
  induction s1 as [|c s1 IH]; [done|].
  change (String c ((s1 +:+ s2) +:+ s3) = String c (s1 +:+ (s2 +:+ s3))). by rewrite IH.
Qed.

Lemma string_length_app (s1 s2 : string) :
  String.length (s1 +:+ s2) = (String.length s1 + String.length s2)%nat.
Proof.
  induction s1 as [|c s1 IH]; [done|].
  change (S (String.length (s1 +:+ s2)) = S (String.length s1 + String.length s2)).
  by rewrite IH.
Qed.

Lemma string_length_list (s1 : string) :
  length (String.list_ascii_of_string s1) = String.length s1.
Proof. induction s1 as [|c s1 IH]; simpl; [done|by rewrite IH]. Qed.

(** Two paths with different endings of one length are different. *)
Lemma string_app_suffix_apart (s1 s2 t1 t2 : string) :
  String.length t1 = String.length t2 → t1 ≠ t2 → s1 +:+ t1 ≠ s2 +:+ t2.
Proof.
  intros Hlen Hne Heq. apply Hne.
  apply (f_equal String.list_ascii_of_string) in Heq.
  rewrite !list_ascii_of_string_app in Heq.
  apply app_inj_2 in Heq as [_ Heq]; [|by rewrite !string_length_list].
  rewrite <- (String.string_of_list_ascii_of_string t1),
          <- (String.string_of_list_ascii_of_string t2).
  by rewrite Heq.
Qed.

Lemma runtime_log_apart (x ending : string) :
  String.length ending = 4%nat → ending ≠ ".txt" → x +:+ ending ≠ fairness_runtime_txt.
Proof.
  intros Hlen Hne.
  change fairness_runtime_txt with ("../output/fairness.runtime" +:+ ".txt").
  by apply string_app_suffix_apart.
Qed.

(** The tactics that tell two checkpoint paths apart: by the character
    after a common prefix, by length, or by the extension. *)
Ltac unfold_paths :=
  unfold stats_pkl, popularity_csv, rerank_csv, faireval_csv, reranked_preds_pkl,
    utilityeval_before_csv, utilityeval_after_csv, new_output_of in *.

Ltac apart_by_prefix :=
  let H := fresh "H" in
  intros H; unfold_paths; rewrite ?string_app_assoc in H;
  repeat (apply String.app_inj in H);
  first [ by (cbv beta iota delta [String.append] in H; discriminate)
        | by (apply (f_equal String.length) in H;
              rewrite ?string_length_app in H; simpl in H; lia) ].

Ltac split_extension H :=
  try change "stats.pkl" with ("stats" +:+ ".pkl") in H;
  try change "popularity.csv" with ("popularity" +:+ ".csv") in H;
  try change ".preds.pkl" with (".preds" +:+ ".pkl") in H;
  try change ".utilityeval.before.csv" with (".utilityeval.before" +:+ ".csv") in H;
  try change ".after.csv" with (".after" +:+ ".csv") in H.

Ltac apart_by_extension :=
  let H := fresh "H" in
  intros H; unfold_paths; split_extension H; rewrite <- ?string_app_assoc in H;
  first [ by (eapply runtime_log_apart; [| |exact H]; [reflexivity|discriminate])
        | by (symmetry in H; eapply runtime_log_apart; [| |exact H];
              [reflexivity|discriminate]) ].

Ltac paths_apart := first [ apart_by_prefix | apart_by_extension ].

(** X10. The eight paths of a run (seven checkpoints and the runtime log)
    are pairwise different, whatever the output directory, the prediction
    file, the algorithm and [k_max]: no stage of a run overwrites the
    checkpoint of another. *)
Theorem run_paths_NoDup (fpreds output algorithm : string) (k_max : option Z) :
  NoDup (run_paths fpreds output algorithm k_max).
Proof.
  unfold run_paths.
  repeat (apply NoDup_cons; split;
          [rewrite ?not_elem_of_cons; split_and?; try apply not_elem_of_nil; paths_apart|]).
  apply NoDup_nil_2.
Qed.

(** ** Sorting *)

Lemma insert_reverse_Permutation {A} (lt : A → A → bool) x l :
  insert_reverse lt x l ≡ₚ x :: l.
Proof.
  induction l as [|y l IH]; simpl; [done|].
  destruct (lt x y); [|done]. by rewrite IH, Permutation_swap.
Qed.

Lemma sorted_reverse_Permutation {A} (lt : A → A → bool) l :
  sorted_reverse lt l ≡ₚ l.
Proof.
  induction l as [|x l IH]; [done|].
  unfold sorted_reverse in *. cbn [foldr]. by rewrite insert_reverse_Permutation, IH.
Qed.

Lemma insert_reverse_Z_Sorted x l :
  Sorted (λ a b, b ≤ a) l → Sorted (λ a b, b ≤ a) (insert_reverse Z.ltb x l).
Proof.
  induction 1 as [|y l Hl IH Hhd]; simpl; [by repeat constructor|].
  destruct (Z.ltb_spec x y).
  - constructor; [done|].
    destruct Hhd as [|z l Hz]; simpl.
    + constructor. lia.
    + destruct (Z.ltb_spec x z); constructor; lia.
  - repeat constructor; [done|done|lia].
Qed.

Lemma sorted_reverse_Z_Sorted l : Sorted (λ a b, b ≤ a) (sorted_reverse Z.ltb l).
Proof.
  induction l as [|x l IH]; [constructor|].
  unfold sorted_reverse in *. cbn [foldr]. by apply insert_reverse_Z_Sorted.
Qed.

Lemma enumerate_from_fst {A} (i : nat) (l : list A) :
  (enumerate_from i l).*1 = seq i (length l).
Proof. revert i. induction l as [|x l IH]; intros i; simpl; [done|by rewrite IH]. Qed.

Lemma enumerate_from_snd {A} (i : nat) (l : list A) : (enumerate_from i l).*2 = l.
Proof. revert i. induction l as [|x l IH]; intros i; simpl; [done|by rewrite IH]. Qed.

Lemma enumerate_from_lookup {A} (i : nat) (l : list A) (k : nat) x :
  l !! k = Some x → enumerate_from i l !! k = Some ((i + k)%nat, x).
Proof.
  revert i k. induction l as [|y l IH]; intros i [|k] Hk; simplify_eq/=.
  - by rewrite Nat.add_0_r.
  - rewrite (IH (S i) k Hk). do 2 f_equal. lia.
Qed.

(** X2. When [get_stats] returns, the histogram it stores under
    ['nteams_candidate-idx'] holds the participation counts of all the
    candidates, each once, from the largest to the smallest, under the
    keys 0, 1, 2, ... *)
Theorem get_stats_histogram a coefficient output s st labels s' :
  get_stats a coefficient output s = (Ok (st, labels), s') →
  (nteams_candidate_idx st).*2 ≡ₚ sum_axis0 a ∧
  Sorted (λ x y, y ≤ x) (nteams_candidate_idx st).*2 ∧
  (nteams_candidate_idx st).*1 = seq 0 (shape1 a) ∧
  nmembers st = shape1 a.
Proof.
  rewrite get_stats_eq. cbv zeta.
  destruct (py_truediv _ _) as [popular_portion|e]; [|discriminate].
  intros [= <- _ _]. cbn [nteams_candidate_idx nmembers]. unfold enumerate.
  rewrite enumerate_from_snd, enumerate_from_fst, sorted_reverse_length, sum_axis0_length.
  split_and!; [apply sorted_reverse_Permutation|apply sorted_reverse_Z_Sorted|done|done].
Qed.

(** ** The sorted table of a team *)

Lemma enumerate_from_elem_of {A} (i : nat) (l : list A) x :
  x ∈ enumerate_from i l → ∃ k, l !! k = Some x.2 ∧ x.1 = (i + k)%nat.
Proof.
  revert i. induction l as [|y l IH]; intros i Hx; simpl in Hx.
  - by apply elem_of_nil in Hx.
  - apply elem_of_cons in Hx as [->|Hx].
    + exists 0%nat. simpl. split; [done|lia].
    + destruct (IH (S i) Hx) as (k & Hk & Hi). exists (S k). split; [done|lia].
Qed.

Lemma py_getitem_elem_of {A} (l : list A) (i : Z) x : py_getitem l i = Ok x → x ∈ l.
Proof.
  unfold py_getitem. cbv zeta. destruct (_ && _); [|discriminate].
  destruct (l !! _) as [y|] eqn:Hy; [|discriminate].
  intros [= <-]. by eapply list_elem_of_lookup_2.
Qed.

(** The row a candidate gets in the table, and when it gets one. *)
Lemma table_row_Ok (labels : list string) (m : nat) (prob : float) y :
  (label ← py_getitem labels (Z.of_nat m); mret (m, label, prob)) = Ok y ↔
  ∃ label, labels !! m = Some label ∧ y = (m, label, prob).
Proof.
  rewrite result_bind_eq. split.
  - destruct (py_getitem labels (Z.of_nat m)) as [label|e] eqn:Hl; [|discriminate].
    intros [= <-]. exists label. split; [by apply py_getitem_nat_inv|done].
  - intros (label & Hl & ->). by rewrite (py_getitem_nat _ _ _ Hl).
Qed.

(** Every row of the sorted table is a candidate of the team with its own
    label and its own score, and every candidate has exactly one row. *)
Lemma member_popularity_probs_rows labels team table :
  member_popularity_probs labels team = Ok table →
  Forall (λ x, labels !! x.1.1 = Some x.1.2 ∧ team !! x.1.1 = Some x.2) table ∧
  table.*1.*1 ≡ₚ seq 0 (length team).
Proof.
  unfold member_popularity_probs. rewrite result_bind_eq.
  destruct (mapM _ (enumerate team)) as [rows|e] eqn:Hrows; [|discriminate].
  intros [= <-]. apply mapM_result_Ok in Hrows.
  assert (Hrel : Forall2 (λ x y, ∃ label, labels !! x.1 = Some label ∧ y = (x.1, label, x.2))
                         (enumerate team) rows).
  { eapply Forall2_impl; [exact Hrows|]. intros [m prob] y Hy. by apply table_row_Ok. }
  clear Hrows. split.
  - rewrite sorted_reverse_Permutation. apply Forall_lookup. intros i y Hy.
    destruct (Forall2_lookup_r _ _ _ _ _ Hrel Hy) as (x & Hx & label & Hlabel & ->).
    apply list_elem_of_lookup_2, enumerate_from_elem_of in Hx as (k & Hk & Hm).
    cbn [fst snd]. split; [done|]. by rewrite Hm.
  - rewrite sorted_reverse_Permutation.
    replace (rows.*1.*1) with ((enumerate team).*1).
    { unfold enumerate. by rewrite enumerate_from_fst. }
    revert Hrel. generalize (enumerate team). intros xs Hrel.
    induction Hrel as [|x y xs rows (label & _ & ->) _ IH]; [done|].
    rewrite !fmap_cons. cbn [fst]. by f_equal.
Qed.


(** X3. The table of a team is built exactly when there are at least as
    many labels as candidates; with fewer, the lookup [labels[m]] raises
    [IndexError]. A table that is built holds every candidate of the team
    once, each with its own label and its own score. *)
Theorem member_popularity_probs_table (labels : list string) (team : list float) :
  ((length labels < length team)%nat →
   member_popularity_probs labels team = Raise IndexError) ∧
  ((length team ≤ length labels)%nat →
   ∃ table,
     member_popularity_probs labels team = Ok table ∧
     table.*1.*1 ≡ₚ seq 0 (length team) ∧
     Forall (λ x, labels !! x.1.1 = Some x.1.2 ∧ team !! x.1.1 = Some x.2) table).
Proof.
  split.
  - intros Hshort. unfold member_popularity_probs. rewrite result_bind_eq.
    set (f := λ '(m, prob), _).
    rewrite (mapM_result_Raise f (enumerate team) IndexError); [done| |].
    + apply Forall_forall. intros [m prob] _. unfold f. rewrite result_bind_eq.
      destruct (py_getitem_cases labels (Z.of_nat m)) as [[l Hl]%is_ok_true|Hl];
        rewrite Hl; [by left|by right].
    + destruct (lookup_lt_is_Some_2 team (length labels) Hshort) as [v Hv].
      apply Exists_exists. exists (length labels, v). split.
      * apply (list_elem_of_lookup_2 _ (length labels)). unfold enumerate.
        by rewrite (enumerate_from_lookup 0 team _ v Hv).
      * unfold f. rewrite result_bind_eq, py_getitem_out_of_range; [done|lia].
  - intros Hcover.
    assert (is_ok (member_popularity_probs labels team) = true)
      as [table Htable]%is_ok_true.
    { unfold member_popularity_probs. rewrite result_bind_eq.
      set (f := λ '(m, prob), _).
      assert (is_ok (mapM f (enumerate team)) = true) as [rows ->]%is_ok_true; [|done].
      apply mapM_result_is_ok, Forall_forall. intros [m prob] Hin.
      apply enumerate_from_elem_of in Hin as (k & Hk & Hm). simpl in Hk, Hm.
      apply lookup_lt_Some in Hk.
      destruct (lookup_lt_is_Some_2 labels m) as [label Hlabel]; [lia|].
      apply is_ok_true. exists (m, label, prob). apply table_row_Ok. eauto. }
    exists table. split; [done|].
    destruct (member_popularity_probs_rows _ _ _ Htable). done.
Qed.

(** A score [rerank_team] returns is the score of a row of the table. *)
Lemma reranked_probs_from_table (table : list (nat * string * float)) positions probs :
  mapM (λ m, x ← py_getitem table m; mret (x.2)) positions = Ok probs →
  length probs = length positions ∧ Forall (λ v, ∃ x, x ∈ table ∧ x.2 = v) probs.
Proof.
  intros Hprobs. split; [by eapply mapM_result_length|].
  apply mapM_result_Ok in Hprobs.
  induction Hprobs as [|m v positions probs Hv _ IH]; constructor; [|done].
  rewrite result_bind_eq in Hv.
  destruct (py_getitem table m) as [x|e] eqn:Hx; [|discriminate].
  injection Hv as <-. exists x. split; [by eapply py_getitem_elem_of|done].
Qed.

(** X4. What [rerank] returns is aligned with the predictions: one list
    of indices and one list of scores per team, as many scores as
    indices in each, and every score is one of the scores the model gave
    that team. *)
Theorem rerank_output_aligned preds labels output ratios algorithm k_max s idx probs :
  (rerank preds labels output ratios algorithm k_max s).1 = Ok (idx, probs) →
  length idx = length preds ∧
  length probs = length preds ∧
  Forall2 (λ ids ps, length ids = length ps) idx probs ∧
  Forall2 (λ team ps, Forall (λ v, v ∈ team) ps) preds probs.
Proof.
  rewrite rerank_fst, result_bind_eq.
  destruct (mapM _ preds) as [teams|e] eqn:Hteams; [|discriminate].
  intros [= <- <-]. apply mapM_result_Ok in Hteams.
  rewrite !length_fmap, <- (Forall2_length _ _ _ Hteams).
  split_and!; [done|done| |].
  - apply Forall2_fmap, Forall_Forall2_diag, Forall_forall. intros [ids ps] Hin.
    apply list_elem_of_lookup in Hin as [i Hi].
    destruct (Forall2_lookup_r _ _ _ _ _ Hteams Hi) as (team & _ & Hteam).
    unfold rerank_team_result in Hteam. rewrite result_bind_eq in Hteam.
    destruct (member_popularity_probs labels team) as [table|e]; [|discriminate].
    rewrite result_bind_eq in Hteam.
    destruct (reranking_rerank _ _ _ _) as [positions|e]; [|discriminate].
    rewrite result_bind_eq in Hteam.
    destruct (mapM _ positions) as [probs|e] eqn:Hprobs; [|discriminate].
    injection Hteam as <- <-. simpl.
    by destruct (reranked_probs_from_table _ _ _ Hprobs).
  - apply Forall2_fmap_r. eapply Forall2_impl; [exact Hteams|].
    intros team [ids ps] Hteam. simpl.
    unfold rerank_team_result in Hteam. rewrite result_bind_eq in Hteam.
    destruct (member_popularity_probs labels team) as [table|e] eqn:Htable; [|discriminate].
    rewrite result_bind_eq in Hteam.
    destruct (reranking_rerank _ _ _ _) as [positions|e]; [|discriminate].
    rewrite result_bind_eq in Hteam.
    destruct (mapM _ positions) as [probs|e] eqn:Hprobs; [|discriminate].
    injection Hteam as <- <-.
    destruct (reranked_probs_from_table _ _ _ Hprobs) as [_ Hfrom].
    destruct (member_popularity_probs_rows _ _ _ Htable) as [Hrows _].
    eapply Forall_impl; [exact Hfrom|]. intros v (x & Hx & <-).
    rewrite Forall_forall in Hrows. destruct (Hrows x Hx) as [_ Hscore].
    by eapply list_elem_of_lookup_2.
Qed.

(** ** Files of the stage functions *)

(** X1. [get_stats] writes all or nothing: when it raises, every file is
    as it was; when it returns, [stats.pkl] holds the statistics it
    returns, [popularity.csv] the labels it returns, and no other file
    has changed. *)
Theorem get_stats_all_or_nothing a coefficient output s :
  match get_stats a coefficient output s with
  | (Ok (st, labels), s') =>
      files s' !! stats_pkl output = Some (dump pickle_stats st) ∧
      files s' !! popularity_csv output = Some (dump csv_popularity labels) ∧
      ∀ p, p ≠ stats_pkl output → p ≠ popularity_csv output →
           files s' !! p = files s !! p
  | (Raise e, s') => files s' = files s
  end.
Proof.
  rewrite get_stats_eq. cbv zeta.
  destruct (py_truediv _ _) as [popular_portion|e]; [|done].
  cbn [written files]. split_and!.
  - rewrite lookup_insert_ne by paths_apart. apply lookup_insert_eq.
  - apply lookup_insert_eq.
  - intros p Hstats Hpopularity. by rewrite !lookup_insert_ne.
Qed.

Lemma string_app_nil_r (s1 : string) : s1 +:+ "" = s1.
Proof.
  induction s1 as [|c s1 IH]; [done|].
  change (String c (s1 +:+ "") = String c s1). by rewrite IH.
Qed.

Lemma appends_to_same {A} path (m : M A) :
  (∀ s, files (m s).2 = files s) → appends_to path m.
Proof. intros Hm s. exists "". by rewrite Hm, string_app_nil_r. Qed.

Lemma appends_to_bind {A B} path (m : M A) (f : A → M B) :
  appends_to path m → (∀ a, appends_to path (f a)) → appends_to path (m ≫= f).
Proof.
  intros Hm Hf s. rewrite M_bind_eq. destruct (Hm s) as [added Hadded].
  destruct (m s) as [[a|e] s1]; simpl in Hadded; [|by exists added].
  destruct (Hf a s1) as [added' Hadded']. exists (added +:+ added').
  by rewrite Hadded', Hadded, string_app_assoc.
Qed.

Lemma appends_to_mapM {A B} path (f : A → M B) l :
  (∀ x, appends_to path (f x)) → appends_to path (mapM f l).
Proof.
  intros Hf. induction l as [|x l IH]; [by apply appends_to_same|].
  apply appends_to_bind; [apply Hf|]. intros y.
  apply appends_to_bind; [apply IH|]. intros k. by apply appends_to_same.
Qed.

Lemma appends_to_append_file path content : appends_to path (append_file path content).
Proof.
  intros s. exists content. cbn [append_file written files snd].
  by rewrite lookup_insert_eq.
Qed.

Lemma appends_to_write_other path path' content :
  path' ≠ path → appends_to path (write_file path' content).
Proof.
  intros Hne s. exists "". cbn [write_file written files snd].
  by rewrite lookup_insert_ne, string_app_nil_r.
Qed.

(** [rerank], written out around its loop. *)
Lemma rerank_eq preds labels output ratios algorithm k_max s :
  rerank preds labels output ratios algorithm k_max s =
  match mapM (rerank_team labels output ratios algorithm k_max) preds (entered "rerank" s) with
  | (Ok teams, s1) =>
      (Ok (teams.*1, teams.*2),
       written (rerank_csv output algorithm k_max) (dump csv_rerank (teams.*1, teams.*2)) s1)
  | (Raise e, s1) => (Raise e, s1)
  end.
Proof.
  unfold rerank. rewrite M_bind_eq. cbn [invoked]. rewrite M_bind_eq.
  by destruct (mapM (rerank_team _ _ _ _ _) preds _) as [[teams|e] s1].
Qed.

Lemma rerank_loop_footprint preds labels output ratios algorithm k_max :
  writes_only [fairness_runtime_txt]
              (mapM (rerank_team labels output ratios algorithm k_max) preds).
Proof. unfold rerank_team. footprint. Qed.

(** X5. [rerank] touches two files only, the runtime log and its own
    table; when it raises, the table is not written, so that only the log
    may have changed; and the log is only ever appended to: what it held
    before the call is still at its front afterwards. *)
Theorem rerank_files preds labels output ratios algorithm k_max s :
  (∀ p, p ≠ fairness_runtime_txt → p ≠ rerank_csv output algorithm k_max →
     files (rerank preds labels output ratios algorithm k_max s).2 !! p = files s !! p) ∧
  (is_ok (rerank preds labels output ratios algorithm k_max s).1 = false →
   ∀ p, p ≠ fairness_runtime_txt →
     files (rerank preds labels output ratios algorithm k_max s).2 !! p = files s !! p) ∧
  (∃ added,
     default "" (files (rerank preds labels output ratios algorithm k_max s).2
                 !! fairness_runtime_txt)
     = default "" (files s !! fairness_runtime_txt) +:+ added).
Proof.
  split_and!.
  - intros p Hlog Hcsv. apply rerank_footprint.
    rewrite !not_elem_of_cons. split_and!; [done|done|apply not_elem_of_nil].
  - rewrite rerank_eq. intros Hfail p Hlog.
    pose proof (rerank_loop_footprint preds labels output ratios algorithm k_max
                  (entered "rerank" s) p) as Hloop.
    destruct (mapM (rerank_team _ _ _ _ _) preds _) as [[teams|e] s1]; [discriminate|].
    apply Hloop. rewrite not_elem_of_cons. split; [done|apply not_elem_of_nil].
  - assert (appends_to fairness_runtime_txt
              (rerank preds labels output ratios algorithm k_max)) as Happ; [|apply Happ].
    unfold rerank, rerank_team.
    repeat first
      [ apply appends_to_bind; [|intros ?]
      | apply appends_to_mapM; intros ?
      | apply appends_to_append_file
      | apply appends_to_write_other; unfold rerank_csv;
        rewrite <- ?string_app_assoc; by apply runtime_log_apart
      | by apply appends_to_same ].
Qed.

(** [eval_fairness], written out around its loop. *)
Lemma eval_fairness_eq preds labels reranked_idx ratios output algorithm k_max s :
  eval_fairness preds labels reranked_idx ratios output algorithm k_max s =
  match mapM (λ '(i, team), eval_fairness_team labels reranked_idx ratios i team)
             (enumerate preds) with
  | Ok teams =>
      let dic := {| ndkl_before := teams.*1; ndkl_after := teams.*2 |} in
      (Ok dic, written (faireval_csv output algorithm k_max) (dump csv_faireval dic)
                       (entered "eval_fairness" s))
  | Raise e => (Raise e, entered "eval_fairness" s)
  end.
Proof.
  unfold eval_fairness. rewrite M_bind_eq. cbn [invoked]. rewrite M_bind_eq. unfold lift.
  by destruct (mapM _ (enumerate preds)).
Qed.

(** A team is evaluated only if it has a row in [reranked_idx]. *)
Lemma eval_fairness_team_Ok labels reranked_idx ratios i team r :
  eval_fairness_team labels reranked_idx ratios i team = Ok r →
  (i < length reranked_idx)%nat.
Proof.
  unfold eval_fairness_team. rewrite result_bind_eq.
  destruct (member_popularity_probs labels team); [|discriminate].
  rewrite result_bind_eq. destruct (reranking_ndkl _ _); [|discriminate].
  rewrite result_bind_eq.
  destruct (py_getitem reranked_idx (Z.of_nat i)) as [members|e] eqn:Hmembers;
    [|discriminate].
  intros _. apply py_getitem_nat_inv in Hmembers. by eapply lookup_lt_Some.
Qed.

(** X6. [eval_fairness] needs a reranked row for every team: with fewer
    rows than teams it raises and writes nothing. When it returns, the
    two columns it returns have one value per team and are what the
    fairness table holds. *)
Theorem eval_fairness_rows preds labels reranked_idx ratios output algorithm k_max s :
  ((length reranked_idx < length preds)%nat →
   is_ok (eval_fairness preds labels reranked_idx ratios output algorithm k_max s).1 = false ∧
   files (eval_fairness preds labels reranked_idx ratios output algorithm k_max s).2
     = files s) ∧
  (∀ dic s',
     eval_fairness preds labels reranked_idx ratios output algorithm k_max s = (Ok dic, s') →
     length (ndkl_before dic) = length preds ∧
     length (ndkl_after dic) = length preds ∧
     files s' !! faireval_csv output algorithm k_max = Some (dump csv_faireval dic)).
Proof.
  rewrite eval_fairness_eq. split.
  - intros Hshort.
    destruct (mapM _ (enumerate preds)) as [teams|e] eqn:Hteams; [|done].
    exfalso. apply mapM_result_Ok in Hteams.
    destruct (lookup_lt_is_Some_2 preds (length reranked_idx) Hshort) as [team Hteam].
    pose proof (enumerate_from_lookup 0 preds _ team Hteam) as Hrow.
    destruct (Forall2_lookup_l _ _ _ _ _ Hteams Hrow) as (r & _ & Hr).
    apply eval_fairness_team_Ok in Hr. lia.
  - intros dic s'.
    destruct (mapM _ (enumerate preds)) as [teams|e] eqn:Hteams; [|discriminate].
    cbv zeta. intros [= <- <-]. cbn [ndkl_before ndkl_after written files].
    apply mapM_result_length in Hteams. unfold enumerate in Hteams.
    rewrite enumerate_from_length in Hteams.
    rewrite !length_fmap, lookup_insert_eq. done.
Qed.

Lemma aligned_entries_elem idx probs i0 k ids ps j c v :
  idx !! k = Some ids → probs !! k = Some ps →
  ids !! j = Some c → ps !! j = Some v →
  ((i0 + k)%nat, c, v) ∈ aligned_entries i0 idx probs.
Proof.
  revert probs i0 k. induction idx as [|ids0 idx IH]; intros [|ps0 probs] i0 k Hids Hps Hc Hv;
    try done.
  cbn [aligned_entries]. apply elem_of_app. destruct k as [|k]; simpl in Hids, Hps.
  - injection Hids as ->. injection Hps as ->. left. rewrite Nat.add_0_r.
    apply (list_elem_of_lookup_2 _ j). rewrite lookup_zip_with, Hc. simpl. by rewrite Hv.
  - right. replace (i0 + S k)%nat with (S i0 + k)%nat by lia. by eapply IH.
Qed.

(** [reranked_preds] writes last. *)
Lemma reranked_preds_Raise member splits reranked_idx probs output algorithm k_max s e s' :
  reranked_preds member splits reranked_idx probs output algorithm k_max s = (Raise e, s') →
  s' = entered "reranked_preds" s.
Proof.
  unfold reranked_preds. rewrite M_bind_eq. cbn [invoked]. rewrite M_bind_eq. unfold lift at 1.
  destruct (py_key splits "test") as [test|e0]; [|by intros [= _ <-]].
  rewrite M_bind_eq. unfold lift at 1.
  destruct (select_rows member test) as [y_test|e0]; [|by intros [= _ <-]].
  rewrite M_bind_eq. unfold lift at 1.
  destruct (reranked_entries reranked_idx probs) as [entries|e0]; [|by intros [= _ <-]].
  rewrite M_bind_eq. unfold lift at 1.
  destruct (make_csr entries _) as [m|e0]; [|by intros [= _ <-]].
  rewrite M_bind_eq. cbn [write_file]. discriminate.
Qed.

Lemma aligned_entries_fit idx probs i0 :
  Forall (Forall (λ c, - 2 ^ 63 ≤ c < 2 ^ 63)) idx →
  forallb (λ '(_, k, _), fits_int64 k) (aligned_entries i0 idx probs) = true.
Proof.
  revert probs i0. induction idx as [|ids idx IH]; intros [|ps probs] i0 Hfit; try done.
  apply Forall_cons in Hfit as [Hids Hfit].
  cbn [aligned_entries]. rewrite forallb_app, IH by done.
  rewrite andb_true_r. clear IH Hfit.
  revert ps. induction Hids as [|c ids Hc _ IH]; intros [|v ps]; try done.
  cbn [zip_with forallb]. rewrite IH, andb_true_r. unfold fits_int64.
  destruct (Z.leb_spec (- 2 ^ 63) c); [|lia]. destruct (Z.ltb_spec c (2 ^ 63)); [done|lia].
Qed.

(** X7. How [reranked_preds] fails. Whenever it raises, no file has
    changed. Without a ['test'] entry in the splits it raises [KeyError].
    With a test split that selects rows of the membership matrix and
    scores aligned with the indices, a candidate index that is negative
    or not below the number of columns makes it raise: [ValueError] when
    every candidate index is a signed 64-bit integer, [OverflowError]
    when one is not. *)
Theorem reranked_preds_failures
    (member : matrix) (splits : gmap string (list Z))
    (reranked_idx : list (list Z)) (reranked_probs : list (list float))
    (output algorithm : string) (k_max : option Z) (s : state) :
  (is_ok (reranked_preds member splits reranked_idx reranked_probs
                         output algorithm k_max s).1 = false →
   files (reranked_preds member splits reranked_idx reranked_probs
                         output algorithm k_max s).2 = files s) ∧
  (splits !! "test" = None →
   (reranked_preds member splits reranked_idx reranked_probs
                   output algorithm k_max s).1 = Raise KeyError) ∧
  (∀ test,
     splits !! "test" = Some test →
     is_ok (select_rows member test) = true →
     Forall2 (λ ids ps, length ids = length ps) reranked_idx reranked_probs →
     (∃ i ids c, reranked_idx !! i = Some ids ∧ c ∈ ids ∧
                 (c < 0 ∨ Z.of_nat (shape1 member) ≤ c)) →
     (Forall (Forall (λ c, - 2 ^ 63 ≤ c < 2 ^ 63)) reranked_idx →
      (reranked_preds member splits reranked_idx reranked_probs
                      output algorithm k_max s).1 = Raise ValueError) ∧
     ((∃ i ids c, reranked_idx !! i = Some ids ∧ c ∈ ids ∧
                  (c < - 2 ^ 63 ∨ 2 ^ 63 ≤ c)) →
      (reranked_preds member splits reranked_idx reranked_probs
                      output algorithm k_max s).1 = Raise OverflowError)).
Proof.
  split_and!.
  - destruct (reranked_preds _ _ _ _ _ _ _ s) as [[m|e] s'] eqn:Hrun; [discriminate|].
    intros _. by rewrite (reranked_preds_Raise _ _ _ _ _ _ _ _ _ _ Hrun).
  - intros Htest. unfold reranked_preds. rewrite M_bind_eq. cbn [invoked].
    rewrite M_bind_eq. unfold lift at 1, py_key. by rewrite Htest.
  - intros test Htest [y_test Hy]%is_ok_true Haligned (i & ids & c & Hids & Hc & Hrange).
    destruct (select_rows_shape _ _ _ Hy) as [Hshape0 Hshape1].
    assert (Hentry : ∀ i ids c, reranked_idx !! i = Some ids → c ∈ ids →
              ∃ v, ((0 + i)%nat, c, v) ∈ aligned_entries 0 reranked_idx reranked_probs).
    { intros i' ids' c' Hids' [j Hj]%list_elem_of_lookup.
      destruct (Forall2_lookup_l _ _ _ _ _ Haligned Hids') as (ps & Hps & Hlen).
      destruct (lookup_lt_is_Some_2 ps j) as [v Hv].
      { rewrite <- Hlen. by eapply lookup_lt_Some. }
      exists v. by eapply aligned_entries_elem. }
    assert (Hrun : ∀ s0,
              (reranked_preds member splits reranked_idx reranked_probs
                              output algorithm k_max s0).1
              = Raise (if forallb (λ '(_, k, _), fits_int64 k)
                                  (aligned_entries 0 reranked_idx reranked_probs)
                       then ValueError else OverflowError)).
    { intros s0. unfold reranked_preds. rewrite M_bind_eq. cbn [invoked].
      rewrite M_bind_eq. unfold lift at 1, py_key. rewrite Htest.
      rewrite M_bind_eq. unfold lift at 1. rewrite Hy.
      rewrite M_bind_eq. unfold lift at 1. rewrite (reranked_entries_aligned _ _ Haligned).
      rewrite M_bind_eq. unfold lift at 1, make_csr.
      set (fit := forallb (λ '(_, k, _), fits_int64 k) _).
      match goal with
      | |- context [if ?b then Ok _ else _] => destruct b eqn:Hall; [exfalso|by destruct fit]
      end.
      destruct (Hentry i ids c Hids Hc) as [v Hin].
      rewrite forallb_forall in Hall. apply list_elem_of_In, Hall in Hin.
      cbn [fst snd] in Hin. rewrite Hshape1 in Hin.
      destruct (Z.leb_spec 0 c); destruct (Z.ltb_spec c (Z.of_nat (shape1 member)));
        rewrite ?andb_false_r in Hin; try discriminate; lia. }
    split.
    + intros Hfit. by rewrite Hrun, aligned_entries_fit.
    + intros (i' & ids' & c' & Hids' & Hc' & Hwide). rewrite Hrun.
      destruct (forallb _ _) eqn:Hall; [exfalso|done].
      destruct (Hentry i' ids' c' Hids' Hc') as [v Hin].
      rewrite forallb_forall in Hall. apply list_elem_of_In, Hall in Hin.
      unfold fits_int64 in Hin.
      destruct (Z.leb_spec (- 2 ^ 63) c'); destruct (Z.ltb_spec c' (2 ^ 63));
        try discriminate; lia.
Qed.

(** X8. The files of [eval_utility]. Without a ['test'] entry in the
    splits it raises [KeyError] before it computes or writes anything.
    It writes the table of an evaluation only when [op] names it: without
    ['before'] in [op] the "before" table is as it was, without ['after']
    the "after" table is; and it touches no other file. *)
Theorem eval_utility_files
    (member : matrix) (sparse : csr_matrix) (preds : list (list float))
    (splits : gmap string (list Z)) (metrics : list string)
    (output algorithm : string) (op : list string) (k_max : option Z) (s : state) :
  (splits !! "test" = None →
   eval_utility member sparse preds splits metrics output algorithm op k_max s
   = (Raise KeyError, entered "eval_utility" s)) ∧
  ("before" ∉ op →
   files (eval_utility member sparse preds splits metrics output algorithm op k_max s).2
     !! utilityeval_before_csv output = files s !! utilityeval_before_csv output) ∧
  ("after" ∉ op →
   files (eval_utility member sparse preds splits metrics output algorithm op k_max s).2
     !! utilityeval_after_csv output algorithm k_max
   = files s !! utilityeval_after_csv output algorithm k_max) ∧
  (∀ p, p ≠ utilityeval_before_csv output → p ≠ utilityeval_after_csv output algorithm k_max →
     files (eval_utility member sparse preds splits metrics output algorithm op k_max s).2
       !! p = files s !! p).
Proof.
  split_and!.
  - intros Htest. unfold eval_utility. rewrite M_bind_eq. cbn [invoked].
    rewrite M_bind_eq. unfold lift at 1, py_key. by rewrite Htest.
  - intros Hop.
    assert (writes_only [utilityeval_after_csv output algorithm k_max]
              (eval_utility member sparse preds splits metrics output algorithm op k_max))
      as Hfoot.
    { unfold eval_utility, py_in. rewrite (bool_decide_eq_false_2 _ Hop). footprint. }
    apply Hfoot. rewrite not_elem_of_cons. split; [paths_apart|apply not_elem_of_nil].
  - intros Hop.
    assert (writes_only [utilityeval_before_csv output]
              (eval_utility member sparse preds splits metrics output algorithm op k_max))
      as Hfoot.
    { unfold eval_utility, py_in. rewrite (bool_decide_eq_false_2 _ Hop). footprint. }
    apply Hfoot. rewrite not_elem_of_cons. split; [paths_apart|apply not_elem_of_nil].
  - intros p Hbefore Hafter. apply eval_utility_footprint.
    rewrite !not_elem_of_cons. split_and!; [done|done|apply not_elem_of_nil].
Qed.

(** ** [os.path.split] *)

Lemma after_last_slash_None p : after_last_slash p = None ↔ no_slash p = true.
Proof.
  induction p as [|c p IH]; simpl; [done|].
  destruct (after_last_slash p) as [t|].
  - split; [discriminate|]. intros [_ Hp]%andb_prop. apply IH in Hp. discriminate.
  - destruct (Ascii.eqb c slash); simpl; [split; discriminate|]. by rewrite <- IH.
Qed.

Lemma after_last_slash_Some p t : after_last_slash p = Some t → no_slash t = true.
Proof.
  revert t. induction p as [|c p IH]; intros t; simpl; [discriminate|].
  destruct (after_last_slash p) as [t'|] eqn:Hp.
  - intros [= <-]. by apply IH.
  - destruct (Ascii.eqb c slash); [|discriminate].
    intros [= <-]. by apply after_last_slash_None.
Qed.

Lemma after_last_slash_app dir p t :
  after_last_slash p = Some t → after_last_slash (dir +:+ p) = Some t.
Proof.
  intros Hp. induction dir as [|c dir IH]; [done|].
  change (String c dir +:+ p) with (String c (dir +:+ p)). simpl. by rewrite IH.
Qed.

(** X9. [os.path.split(p)[-1]], which names the checkpoints of a
    prediction file: the name it gives never has a slash, and for a
    directory, a slash and a name without slash it gives back the name. *)
Theorem os_path_split_tail_name :
  (∀ p, no_slash (os_path_split_tail p) = true) ∧
  (∀ dir name, no_slash name = true → os_path_split_tail (dir +:+ "/" +:+ name) = name).
Proof.
  split.
  - intros p. unfold os_path_split_tail.
    destruct (after_last_slash p) as [t|] eqn:Hp; simpl.
    + by eapply after_last_slash_Some.
    + by apply after_last_slash_None.
  - intros dir name Hname. unfold os_path_split_tail.
    rewrite (after_last_slash_app dir ("/" +:+ name) name); [done|].
    change ("/" +:+ name) with (String slash name). simpl.
    apply after_last_slash_None in Hname. by rewrite Hname.
Qed.

(** ** The driver's ratios *)

(** X13. The sequential driver reads [args.ratios[0]] and
    [args.ratios[1]] before its loop: without the ratios option it raises
    [TypeError], with fewer than two ratios [IndexError], and in both
    cases no prediction file is processed and no file is touched. *)
Theorem main_sequential_needs_two_ratios (a : args) (files_found : list pred_file) (s : state) :
  (args_ratios a = None → main_sequential a files_found s = (Raise TypeError, s)) ∧
  (∀ l, args_ratios a = Some l → (length l < 2)%nat →
        main_sequential a files_found s = (Raise IndexError, s)).
Proof.
  unfold main_sequential. split.
  - intros Hnone. rewrite M_bind_eq. unfold lift, ratios_dict. by rewrite Hnone.
  - intros l Hsome Hshort. rewrite M_bind_eq. unfold lift, ratios_dict. rewrite Hsome.
    rewrite result_bind_eq.
    destruct l as [|x [|y l]]; simpl in Hshort; [reflexivity|reflexivity|lia].
Qed.

(** ** The files of [run] *)

Ltac sub_paths :=
  let x := fresh "x" in let Hx := fresh "Hx" in
  intros x Hx; unfold run_paths; rewrite !elem_of_cons in Hx; rewrite !elem_of_cons;
  repeat (destruct Hx as [->|Hx]; [tauto|]); by apply elem_of_nil in Hx.

Lemma labels_stage_footprint teamsvecs output :
  writes_only [stats_pkl output; popularity_csv output] (labels_stage teamsvecs output).
Proof.
  unfold labels_stage, load_labels. footprint. apply get_stats_footprint.
Qed.

Lemma rerank_stage_footprint preds labels new_output ratios algorithm k_max :
  writes_only [fairness_runtime_txt; rerank_csv new_output algorithm k_max]
              (rerank_stage preds labels new_output ratios algorithm k_max).
Proof. unfold rerank_stage, load_rerank. footprint. apply rerank_footprint. Qed.

Lemma faireval_stage_footprint preds labels reranked_idx ratios new_output algorithm k_max :
  writes_only [faireval_csv new_output algorithm k_max]
              (faireval_stage preds labels reranked_idx ratios new_output algorithm k_max).
Proof. unfold faireval_stage, load_faireval. footprint. apply eval_fairness_footprint. Qed.

Lemma reranked_preds_stage_footprint teamsvecs splits reranked_idx probs output algorithm k_max :
  writes_only [reranked_preds_pkl output algorithm k_max]
              (reranked_preds_stage teamsvecs splits reranked_idx probs output algorithm k_max).
Proof.
  unfold reranked_preds_stage, load_reranked_preds. footprint. apply reranked_preds_footprint.
Qed.

Lemma utility_before_stage_footprint teamsvecs sparse preds splits metrics
    new_output algorithm k_max :
  writes_only [utilityeval_before_csv new_output;
               utilityeval_after_csv new_output algorithm k_max]
              (utility_before_stage teamsvecs sparse preds splits metrics
                                    new_output algorithm k_max).
Proof.
  unfold utility_before_stage, load_utility_before. footprint. apply eval_utility_footprint.
Qed.

Lemma utility_after_stage_footprint teamsvecs sparse preds splits metrics
    new_output algorithm k_max :
  writes_only [utilityeval_after_csv new_output algorithm k_max]
              (utility_after_stage teamsvecs sparse preds splits metrics
                                   new_output algorithm k_max).
Proof.
  unfold utility_after_stage, load_utility_after. footprint.
  unfold eval_utility, py_in.
  rewrite (bool_decide_eq_false_2 ("before" ∈ ["after"]))
    by (intros Hin%list_elem_of_singleton; discriminate).
  footprint.
Qed.

Lemma run_writes_only fpreds output fteamsvecs fsplits ratios fairness_metric
    utility_metrics algorithm k_max :
  writes_only (run_paths fpreds output algorithm k_max)
              (run fpreds output fteamsvecs fsplits ratios fairness_metric utility_metrics
                   algorithm k_max).
Proof.
  unfold run.
  repeat first
    [ apply writes_only_load_file
    | apply writes_only_bind; [|intros ?]
    | match goal with |- writes_only _ (let '(_, _) := ?p in _) => destruct p end
    | eapply writes_only_weaken; [|apply labels_stage_footprint]; sub_paths
    | eapply writes_only_weaken; [|apply rerank_stage_footprint]; sub_paths
    | eapply writes_only_weaken; [|apply faireval_stage_footprint]; sub_paths
    | eapply writes_only_weaken; [|apply reranked_preds_stage_footprint]; sub_paths
    | eapply writes_only_weaken; [|apply utility_before_stage_footprint]; sub_paths
    | eapply writes_only_weaken; [|apply utility_after_stage_footprint]; sub_paths ].
Qed.

(** X11. Whether it returns or raises, [run] changes no file besides the
    seven checkpoints of its prediction file and the runtime log: its
    inputs and every other file are as they were. *)
Theorem run_footprint fpreds output fteamsvecs fsplits ratios fairness_metric
    utility_metrics algorithm k_max s p :
  p ∉ run_paths fpreds output algorithm k_max →
  files (run fpreds output fteamsvecs fsplits ratios fairness_metric utility_metrics
             algorithm k_max s).2 !! p = files s !! p.
Proof. apply run_writes_only. Qed.

(** ** A run leaves its checkpoints behind *)

Lemma load_file_Ok {A} (codec : Codec A) path s v s' :
  load_file codec path s = (Ok v, s') →
  s' = s ∧ checkpoint_present codec path s = true.
Proof.
  unfold load_file, read_file, checkpoint_present. rewrite M_bind_eq.
  destruct (files s !! path) as [c|]; [|discriminate].
  unfold lift. intros [= Hv <-]. by rewrite Hv.
Qed.

Lemma load_unit_Ok {A} (codec : Codec A) path s v s' :
  (load_file codec path;; mret ()) s = (Ok v, s') →
  s' = s ∧ checkpoint_present codec path s = true.
Proof.
  rewrite M_bind_eq. destruct (load_file codec path s) as [[x|e] s0] eqn:Hload; [|discriminate].
  intros [= _ <-]. by eapply load_file_Ok.
Qed.

Lemma present_written {A} (codec : Codec A) path s v :
  loads_own_dump codec →
  files s !! path = Some (dump codec v) →
  checkpoint_present codec path s = true.
Proof. intros Hcodec Hfile. unfold checkpoint_present. rewrite Hfile. apply Hcodec. Qed.

Lemma present_same_file {A} (codec : Codec A) path s s' :
  files s' !! path = files s !! path →
  checkpoint_present codec path s' = checkpoint_present codec path s.
Proof. unfold checkpoint_present. by intros ->. Qed.

Lemma labels_stage_present teamsvecs output s v s' :
  loads_own_dump pickle_stats → loads_own_dump csv_popularity →
  labels_stage teamsvecs output s = (Ok v, s') →
  checkpoint_present pickle_stats (stats_pkl output) s' = true ∧
  checkpoint_present csv_popularity (popularity_csv output) s' = true.
Proof.
  intros Hstats Hpopularity. unfold labels_stage, try_except.
  destruct (load_labels output s) as [[v0|e] s0] eqn:Hload.
  - intros [= _ <-]. unfold load_labels in Hload. rewrite M_bind_eq in Hload.
    destruct (load_file pickle_stats _ s) as [[st|e] s1] eqn:Hst; [|discriminate].
    apply load_file_Ok in Hst as [-> Hst]. rewrite M_bind_eq in Hload.
    destruct (load_file csv_popularity _ s) as [[labels|e] s1] eqn:Hl; [|discriminate].
    apply load_file_Ok in Hl as [-> Hl]. by injection Hload as _ <-.
  - destruct (except_FileNotFoundError_EOFError e); [|discriminate].
    rewrite M_bind_eq. unfold lift.
    destruct (py_key teamsvecs "member") as [member|e']; [|discriminate].
    rewrite get_stats_eq. cbv zeta.
    destruct (py_truediv _ _) as [popular_portion|e']; [|discriminate].
    intros [= _ <-]. split.
    + eapply present_written; [done|]. cbn [written files].
      rewrite lookup_insert_ne by paths_apart. apply lookup_insert_eq.
    + eapply present_written; [done|]. cbn [written files]. apply lookup_insert_eq.
Qed.

Lemma rerank_stage_present preds labels new_output ratios algorithm k_max s v s' :
  loads_own_dump csv_rerank →
  rerank_stage preds labels new_output ratios algorithm k_max s = (Ok v, s') →
  checkpoint_present csv_rerank (rerank_csv new_output algorithm k_max) s' = true.
Proof.
  intros Hcodec. unfold rerank_stage, try_except, load_rerank.
  destruct (load_file csv_rerank _ s) as [[v0|e] s0] eqn:Hload.
  - intros [= _ <-]. by apply load_file_Ok in Hload as [-> ?].
  - destruct (except_FileNotFoundError e); [|discriminate].
    intros Hrun%rerank_persists. by eapply present_written.
Qed.

Lemma faireval_stage_present preds labels reranked_idx ratios new_output algorithm k_max
    s v s' :
  loads_own_dump csv_faireval →
  faireval_stage preds labels reranked_idx ratios new_output algorithm k_max s = (Ok v, s') →
  checkpoint_present csv_faireval (faireval_csv new_output algorithm k_max) s' = true.
Proof.
  intros Hcodec. unfold faireval_stage, try_except, load_faireval.
  destruct ((load_file csv_faireval _;; mret ()) s) as [[v0|e] s0] eqn:Hload.
  - intros [= _ <-]. by apply load_unit_Ok in Hload as [-> ?].
  - destruct (except_FileNotFoundError e); [|discriminate].
    rewrite M_bind_eq.
    destruct (eval_fairness _ _ _ _ _ _ _ s0) as [[dic|e'] s1] eqn:Hrun; [|discriminate].
    intros [= _ <-]. apply eval_fairness_persists in Hrun. by eapply present_written.
Qed.

Lemma reranked_preds_stage_present teamsvecs splits reranked_idx probs output algorithm
    k_max s v s' :
  loads_own_dump pickle_reranked_preds →
  reranked_preds_stage teamsvecs splits reranked_idx probs output algorithm k_max s
    = (Ok v, s') →
  checkpoint_present pickle_reranked_preds (reranked_preds_pkl output algorithm k_max) s'
    = true.
Proof.
  intros Hcodec. unfold reranked_preds_stage, try_except, load_reranked_preds.
  destruct (load_file pickle_reranked_preds _ s) as [[v0|e] s0] eqn:Hload.
  - intros [= _ <-]. by apply load_file_Ok in Hload as [-> ?].
  - destruct (except_FileNotFoundError e); [|discriminate].
    rewrite M_bind_eq. unfold lift.
    destruct (py_key teamsvecs "member") as [member|e']; [|discriminate].
    intros Hrun%reranked_preds_persists. by eapply present_written.
Qed.

(** What [eval_utility] has written when it returns. *)
Lemma eval_utility_written member sparse preds splits metrics output algorithm op k_max
    s s' :
  eval_utility member sparse preds splits metrics output algorithm op k_max s = (Ok (), s') →
  ("before" ∈ op →
   ∃ df, files s' !! utilityeval_before_csv output = Some (dump csv_utility df)) ∧
  ("after" ∈ op →
   ∃ df, files s' !! utilityeval_after_csv output algorithm k_max
         = Some (dump csv_utility df)).
Proof.
  unfold eval_utility. rewrite M_bind_eq. cbn [invoked]. rewrite M_bind_eq. unfold lift at 1.
  destruct (py_key splits "test") as [test|e]; [|discriminate].
  rewrite M_bind_eq. unfold lift at 1.
  destruct (select_rows member test) as [y_test|e]; [|discriminate].
  rewrite M_bind_eq. unfold py_in.
  destruct (bool_decide ("before" ∈ op)) eqn:Hbefore;
    destruct (bool_decide ("after" ∈ op)) eqn:Hafter.
  - rewrite M_bind_eq. unfold lift at 1.
    destruct (calculate_metrics y_test preds true metrics) as [df|e]; [|discriminate].
    cbn [write_file]. rewrite M_bind_eq. unfold lift at 1.
    destruct (calculate_metrics y_test (toarray sparse) true metrics) as [df'|e];
      [|discriminate].
    cbn [write_file]. intros [= <-]. cbn [written files]. split; intros _.
    + exists df. rewrite lookup_insert_ne by paths_apart. apply lookup_insert_eq.
    + exists df'. apply lookup_insert_eq.
  - rewrite M_bind_eq. unfold lift at 1.
    destruct (calculate_metrics y_test preds true metrics) as [df|e]; [|discriminate].
    cbn [write_file]. intros [= <-]. cbn [written files]. split.
    + intros _. exists df. apply lookup_insert_eq.
    + intros Hin. by apply bool_decide_eq_false_1 in Hafter.
  - unfold mret at 1, M_ret at 1. cbv beta iota. rewrite M_bind_eq. unfold lift at 1.
    destruct (calculate_metrics y_test (toarray sparse) true metrics) as [df'|e];
      [|discriminate].
    cbn [write_file]. intros [= <-]. cbn [written files]. split.
    + intros Hin. by apply bool_decide_eq_false_1 in Hbefore.
    + intros _. exists df'. apply lookup_insert_eq.
  - intros _. split; intros Hin.
    + by apply bool_decide_eq_false_1 in Hbefore.
    + by apply bool_decide_eq_false_1 in Hafter.
Qed.

Lemma utility_before_stage_present teamsvecs sparse preds splits metrics new_output
    algorithm k_max s s' :
  loads_own_dump csv_utility →
  utility_before_stage teamsvecs sparse preds splits metrics new_output algorithm k_max s
    = (Ok (), s') →
  checkpoint_present csv_utility (utilityeval_before_csv new_output) s' = true.
Proof.
  intros Hcodec. unfold utility_before_stage, try_except, load_utility_before.
  destruct ((load_file csv_utility _;; mret ()) s) as [[v0|e] s0] eqn:Hload.
  - intros [= _ <-]. by apply load_unit_Ok in Hload as [-> ?].
  - cbn [except_all]. rewrite M_bind_eq. unfold lift.
    destruct (py_key teamsvecs "member") as [member|e']; [|discriminate].
    intros [Hbefore _]%eval_utility_written.
    destruct Hbefore as [df Hdf]; [set_solver|]. by eapply present_written.
Qed.

Lemma utility_after_stage_present teamsvecs sparse preds splits metrics new_output
    algorithm k_max s s' :
  loads_own_dump csv_utility →
  utility_after_stage teamsvecs sparse preds splits metrics new_output algorithm k_max s
    = (Ok (), s') →
  checkpoint_present csv_utility (utilityeval_after_csv new_output algorithm k_max) s' = true.
Proof.
  intros Hcodec. unfold utility_after_stage, try_except, load_utility_after.
  destruct ((load_file csv_utility _;; mret ()) s) as [[v0|e] s0] eqn:Hload.
  - intros [= _ <-]. by apply load_unit_Ok in Hload as [-> ?].
  - cbn [except_all]. rewrite M_bind_eq. unfold lift.
    destruct (py_key teamsvecs "member") as [member|e']; [|discriminate].
    intros [_ Hafter]%eval_utility_written.
    destruct Hafter as [df Hdf]; [set_solver|]. by eapply present_written.
Qed.

(** With every checkpoint present [run] loads them all and stops. *)
Lemma run_all_hits
    (fpreds output fteamsvecs fsplits : string) (ratios : ratios_t)
    (fairness_metric utility_metrics : list string) (algorithm : string)
    (k_max : option Z) (s : state) :
  checkpoint_present pickle_stats (stats_pkl output) s = true →
  checkpoint_present csv_popularity (popularity_csv output) s = true →
  checkpoint_present csv_rerank
    (rerank_csv (new_output_of output fpreds) algorithm k_max) s = true →
  checkpoint_present csv_faireval
    (faireval_csv (new_output_of output fpreds) algorithm k_max) s = true →
  checkpoint_present pickle_reranked_preds
    (reranked_preds_pkl output algorithm k_max) s = true →
  checkpoint_present csv_utility
    (utilityeval_before_csv (new_output_of output fpreds)) s = true →
  checkpoint_present csv_utility
    (utilityeval_after_csv (new_output_of output fpreds) algorithm k_max) s = true →
  (run fpreds output fteamsvecs fsplits ratios fairness_metric utility_metrics
       algorithm k_max s).2 = s ∧
  (checkpoint_present pickle_teamsvecs fteamsvecs s = true →
   checkpoint_present json_splits fsplits s = true →
   checkpoint_present torch_preds fpreds s = true →
   (run fpreds output fteamsvecs fsplits ratios fairness_metric utility_metrics
        algorithm k_max s).1 = Ok ()).
Proof.
  intros [st Hstats]%load_file_present [labels Hlabels]%load_file_present
         [[reranked_idx probs] Hrerank]%load_file_present
         Hfaireval%load_unit_present
         [sparse Hsparse]%load_file_present
         Hbefore%load_unit_present Hafter%load_unit_present.
  assert (Hrest : ∀ teamsvecs splits preds,
    ('(st, labels) ← labels_stage teamsvecs output;
     let ratios :=
       if py_not_ratios ratios
       then RatiosDict (popularity_ratio st).1 (popularity_ratio st).2
       else ratios in
     let new_output := new_output_of output fpreds in
     '(reranked_idx, probs) ← rerank_stage preds labels new_output ratios algorithm k_max;
     faireval_stage preds labels reranked_idx ratios new_output algorithm k_max;;
     reranked_preds ← reranked_preds_stage teamsvecs splits reranked_idx probs
                                            output algorithm k_max;
     utility_before_stage teamsvecs reranked_preds preds splits utility_metrics
                          new_output algorithm k_max;;
     utility_after_stage teamsvecs reranked_preds preds splits utility_metrics
                         new_output algorithm k_max) s = (Ok (), s)).
  { intros teamsvecs splits preds.
    rewrite M_bind_eq. unfold labels_stage.
    erewrite try_except_Ok; last first.
    { unfold load_labels. rewrite M_bind_eq, Hstats, M_bind_eq, Hlabels. reflexivity. }
    cbv beta iota zeta. rewrite M_bind_eq. unfold rerank_stage.
    erewrite try_except_Ok; [|exact Hrerank].
    cbv beta iota. rewrite M_bind_eq. unfold faireval_stage.
    erewrite try_except_Ok; [|exact Hfaireval].
    cbv beta iota. rewrite M_bind_eq. unfold reranked_preds_stage.
    erewrite try_except_Ok; [|exact Hsparse].
    cbv beta iota. rewrite M_bind_eq. unfold utility_before_stage.
    erewrite try_except_Ok; [|exact Hbefore].
    cbv beta iota. unfold utility_after_stage.
    erewrite try_except_Ok; [|exact Hafter]. reflexivity. }
  unfold run. split.
  - rewrite M_bind_eq, (load_file_result pickle_teamsvecs).
    destruct (load_file pickle_teamsvecs fteamsvecs s).1 as [teamsvecs|e]; [|done].
    rewrite M_bind_eq, (load_file_result json_splits).
    destruct (load_file json_splits fsplits s).1 as [splits|e]; [|done].
    rewrite M_bind_eq, (load_file_result torch_preds).
    destruct (load_file torch_preds fpreds s).1 as [preds|e]; [|done].
    by rewrite Hrest.
  - intros [teamsvecs Hteamsvecs]%load_file_present [splits Hsplits]%load_file_present
           [preds Hpreds]%load_file_present.
    rewrite M_bind_eq, Hteamsvecs, M_bind_eq, Hsplits, M_bind_eq, Hpreds.
    by rewrite Hrest.
Qed.

Ltac not_in_paths :=
  rewrite !not_elem_of_cons; split_and!; first [ apply not_elem_of_nil | paths_apart ].

(** Carry the presence of a checkpoint back over a stage that does not
    write it. *)
Ltac carry F := erewrite present_same_file; [|apply F; not_in_paths].

(** When [run] returns, its three inputs were loaded and its seven
    checkpoints are present in the state it leaves. *)
Lemma run_Ok_present fpreds output fteamsvecs fsplits ratios fairness_metric
    utility_metrics algorithm k_max s s1 :
  loads_own_dump pickle_stats → loads_own_dump csv_popularity →
  loads_own_dump csv_rerank → loads_own_dump csv_faireval →
  loads_own_dump pickle_reranked_preds → loads_own_dump csv_utility →
  run fpreds output fteamsvecs fsplits ratios fairness_metric utility_metrics
      algorithm k_max s = (Ok (), s1) →
  (checkpoint_present pickle_teamsvecs fteamsvecs s = true ∧
   checkpoint_present json_splits fsplits s = true ∧
   checkpoint_present torch_preds fpreds s = true) ∧
  checkpoint_present pickle_stats (stats_pkl output) s1 = true ∧
  checkpoint_present csv_popularity (popularity_csv output) s1 = true ∧
  checkpoint_present csv_rerank
    (rerank_csv (new_output_of output fpreds) algorithm k_max) s1 = true ∧
  checkpoint_present csv_faireval
    (faireval_csv (new_output_of output fpreds) algorithm k_max) s1 = true ∧
  checkpoint_present pickle_reranked_preds
    (reranked_preds_pkl output algorithm k_max) s1 = true ∧
  checkpoint_present csv_utility
    (utilityeval_before_csv (new_output_of output fpreds)) s1 = true ∧
  checkpoint_present csv_utility
    (utilityeval_after_csv (new_output_of output fpreds) algorithm k_max) s1 = true.
Proof.
  intros Hstats Hpopularity Hrerank Hfaireval Hsparse Hutility Hrun.
  unfold run in Hrun. rewrite M_bind_eq in Hrun.
  destruct (load_file pickle_teamsvecs fteamsvecs s) as [[teamsvecs|e] s0] eqn:Hteamsvecs;
    [|discriminate].
  apply load_file_Ok in Hteamsvecs as [-> Hteamsvecs]. rewrite M_bind_eq in Hrun.
  destruct (load_file json_splits fsplits s) as [[splits|e] s0] eqn:Hsplits; [|discriminate].
  apply load_file_Ok in Hsplits as [-> Hsplits]. rewrite M_bind_eq in Hrun.
  destruct (load_file torch_preds fpreds s) as [[preds|e] s0] eqn:Hpreds; [|discriminate].
  apply load_file_Ok in Hpreds as [-> Hpreds]. rewrite M_bind_eq in Hrun.
  destruct (labels_stage teamsvecs output s) as [[[st labels]|e] sA] eqn:HA; [|discriminate].
  cbv beta iota zeta in Hrun. rewrite M_bind_eq in Hrun.
  match type of Hrun with context [rerank_stage ?a ?b ?c ?d ?e ?f sA] =>
    destruct (rerank_stage a b c d e f sA) as [[[reranked_idx probs]|e'] sB] eqn:HB;
      [|discriminate];
    pose proof (rerank_stage_footprint a b c d e f sA) as FB; rewrite HB in FB
  end.
  cbv beta iota zeta in Hrun. rewrite M_bind_eq in Hrun.
  match type of Hrun with context [faireval_stage ?a ?b ?c ?d ?e ?f ?g sB] =>
    destruct (faireval_stage a b c d e f g sB) as [[[]|e'] sC] eqn:HC; [|discriminate];
    pose proof (faireval_stage_footprint a b c d e f g sB) as FC; rewrite HC in FC
  end.
  rewrite M_bind_eq in Hrun.
  match type of Hrun with context [reranked_preds_stage ?a ?b ?c ?d ?e ?f ?g sC] =>
    destruct (reranked_preds_stage a b c d e f g sC) as [[sparse|e'] sD] eqn:HD;
      [|discriminate];
    pose proof (reranked_preds_stage_footprint a b c d e f g sC) as FD; rewrite HD in FD
  end.
  rewrite M_bind_eq in Hrun.
  match type of Hrun with context [utility_before_stage ?a ?b ?c ?d ?e ?f ?g ?h sD] =>
    destruct (utility_before_stage a b c d e f g h sD) as [[[]|e'] sE] eqn:HE;
      [|discriminate];
    pose proof (utility_before_stage_footprint a b c d e f g h sD) as FE; rewrite HE in FE
  end.
  match type of Hrun with utility_after_stage ?a ?b ?c ?d ?e ?f ?g ?h sE = _ =>
    pose proof (utility_after_stage_footprint a b c d e f g h sE) as FF; rewrite Hrun in FF
  end.
  cbn [snd] in FB, FC, FD, FE, FF.
  destruct (labels_stage_present _ _ _ _ _ Hstats Hpopularity HA) as [PA1 PA2].
  pose proof (rerank_stage_present _ _ _ _ _ _ _ _ _ Hrerank HB) as PB.
  pose proof (faireval_stage_present _ _ _ _ _ _ _ _ _ _ Hfaireval HC) as PC.
  pose proof (reranked_preds_stage_present _ _ _ _ _ _ _ _ _ _ Hsparse HD) as PD.
  pose proof (utility_before_stage_present _ _ _ _ _ _ _ _ _ _ Hutility HE) as PE.
  pose proof (utility_after_stage_present _ _ _ _ _ _ _ _ _ _ Hutility Hrun) as PF.
  split_and!; try done.
  - carry FF. carry FE. carry FD. carry FC. carry FB. done.
  - carry FF. carry FE. carry FD. carry FC. carry FB. done.
  - carry FF. carry FE. carry FD. carry FC. done.
  - carry FF. carry FE. carry FD. done.
  - carry FF. carry FE. done.
  - carry FF. done.
Qed.

(** X12. Running twice. With loaders that accept what their serialisers
    write, a [run] that returns leaves all its checkpoints behind: a
    second [run] with the same arguments, started where the first ended,
    enters no stage and writes no file; and it returns, provided the
    three input files are not themselves among the paths [run] writes. *)
Theorem run_twice fpreds output fteamsvecs fsplits ratios fairness_metric
    utility_metrics algorithm k_max s s1 :
  loads_own_dump pickle_stats → loads_own_dump csv_popularity →
  loads_own_dump csv_rerank → loads_own_dump csv_faireval →
  loads_own_dump pickle_reranked_preds → loads_own_dump csv_utility →
  run fpreds output fteamsvecs fsplits ratios fairness_metric utility_metrics
      algorithm k_max s = (Ok (), s1) →
  (run fpreds output fteamsvecs fsplits ratios fairness_metric utility_metrics
       algorithm k_max s1).2 = s1 ∧
  (fteamsvecs ∉ run_paths fpreds output algorithm k_max →
   fsplits ∉ run_paths fpreds output algorithm k_max →
   fpreds ∉ run_paths fpreds output algorithm k_max →
   run fpreds output fteamsvecs fsplits ratios fairness_metric utility_metrics
       algorithm k_max s1 = (Ok (), s1)).
Proof.
  intros Hstats Hpopularity Hrerank Hfaireval Hsparse Hutility Hrun.
  destruct (run_Ok_present _ _ _ _ _ _ _ _ _ _ _ Hstats Hpopularity Hrerank Hfaireval
              Hsparse Hutility Hrun)
    as ((Hteamsvecs & Hsplits & Hpreds) & P1 & P2 & P3 & P4 & P5 & P6 & P7).
  destruct (run_all_hits fpreds output fteamsvecs fsplits ratios fairness_metric
              utility_metrics algorithm k_max s1 P1 P2 P3 P4 P5 P6 P7) as [Hstate Hvalue].
  split; [exact Hstate|].
  intros Hin1 Hin2 Hin3.
  pose proof (run_writes_only fpreds output fteamsvecs fsplits ratios fairness_metric
                utility_metrics algorithm k_max s) as Hfoot.
  rewrite Hrun in Hfoot. cbn [snd] in Hfoot.
  rewrite <- Hstate at 2. rewrite <- Hvalue.
  - by destruct (run _ _ _ _ _ _ _ _ _ s1).
  - by rewrite (present_same_file _ _ s s1) by by apply Hfoot.
  - by rewrite (present_same_file _ _ s s1) by by apply Hfoot.
  - by rewrite (present_same_file _ _ s s1) by by apply Hfoot.
Qed.

(** ** Which stages a run enters *)

Lemma enters_none {A} stages (m : M A) :
  (∀ s, calls (m s).2 = calls s) → enters stages m.
Proof. intros Hm s. exists []. by rewrite Hm, app_nil_r. Qed.

Lemma enters_load_file {A} stages (codec : Codec A) path :
  enters stages (load_file codec path).
Proof. apply enters_none. intros s. by rewrite load_file_state. Qed.

Lemma enters_invoked stages stage : stage ∈ stages → enters stages (invoked stage).
Proof. intros Hin s. exists [stage]. split; [done|]. by constructor. Qed.

Lemma enters_bind {A B} stages (m : M A) (f : A → M B) :
  enters stages m → (∀ a, enters stages (f a)) → enters stages (m ≫= f).
Proof.
  intros Hm Hf s. rewrite M_bind_eq. destruct (Hm s) as (l & Hl & Hall).
  destruct (m s) as [[a|e] s1]; simpl in Hl; [|by exists l].
  destruct (Hf a s1) as (l' & Hl' & Hall'). exists (l ++ l'). split.
  - by rewrite Hl', Hl, app_assoc.
  - by apply Forall_app.
Qed.

Lemma enters_try_except {A} stages (body handler : M A) catches :
  enters stages body → enters stages handler →
  enters stages (try_except body catches handler).
Proof.
  intros Hbody Hhandler s. unfold try_except. destruct (Hbody s) as (l & Hl & Hall).
  destruct (body s) as [[a|e] s1]; simpl in Hl; [by exists l|].
  destruct (catches e); [|by exists l].
  destruct (Hhandler s1) as (l' & Hl' & Hall'). exists (l ++ l'). split.
  - by rewrite Hl', Hl, app_assoc.
  - by apply Forall_app.
Qed.

Lemma enters_mapM {A B} stages (f : A → M B) l :
  (∀ x, enters stages (f x)) → enters stages (mapM f l).
Proof.
  intros Hf. induction l as [|x l IH]; [by apply enters_none|].
  apply enters_bind; [apply Hf|]. intros y.
  apply enters_bind; [apply IH|]. intros k. by apply enters_none.
Qed.

Ltac enters_step :=
  lazymatch goal with
  | |- enters _ (load_file _ _) => apply enters_load_file
  | |- enters _ (_ ≫= _) => apply enters_bind; [|intros ?]
  | |- enters _ (if ?b then _ else _) => destruct b
  | |- enters _ (let '(_, _) := ?p in _) => destruct p
  | |- enters _ (mapM _ _) => apply enters_mapM; intros ?
  | |- enters _ (try_except _ _ _) => apply enters_try_except
  | |- enters _ (invoked _) => apply enters_invoked; in_paths
  | |- _ => by apply enters_none
  end.
Ltac enters := repeat enters_step.

Lemma rerank_stage_enters preds labels new_output ratios algorithm k_max :
  enters ["rerank"] (rerank_stage preds labels new_output ratios algorithm k_max).
Proof. unfold rerank_stage, load_rerank, rerank, rerank_team. enters. Qed.

Lemma faireval_stage_enters preds labels reranked_idx ratios new_output algorithm k_max :
  enters ["eval_fairness"]
         (faireval_stage preds labels reranked_idx ratios new_output algorithm k_max).
Proof. unfold faireval_stage, load_faireval, eval_fairness. enters. Qed.

Lemma utility_before_stage_enters teamsvecs sparse preds splits metrics new_output
    algorithm k_max :
  enters ["eval_utility"]
         (utility_before_stage teamsvecs sparse preds splits metrics new_output
                               algorithm k_max).
Proof. unfold utility_before_stage, load_utility_before, eval_utility. enters. Qed.

Lemma utility_after_stage_enters teamsvecs sparse preds splits metrics new_output
    algorithm k_max :
  enters ["eval_utility"]
         (utility_after_stage teamsvecs sparse preds splits metrics new_output
                              algorithm k_max).
Proof. unfold utility_after_stage, load_utility_after, eval_utility. enters. Qed.

Ltac among :=
  eapply Forall_impl;
  [ eassumption | intros ? ?%list_elem_of_singleton; subst; in_paths ].

(** With the popularity labels and the sparse matrix of reranked predictions
    present in the output directory, a run for any prediction file enters
    neither [get_stats] nor [reranked_preds]. *)
Lemma run_with_shared_checkpoints fpreds output fteamsvecs fsplits ratios
    fairness_metric utility_metrics algorithm k_max s :
  checkpoint_present pickle_stats (stats_pkl output) s = true →
  checkpoint_present csv_popularity (popularity_csv output) s = true →
  checkpoint_present pickle_reranked_preds
    (reranked_preds_pkl output algorithm k_max) s = true →
  ∃ l, calls (run fpreds output fteamsvecs fsplits ratios fairness_metric
                  utility_metrics algorithm k_max s).2 = calls s ++ l ∧
       Forall (λ x, x ∈ ["rerank"; "eval_fairness"; "eval_utility"]) l.
Proof.
  intros [st Hstats]%load_file_present [labels Hlabels]%load_file_present Psparse.
  assert (Hnone : ∃ l, calls s = calls s ++ l ∧
            Forall (λ x, x ∈ ["rerank"; "eval_fairness"; "eval_utility"]) l).
  { exists []. by rewrite app_nil_r. }
  unfold run.
  rewrite M_bind_eq, (load_file_result pickle_teamsvecs).
  destruct (load_file pickle_teamsvecs fteamsvecs s).1 as [teamsvecs|e]; [|done].
  rewrite M_bind_eq, (load_file_result json_splits).
  destruct (load_file json_splits fsplits s).1 as [splits|e]; [|done].
  rewrite M_bind_eq, (load_file_result torch_preds).
  destruct (load_file torch_preds fpreds s).1 as [preds|e]; [|done].
  clear Hnone. rewrite M_bind_eq. unfold labels_stage.
  erewrite try_except_Ok; last first.
  { unfold load_labels. rewrite M_bind_eq, Hstats, M_bind_eq, Hlabels. reflexivity. }
  cbv beta iota zeta. rewrite M_bind_eq.
  set (ratios' := if py_not_ratios ratios then _ else _).
  set (new_output := new_output_of output fpreds).
  pose proof (rerank_stage_enters preds labels new_output ratios' algorithm k_max s)
    as (lB & HcB & HfB).
  pose proof (rerank_stage_footprint preds labels new_output ratios' algorithm k_max s)
    as FB.
  destruct (rerank_stage preds labels new_output ratios' algorithm k_max s)
    as [[[reranked_idx probs]|e] sB]; simpl in HcB, FB; last first.
  { exists lB. split; [done|]. among. }
  cbv beta iota. rewrite M_bind_eq.
  pose proof (faireval_stage_enters preds labels reranked_idx ratios' new_output
                algorithm k_max sB) as (lC & HcC & HfC).
  pose proof (faireval_stage_footprint preds labels reranked_idx ratios' new_output
                algorithm k_max sB) as FC.
  destruct (faireval_stage preds labels reranked_idx ratios' new_output algorithm
              k_max sB) as [[[]|e] sC]; simpl in HcC, FC; last first.
  { exists (lB ++ lC). split; [simpl; by rewrite HcC, HcB, app_assoc|].
    apply Forall_app. split; among. }
  cbv beta iota. rewrite M_bind_eq. unfold reranked_preds_stage.
  assert (PsparseC : checkpoint_present pickle_reranked_preds
            (reranked_preds_pkl output algorithm k_max) sC = true).
  { subst new_output. carry FC. carry FB. exact Psparse. }
  apply load_file_present in PsparseC as [sparse Hsparse].
  erewrite try_except_Ok; [|exact Hsparse].
  cbv beta iota. rewrite M_bind_eq.
  pose proof (utility_before_stage_enters teamsvecs sparse preds splits
                utility_metrics new_output algorithm k_max sC) as (lE & HcE & HfE).
  destruct (utility_before_stage teamsvecs sparse preds splits utility_metrics
              new_output algorithm k_max sC) as [[[]|e] sE]; simpl in HcE; last first.
  { exists (lB ++ lC ++ lE). split; [simpl; by rewrite HcE, HcC, HcB, !app_assoc|].
    rewrite !Forall_app. split_and!; among. }
  cbv beta iota.
  pose proof (utility_after_stage_enters teamsvecs sparse preds splits
                utility_metrics new_output algorithm k_max sE) as (lF & HcF & HfF).
  exists (lB ++ lC ++ lE ++ lF). split; [simpl; by rewrite HcF, HcE, HcC, HcB, !app_assoc|].
  rewrite !Forall_app. split_and!; among.
Qed.

(** ** The stages of a run *)

(** [run] is its three loads, the labels stage and the stages after it. *)
Lemma run_stages fpreds output fteamsvecs fsplits ratios fairness_metric
    utility_metrics algorithm k_max :
  run fpreds output fteamsvecs fsplits ratios fairness_metric utility_metrics
      algorithm k_max
  = (teamsvecs ← load_file pickle_teamsvecs fteamsvecs;
     splits ← load_file json_splits fsplits;
     preds ← load_file torch_preds fpreds;
     labels_stage teamsvecs output
       ≫= after_labels teamsvecs splits preds ratios utility_metrics fpreds output
                       algorithm k_max).
Proof. reflexivity. Qed.

(** Once its three inputs are loaded, [run] is the labels stage and the
    stages after it. *)
Lemma run_loaded fpreds output fteamsvecs fsplits ratios fairness_metric
    utility_metrics algorithm k_max s teamsvecs splits preds :
  (load_file pickle_teamsvecs fteamsvecs s).1 = Ok teamsvecs →
  (load_file json_splits fsplits s).1 = Ok splits →
  (load_file torch_preds fpreds s).1 = Ok preds →
  run fpreds output fteamsvecs fsplits ratios fairness_metric utility_metrics
      algorithm k_max s
  = (labels_stage teamsvecs output
       ≫= after_labels teamsvecs splits preds ratios utility_metrics fpreds output
                       algorithm k_max) s.
Proof.
  intros Hteamsvecs Hsplits Hpreds. rewrite run_stages.
  rewrite M_bind_eq, (load_file_result pickle_teamsvecs), Hteamsvecs.
  rewrite M_bind_eq, (load_file_result json_splits), Hsplits.
  by rewrite M_bind_eq, (load_file_result torch_preds), Hpreds.
Qed.

(** A [run] that returns went through each of its stages. *)
Lemma run_Ok_inv fpreds output fteamsvecs fsplits ratios fairness_metric
    utility_metrics algorithm k_max s s1 :
  run fpreds output fteamsvecs fsplits ratios fairness_metric utility_metrics
      algorithm k_max s = (Ok (), s1) →
  ∃ teamsvecs splits preds st labels reranked_idx probs sparse sA sB sC sD sE,
    (load_file pickle_teamsvecs fteamsvecs s).1 = Ok teamsvecs ∧
    (load_file json_splits fsplits s).1 = Ok splits ∧
    (load_file torch_preds fpreds s).1 = Ok preds ∧
    labels_stage teamsvecs output s = (Ok (st, labels), sA) ∧
    rerank_stage preds labels (new_output_of output fpreds) (ratios_or_stats ratios st)
                 algorithm k_max sA = (Ok (reranked_idx, probs), sB) ∧
    faireval_stage preds labels reranked_idx (ratios_or_stats ratios st)
                   (new_output_of output fpreds) algorithm k_max sB = (Ok (), sC) ∧
    reranked_preds_stage teamsvecs splits reranked_idx probs output algorithm k_max sC
      = (Ok sparse, sD) ∧
    utility_before_stage teamsvecs sparse preds splits utility_metrics
                         (new_output_of output fpreds) algorithm k_max sD = (Ok (), sE) ∧
    utility_after_stage teamsvecs sparse preds splits utility_metrics
                        (new_output_of output fpreds) algorithm k_max sE = (Ok (), s1).
Proof.
  intros Hrun. rewrite run_stages in Hrun. rewrite M_bind_eq in Hrun.
  destruct (load_file pickle_teamsvecs fteamsvecs s) as [[teamsvecs|e] s0] eqn:Hteamsvecs;
    [|discriminate].
  pose proof (load_file_state pickle_teamsvecs fteamsvecs s) as E.
  rewrite Hteamsvecs in E. simpl in E. subst s0. rewrite M_bind_eq in Hrun.
  destruct (load_file json_splits fsplits s) as [[splits|e] s0] eqn:Hsplits; [|discriminate].
  pose proof (load_file_state json_splits fsplits s) as E.
  rewrite Hsplits in E. simpl in E. subst s0. rewrite M_bind_eq in Hrun.
  destruct (load_file torch_preds fpreds s) as [[preds|e] s0] eqn:Hpreds; [|discriminate].
  pose proof (load_file_state torch_preds fpreds s) as E.
  rewrite Hpreds in E. simpl in E. subst s0. rewrite M_bind_eq in Hrun.
  destruct (labels_stage teamsvecs output s) as [[[st labels]|e] sA] eqn:HA; [|discriminate].
  unfold after_labels in Hrun. rewrite M_bind_eq in Hrun.
  destruct (rerank_stage preds labels (new_output_of output fpreds)
              (ratios_or_stats ratios st) algorithm k_max sA)
    as [[[reranked_idx probs]|e] sB] eqn:HB; [|discriminate].
  unfold after_rerank in Hrun. rewrite M_bind_eq in Hrun.
  destruct (faireval_stage preds labels reranked_idx (ratios_or_stats ratios st)
              (new_output_of output fpreds) algorithm k_max sB)
    as [[[]|e] sC] eqn:HC; [|discriminate].
  unfold after_faireval in Hrun. rewrite M_bind_eq in Hrun.
  destruct (reranked_preds_stage teamsvecs splits reranked_idx probs output algorithm
              k_max sC) as [[sparse|e] sD] eqn:HD; [|discriminate].
  unfold after_reranked_preds in Hrun. rewrite M_bind_eq in Hrun.
  destruct (utility_before_stage teamsvecs sparse preds splits utility_metrics
              (new_output_of output fpreds) algorithm k_max sD)
    as [[[]|e] sE] eqn:HE; [|discriminate].
  exists teamsvecs, splits, preds, st, labels, reranked_idx, probs, sparse, sA, sB, sC, sD, sE.
  by split_and!.
Qed.

Lemma popularity_label_cases threshold n :
  popularity_label threshold n = "p" ∨ popularity_label threshold n = "np".
Proof. unfold popularity_label. destruct (_ <=? _)%float; [by left|by right]. Qed.

(** The two checkpoints of the labels stage load once it has returned,
    for a format of the statistics that loads what it dumps and a format
    of the labels that loads a dumped list of labels ['p'] and ['np']. *)
Lemma labels_stage_shared_present teamsvecs output s v s' :
  loads_own_dump pickle_stats →
  (∀ labels, Forall (λ l, l = "p" ∨ l = "np") labels →
             is_ok (load csv_popularity (dump csv_popularity labels)) = true) →
  labels_stage teamsvecs output s = (Ok v, s') →
  checkpoint_present pickle_stats (stats_pkl output) s' = true ∧
  checkpoint_present csv_popularity (popularity_csv output) s' = true.
Proof.
  intros Hstats Hpopularity. unfold labels_stage, try_except.
  destruct (load_labels output s) as [[v0|e] s0] eqn:Hload.
  - intros [= _ <-]. unfold load_labels in Hload. rewrite M_bind_eq in Hload.
    destruct (load_file pickle_stats _ s) as [[st|e] s1] eqn:Hst; [|discriminate].
    apply load_file_Ok in Hst as [-> Hst]. rewrite M_bind_eq in Hload.
    destruct (load_file csv_popularity _ s) as [[labels|e] s1] eqn:Hl; [|discriminate].
    apply load_file_Ok in Hl as [-> Hl]. by injection Hload as _ <-.
  - destruct (except_FileNotFoundError_EOFError e); [|discriminate].
    rewrite M_bind_eq. unfold lift.
    destruct (py_key teamsvecs "member") as [member|e']; [|discriminate].
    rewrite get_stats_eq. cbv zeta.
    destruct (py_truediv _ _) as [popular_portion|e']; [|discriminate].
    intros [= _ <-]. split.
    + eapply present_written; [done|]. cbn [written files].
      rewrite lookup_insert_ne by paths_apart. apply lookup_insert_eq.
    + unfold checkpoint_present. cbn [written files]. rewrite lookup_insert_eq.
      apply Hpopularity, Forall_forall. intros l (n & -> & _)%list_elem_of_fmap.
      apply popularity_label_cases.
Qed.

(** The three checkpoints that a run keeps under the output directory
    itself, whatever the prediction file, load once the run has returned. *)
Lemma run_Ok_shared_present fpreds output fteamsvecs fsplits ratios fairness_metric
    utility_metrics algorithm k_max s s1 :
  loads_own_dump pickle_stats →
  (∀ labels, Forall (λ l, l = "p" ∨ l = "np") labels →
             is_ok (load csv_popularity (dump csv_popularity labels)) = true) →
  loads_own_dump pickle_reranked_preds →
  run fpreds output fteamsvecs fsplits ratios fairness_metric utility_metrics
      algorithm k_max s = (Ok (), s1) →
  checkpoint_present pickle_stats (stats_pkl output) s1 = true ∧
  checkpoint_present csv_popularity (popularity_csv output) s1 = true ∧
  checkpoint_present pickle_reranked_preds
    (reranked_preds_pkl output algorithm k_max) s1 = true.
Proof.
  intros Hstats Hpopularity Hsparse Hrun.
  destruct (run_Ok_inv _ _ _ _ _ _ _ _ _ _ _ Hrun)
    as (teamsvecs & splits & preds & st & labels & reranked_idx & probs & sparse
        & sA & sB & sC & sD & sE & _ & _ & _ & HA & HB & HC & HD & HE & HF).
  pose proof (rerank_stage_footprint preds labels (new_output_of output fpreds)
                (ratios_or_stats ratios st) algorithm k_max sA) as FB.
  pose proof (faireval_stage_footprint preds labels reranked_idx
                (ratios_or_stats ratios st) (new_output_of output fpreds) algorithm
                k_max sB) as FC.
  pose proof (reranked_preds_stage_footprint teamsvecs splits reranked_idx probs output
                algorithm k_max sC) as FD.
  pose proof (utility_before_stage_footprint teamsvecs sparse preds splits
                utility_metrics (new_output_of output fpreds) algorithm k_max sD) as FE.
  pose proof (utility_after_stage_footprint teamsvecs sparse preds splits
                utility_metrics (new_output_of output fpreds) algorithm k_max sE) as FF.
  rewrite HB in FB. rewrite HC in FC. rewrite HD in FD. rewrite HE in FE.
  rewrite HF in FF. cbn [snd] in FB, FC, FD, FE, FF.
  destruct (labels_stage_shared_present _ _ _ _ _ Hstats Hpopularity HA) as [PA1 PA2].
  pose proof (reranked_preds_stage_present _ _ _ _ _ _ _ _ _ _ Hsparse HD) as PD.
  split_and!.
  - carry FF. carry FE. carry FD. carry FC. carry FB. done.
  - carry FF. carry FE. carry FD. carry FC. carry FB. done.
  - carry FF. carry FE. done.
Qed.

(** X14. Let the statistics and the sparse matrix load from what was
    dumped of them, and a dumped list of labels ['p'] and ['np'] load.
    Once [run] has returned for one prediction file, a run for any other
    prediction file with the same output directory, algorithm and cutoff
    enters neither [get_stats] nor [reranked_preds], whatever its
    predictions, team vectors and splits are: the stage functions it enters
    are among [rerank], [eval_fairness] and [eval_utility]. *)
Theorem run_after_run_skips_shared_stages
    fpreds output fteamsvecs fsplits ratios fairness_metric utility_metrics
    algorithm k_max s s1
    fpreds' fteamsvecs' fsplits' ratios' fairness_metric' utility_metrics' :
  loads_own_dump pickle_stats →
  (∀ labels, Forall (λ l, l = "p" ∨ l = "np") labels →
             is_ok (load csv_popularity (dump csv_popularity labels)) = true) →
  loads_own_dump pickle_reranked_preds →
  run fpreds output fteamsvecs fsplits ratios fairness_metric utility_metrics
      algorithm k_max s = (Ok (), s1) →
  ∃ l, calls (run fpreds' output fteamsvecs' fsplits' ratios' fairness_metric'
                  utility_metrics' algorithm k_max s1).2 = calls s1 ++ l ∧
       Forall (λ x, x ∈ ["rerank"; "eval_fairness"; "eval_utility"]) l.
Proof.
  intros D1 D2 D3 Hrun.
  destruct (run_Ok_shared_present _ _ _ _ _ _ _ _ _ _ _ D1 D2 D3 Hrun)
    as (Pstats & Plabels & Psparse).
  by apply run_with_shared_checkpoints.
Qed.

(** ** The checkpoints of two prediction files *)

(** [str(k_max)] ends in a digit or is [None]. *)
Lemma pretty_N_go_ending x s : ∃ pre, pretty_N_go x s = pre +:+ s.
Proof.
  revert s. induction (N.lt_wf_0 x) as [x _ IH]. intros s.
  assert (x = 0 ∨ 0 < x)%N as [->|Hx] by lia.
  - exists "". by rewrite pretty_N_go_0.
  - rewrite pretty_N_go_step by done.
    destruct (IH (x `div` 10)%N) with (s := String (pretty_N_char (x `mod` 10)) s)
      as [pre ->]; [by apply N.div_lt|].
    exists (pre +:+ String (pretty_N_char (x `mod` 10)) ""). by rewrite string_app_assoc.
Qed.

Lemma pretty_Z_ending (k : Z) :
  ∃ pre n, pretty k = pre +:+ String (pretty_N_char n) "".
Proof.
  assert (Hpos : ∀ q : positive,
            ∃ pre n, pretty q = pre +:+ String (pretty_N_char n) "").
  { intros q. unfold pretty, pretty_positive, pretty, pretty_N.
    destruct (decide (N.pos q = 0%N)) as [|_]; [done|].
    rewrite pretty_N_go_step by lia.
    destruct (pretty_N_go_ending (N.pos q `div` 10)%N
                (String (pretty_N_char (N.pos q `mod` 10)) "")) as [pre ->].
    by exists pre, (N.pos q `mod` 10)%N. }
  destruct k as [|q|q].
  - by exists "", 0%N.
  - apply Hpos.
  - destruct (Hpos q) as (pre & n & Hq). exists ("-" +:+ pre), n.
    change (pretty (Z.neg q)) with ("-" +:+ pretty q). by rewrite Hq.
Qed.

Lemma str_k_max_csv_apart (x y : string) (k_max : option Z) (word : string) :
  word = "before.csv" ∨ word = "after.csv" →
  x +:+ str_k_max k_max +:+ ".csv" ≠ y +:+ word.
Proof.
  intros Hword Heq. destruct k_max as [k|]; unfold str_k_max in Heq.
  - destruct (pretty_Z_ending k) as (pre & n & Hk). rewrite Hk in Heq.
    rewrite string_app_assoc, <- string_app_assoc in Heq.
    change (String (pretty_N_char n) "" +:+ ".csv")
      with (String (pretty_N_char n) ".csv") in Heq.
    destruct Hword as [-> | ->].
    + revert Heq. change "before.csv" with ("befor" +:+ "e.csv").
      rewrite <- (string_app_assoc y). apply string_app_suffix_apart; [done|].
      unfold pretty_N_char. by repeat case_match.
    + revert Heq. change "after.csv" with ("afte" +:+ "r.csv").
      rewrite <- (string_app_assoc y). apply string_app_suffix_apart; [done|].
      unfold pretty_N_char. by repeat case_match.
  - change ("None" +:+ ".csv") with "None.csv" in Heq. destruct Hword as [-> | ->].
    + revert Heq. change "before.csv" with ("be" +:+ "fore.csv").
      rewrite <- (string_app_assoc y). by apply string_app_suffix_apart.
    + revert Heq. change "after.csv" with ("a" +:+ "fter.csv").
      rewrite <- (string_app_assoc y). by apply string_app_suffix_apart.
Qed.

Lemma rerank_faireval_apart (n1 n2 rest : string) :
  n1 +:+ ".rerank." +:+ rest ≠ n2 +:+ ".faireval." +:+ rest.
Proof.
  intros Heq.
  apply (string_app_suffix_apart (n1 +:+ ".reran") (n2 +:+ ".faireva")
                                 ("k." +:+ rest) ("l." +:+ rest)).
  - done.
  - intros H. cbv beta iota delta [String.append] in H. discriminate.
  - rewrite !string_app_assoc. exact Heq.
Qed.

Lemma scored_before_apart (n1 n2 kind algorithm : string) k_max :
  n1 +:+ kind +:+ algorithm +:+ "." +:+ str_k_max k_max +:+ ".csv"
    ≠ n2 +:+ ".utilityeval.before.csv".
Proof.
  intros Heq.
  apply (str_k_max_csv_apart (n1 +:+ kind +:+ algorithm +:+ ".") (n2 +:+ ".utilityeval.")
                             k_max "before.csv"); [by left|].
  rewrite !string_app_assoc. exact Heq.
Qed.

Lemma scored_after_apart (n1 n2 kind algorithm : string) k_max :
  n1 +:+ kind +:+ algorithm +:+ "." +:+ str_k_max k_max +:+ ".csv"
    ≠ n2 +:+ ".utilityeval." +:+ algorithm +:+ "." +:+ str_k_max k_max +:+ ".after.csv".
Proof.
  intros Heq.
  apply (str_k_max_csv_apart (n1 +:+ kind +:+ algorithm +:+ ".")
           (n2 +:+ ".utilityeval." +:+ algorithm +:+ "." +:+ str_k_max k_max +:+ ".")
           k_max "after.csv"); [by right|].
  rewrite !string_app_assoc. exact Heq.
Qed.

Lemma before_after_apart (n1 n2 algorithm : string) k_max :
  n1 +:+ ".utilityeval.before.csv"
    ≠ n2 +:+ ".utilityeval." +:+ algorithm +:+ "." +:+ str_k_max k_max +:+ ".after.csv".
Proof.
  intros Heq.
  apply (string_app_suffix_apart (n1 +:+ ".utilityeval.befor")
           (n2 +:+ ".utilityeval." +:+ algorithm +:+ "." +:+ str_k_max k_max +:+ ".afte")
           "e.csv" "r.csv"); [done|done|].
  rewrite !string_app_assoc. exact Heq.
Qed.

(** Two checkpoints of different kinds, of whatever prediction files. *)
Ltac apart_across :=
  let H := fresh "H" in
  intros H; unfold_paths; rewrite ?string_app_assoc in H;
  repeat (apply String.app_inj in H);
  first [ exact (rerank_faireval_apart _ _ _ H)
        | exact (rerank_faireval_apart _ _ _ (eq_sym H))
        | exact (scored_before_apart _ _ _ _ _ H)
        | exact (scored_before_apart _ _ _ _ _ (eq_sym H))
        | exact (scored_after_apart _ _ _ _ _ H)
        | exact (scored_after_apart _ _ _ _ _ (eq_sym H))
        | exact (before_after_apart _ _ _ _ H)
        | exact (before_after_apart _ _ _ _ (eq_sym H)) ].

Lemma per_file_paths_apart fpreds fpreds' output algorithm k_max p :
  os_path_split_tail fpreds ≠ os_path_split_tail fpreds' →
  p ∈ per_file_paths fpreds' output algorithm k_max →
  p ∉ run_paths fpreds output algorithm k_max.
Proof.
  intros Hne Hp.
  destruct (per_file_checkpoints_apart output fpreds' fpreds algorithm k_max)
    as (R & F & B & A); [done|].
  unfold per_file_paths in Hp. rewrite !elem_of_cons, elem_of_nil in Hp.
  unfold run_paths.
  destruct Hp as [-> | [-> | [-> | [-> | []]]]];
    rewrite !not_elem_of_cons; split_and!;
    first [ apply not_elem_of_nil | assumption | paths_apart | apart_across ].
Qed.

(** X15. A run for one prediction file leaves the four checkpoints of every
    prediction file of another name as they are, under one output
    directory, algorithm and cutoff: their paths are none of the paths the
    run writes. *)
Theorem run_leaves_other_prediction_files
    fpreds fpreds' output fteamsvecs fsplits ratios fairness_metric utility_metrics
    algorithm k_max s p :
  os_path_split_tail fpreds ≠ os_path_split_tail fpreds' →
  p ∈ per_file_paths fpreds' output algorithm k_max →
  (p ∉ run_paths fpreds output algorithm k_max) ∧
  files (run fpreds output fteamsvecs fsplits ratios fairness_metric utility_metrics
             algorithm k_max s).2 !! p = files s !! p.
Proof.
  intros Hne Hp.
  assert (Hout : p ∉ run_paths fpreds output algorithm k_max)
    by (eapply per_file_paths_apart; eassumption).
  split; [done|]. by apply run_writes_only.
Qed.

(** ** The sequential driver *)

Lemma writes_only_mapM_each {A B} (paths : A → list string) (f : A → M B) l :
  (∀ x, writes_only (paths x) (f x)) →
  writes_only (concat (map paths l)) (mapM f l).
Proof.
  intros Hf. induction l as [|x l IH]; [apply writes_only_ret|].
  cbn [map concat]. apply writes_only_bind.
  - eapply writes_only_weaken; [|apply Hf]. intros p Hp. apply elem_of_app. by left.
  - intros y. apply writes_only_bind; [|intros k; apply writes_only_ret].
    eapply writes_only_weaken; [|apply IH]. intros p Hp. apply elem_of_app. by right.
Qed.

(** X16. The sequential driver changes no file other than the eight paths
    of each prediction file it was given, with the default algorithm and
    cutoff of [run]; this holds whether it returns or raises. *)
Theorem main_sequential_footprint (a : args) (files_found : list pred_file)
    (s : state) (p : string) :
  p ∉ driver_paths files_found →
  files (main_sequential a files_found s).2 !! p = files s !! p.
Proof.
  revert s p. change (writes_only (driver_paths files_found)
                                  (main_sequential a files_found)).
  unfold main_sequential.
  apply writes_only_bind; [apply writes_only_lift|]. intros _.
  apply writes_only_bind; [|intros _; apply writes_only_ret].
  apply writes_only_mapM_each. intros row. apply run_writes_only.
Qed.

(** ** A checkpoint that fails to load, inside a run *)

(** C2, as the code has it, on [run] itself. Let [run] have loaded its
    three inputs and resolved the stages before the one at hand. In the
    rerank, fairness-evaluation and sparse-reconstruction stages, when
    loading the checkpoint raises [FileNotFoundError], [run] goes on as the
    fresh computation on what the stages before have resolved, followed by
    the stages after; when the loader raises anything else, [run] raises
    it, in the state the stage was reached in. In the two utility stages,
    whatever the loader raises, [run] goes on as the fresh evaluation. A
    fresh computation that returns has written its checkpoint. *)
Theorem stage_on_load_failure
    (fpreds output fteamsvecs fsplits : string) (ratios : ratios_t)
    (fairness_metric utility_metrics : list string) (algorithm : string)
    (k_max : option Z) (s : state)
    (teamsvecs : gmap string matrix) (member : matrix)
    (splits : gmap string (list Z)) (preds : list (list float)) :
  (load_file pickle_teamsvecs fteamsvecs s).1 = Ok teamsvecs →
  (load_file json_splits fsplits s).1 = Ok splits →
  (load_file torch_preds fpreds s).1 = Ok preds →
  teamsvecs !! "member" = Some member →
  ∀ st labels sA,
    labels_stage teamsvecs output s = (Ok (st, labels), sA) →
    (∀ e, (load_rerank (new_output_of output fpreds) algorithm k_max sA).1 = Raise e →
       (e ≠ FileNotFoundError →
        run fpreds output fteamsvecs fsplits ratios fairness_metric utility_metrics
            algorithm k_max s = (Raise e, sA)) ∧
       (e = FileNotFoundError →
        run fpreds output fteamsvecs fsplits ratios fairness_metric utility_metrics
            algorithm k_max s
        = (rerank preds labels (new_output_of output fpreds) (ratios_or_stats ratios st)
                  algorithm k_max
             ≫= after_rerank teamsvecs splits preds labels (ratios_or_stats ratios st)
                             utility_metrics output (new_output_of output fpreds)
                             algorithm k_max) sA)) ∧
    (∀ r sB,
       rerank preds labels (new_output_of output fpreds) (ratios_or_stats ratios st)
              algorithm k_max sA = (Ok r, sB) →
       files sB !! rerank_csv (new_output_of output fpreds) algorithm k_max
         = Some (dump csv_rerank r)) ∧
    ∀ reranked_idx probs sB,
      rerank_stage preds labels (new_output_of output fpreds) (ratios_or_stats ratios st)
                   algorithm k_max sA = (Ok (reranked_idx, probs), sB) →
      (∀ e, (load_faireval (new_output_of output fpreds) algorithm k_max sB).1 = Raise e →
         (e ≠ FileNotFoundError →
          run fpreds output fteamsvecs fsplits ratios fairness_metric utility_metrics
              algorithm k_max s = (Raise e, sB)) ∧
         (e = FileNotFoundError →
          run fpreds output fteamsvecs fsplits ratios fairness_metric utility_metrics
              algorithm k_max s
          = (eval_fairness preds labels reranked_idx (ratios_or_stats ratios st)
                           (new_output_of output fpreds) algorithm k_max;;
             after_faireval teamsvecs splits preds reranked_idx probs utility_metrics
                            output (new_output_of output fpreds) algorithm k_max) sB)) ∧
      (∀ dic sC,
         eval_fairness preds labels reranked_idx (ratios_or_stats ratios st)
                       (new_output_of output fpreds) algorithm k_max sB = (Ok dic, sC) →
         files sC !! faireval_csv (new_output_of output fpreds) algorithm k_max
           = Some (dump csv_faireval dic)) ∧
      ∀ sC,
        faireval_stage preds labels reranked_idx (ratios_or_stats ratios st)
                       (new_output_of output fpreds) algorithm k_max sB = (Ok (), sC) →
        (∀ e, (load_reranked_preds output algorithm k_max sC).1 = Raise e →
           (e ≠ FileNotFoundError →
            run fpreds output fteamsvecs fsplits ratios fairness_metric utility_metrics
                algorithm k_max s = (Raise e, sC)) ∧
           (e = FileNotFoundError →
            run fpreds output fteamsvecs fsplits ratios fairness_metric utility_metrics
                algorithm k_max s
            = (sparse ← reranked_preds member splits reranked_idx probs output
                                       algorithm k_max;
               after_reranked_preds teamsvecs sparse preds splits utility_metrics
                                    (new_output_of output fpreds) algorithm k_max) sC)) ∧
        (∀ m sD,
           reranked_preds member splits reranked_idx probs output algorithm k_max sC
             = (Ok m, sD) →
           files sD !! reranked_preds_pkl output algorithm k_max
             = Some (dump pickle_reranked_preds m)) ∧
        ∀ sparse sD,
          reranked_preds_stage teamsvecs splits reranked_idx probs output algorithm
                               k_max sC = (Ok sparse, sD) →
          (∀ e, (load_utility_before (new_output_of output fpreds) sD).1 = Raise e →
             run fpreds output fteamsvecs fsplits ratios fairness_metric utility_metrics
                 algorithm k_max s
             = (eval_utility member sparse preds splits utility_metrics
                             (new_output_of output fpreds) algorithm
                             ["after"; "before"] k_max;;
                utility_after_stage teamsvecs sparse preds splits utility_metrics
                                    (new_output_of output fpreds) algorithm k_max) sD) ∧
          (∀ sE,
             eval_utility member sparse preds splits utility_metrics
                          (new_output_of output fpreds) algorithm ["after"; "before"]
                          k_max sD = (Ok (), sE) →
             is_Some (files sE !! utilityeval_before_csv (new_output_of output fpreds)) ∧
             is_Some (files sE !! utilityeval_after_csv (new_output_of output fpreds)
                                                         algorithm k_max)) ∧
          ∀ sE,
            utility_before_stage teamsvecs sparse preds splits utility_metrics
                                 (new_output_of output fpreds) algorithm k_max sD
              = (Ok (), sE) →
            (∀ e, (load_utility_after (new_output_of output fpreds) algorithm k_max
                                      sE).1 = Raise e →
               run fpreds output fteamsvecs fsplits ratios fairness_metric
                   utility_metrics algorithm k_max s
               = eval_utility member sparse preds splits utility_metrics
                              (new_output_of output fpreds) algorithm ["after"] k_max
                              sE) ∧
            (∀ sF,
               eval_utility member sparse preds splits utility_metrics
                            (new_output_of output fpreds) algorithm ["after"] k_max sE
                 = (Ok (), sF) →
               is_Some (files sF !! utilityeval_after_csv (new_output_of output fpreds)
                                                           algorithm k_max)).
Proof.
  intros Hteamsvecs Hsplits Hpreds Hmember st labels sA HA.
  pose proof (run_loaded fpreds output fteamsvecs fsplits ratios fairness_metric
                utility_metrics algorithm k_max s teamsvecs splits preds
                Hteamsvecs Hsplits Hpreds) as Hrun.
  rewrite M_bind_eq, HA in Hrun. unfold after_labels in Hrun.
  set (new_output := new_output_of output fpreds) in *.
  set (ratios' := ratios_or_stats ratios st) in *.
  assert (Hwrappers := λ reranked_idx probs sparse s0 e,
            stage_wrappers_on_load_failure teamsvecs member splits preds labels ratios'
              reranked_idx probs sparse utility_metrics output new_output algorithm
              k_max s0 e Hmember).
  split_and!.
  - intros e Hload.
    destruct (Hwrappers [] [] {| csr_shape := (0%nat, 0%nat); csr_entries := [] |} sA e)
      as ([Hfresh Hraise] & _); [done|].
    split; intros He; rewrite Hrun, M_bind_eq.
    + by rewrite (Hraise He).
    + by rewrite (Hfresh He), <- M_bind_eq.
  - apply rerank_persists.
  - intros reranked_idx probs sB HB.
    rewrite M_bind_eq, HB in Hrun. unfold after_rerank in Hrun.
    split_and!.
    + intros e Hload.
      destruct (Hwrappers reranked_idx probs
                  {| csr_shape := (0%nat, 0%nat); csr_entries := [] |} sB e)
        as (_ & [Hfresh Hraise] & _); [done|].
      split; intros He; rewrite Hrun, M_bind_eq.
      * by rewrite (Hraise He).
      * rewrite (Hfresh He). symmetry. rewrite M_bind_eq.
        rewrite M_bind_eq.
        by destruct (eval_fairness _ _ _ _ _ _ _ sB) as [[dic|e'] s'].
    + apply eval_fairness_persists.
    + intros sC HC. rewrite M_bind_eq, HC in Hrun. unfold after_faireval in Hrun.
      split_and!.
      * intros e Hload.
        destruct (Hwrappers reranked_idx probs
                    {| csr_shape := (0%nat, 0%nat); csr_entries := [] |} sC e)
          as (_ & _ & [Hfresh Hraise] & _); [done|].
        split; intros He; rewrite Hrun, M_bind_eq.
        -- by rewrite (Hraise He).
        -- by rewrite (Hfresh He), <- M_bind_eq.
      * apply reranked_preds_persists.
      * intros sparse sD HD. rewrite M_bind_eq, HD in Hrun.
        unfold after_reranked_preds in Hrun.
        destruct (Hwrappers reranked_idx probs sparse sD "")
          as (_ & _ & _ & _ & _ & _ & _ & _ & Hboth & _).
        split_and!.
        -- intros e Hload.
           destruct (Hwrappers reranked_idx probs sparse sD e)
             as (_ & _ & _ & Hfresh & _).
           rewrite Hrun, M_bind_eq, (Hfresh Hload). by rewrite <- M_bind_eq.
        -- apply Hboth.
        -- intros sE HE. rewrite M_bind_eq, HE in Hrun.
           destruct (Hwrappers reranked_idx probs sparse sE "")
             as (_ & _ & _ & _ & Hfresh & _ & _ & _ & _ & Hafter).
           split.
           ++ intros e Hload.
              destruct (Hwrappers reranked_idx probs sparse sE e)
                as (_ & _ & _ & _ & Hfresh' & _).
              by rewrite Hrun, (Hfresh' Hload).
           ++ apply Hafter.
Qed.

(** ** The coefficient of a run *)




(** ** The driver and a file that fails *)





End Footprints.

(** * Further concrete runs *)

Module MoreRuns.
Import Example.

Ltac decided := apply (bool_decide_unpack _); vm_compute; exact I.

Lemma fixed_codec_loads_own_dump {A} (tag : string) (value : A) (on_empty : exn) :
  is_ok (load (fixed_codec tag value on_empty) tag) = true →
  loads_own_dump (fixed_codec tag value on_empty).
Proof. intros Hload v. exact Hload. Qed.

(** C2, witness: on the inputs with an empty rerank checkpoint, [run]
    raises the loader's exception where the labels stage left it; on the
    inputs alone it goes on as [rerank]; without the table of the utility
    evaluation "before" it goes on as [eval_utility]. *)
Lemma stage_on_load_failure_witness :
  (∃ st labels sA,
     labels_stage (collaborators := collaborators [1; 0]) teamsvecs_value "out/rerank/"
                  truncated_rerank = (Ok (st, labels), sA) ∧
     run (collaborators := collaborators [1; 0])
         "out/f0.test.pred" "out/rerank/" "teamsvecs.pkl" "splits.json"
         RatiosNone ["ndkl"] ["map_cut_2,5,10"] "det_cons" None truncated_rerank
     = (Raise "EmptyDataError", sA)) ∧
  (∃ st labels sA,
     labels_stage (collaborators := collaborators [1; 0]) teamsvecs_value "out/rerank/"
                  (no_calls inputs) = (Ok (st, labels), sA) ∧
     run (collaborators := collaborators [1; 0])
         "out/f0.test.pred" "out/rerank/" "teamsvecs.pkl" "splits.json"
         RatiosNone ["ndkl"] ["map_cut_2,5,10"] "det_cons" None (no_calls inputs)
     = (rerank (collaborators := collaborators [1; 0]) preds_value labels
               (new_output_of "out/rerank/" "out/f0.test.pred")
               (ratios_or_stats RatiosNone st) "det_cons" None
          ≫= after_rerank (collaborators := collaborators [1; 0]) teamsvecs_value
                          splits_value preds_value labels (ratios_or_stats RatiosNone st)
                          ["map_cut_2,5,10"] "out/rerank/"
                          (new_output_of "out/rerank/" "out/f0.test.pred")
                          "det_cons" None) sA) ∧
  run (collaborators := collaborators [1; 0])
      "out/f0.test.pred" "out/rerank/" "teamsvecs.pkl" "splits.json"
      RatiosNone ["ndkl"] ["map_cut_2,5,10"] "det_cons" None without_utility_before
  = (eval_utility (collaborators := collaborators [1; 0]) members_8_2
                  {| csr_shape := (2%nat, 2%nat); csr_entries := [] |} preds_value
                  splits_value ["map_cut_2,5,10"]
                  (new_output_of "out/rerank/" "out/f0.test.pred") "det_cons"
                  ["after"; "before"] None;;
     utility_after_stage (collaborators := collaborators [1; 0]) teamsvecs_value
                  {| csr_shape := (2%nat, 2%nat); csr_entries := [] |} preds_value
                  splits_value ["map_cut_2,5,10"]
                  (new_output_of "out/rerank/" "out/f0.test.pred") "det_cons" None)
      without_utility_before.
Proof.
  split_and!.
  - destruct (labels_stage (collaborators := collaborators [1; 0]) teamsvecs_value
                "out/rerank/" truncated_rerank) as [[[st labels]|e] sA] eqn:HA.
    + exists st, labels, sA. split; [reflexivity|].
      assert (sA = (labels_stage (collaborators := collaborators [1; 0]) teamsvecs_value
                      "out/rerank/" truncated_rerank).2) as HsA by (by rewrite HA).
      destruct (stage_on_load_failure (collaborators := collaborators [1; 0])
                  "out/f0.test.pred" "out/rerank/" "teamsvecs.pkl" "splits.json"
                  RatiosNone ["ndkl"] ["map_cut_2,5,10"] "det_cons" None truncated_rerank
                  teamsvecs_value members_8_2 splits_value preds_value)
        with (st := st) (labels := labels) (sA := sA) as (Hrerank & _);
        [vm_compute; reflexivity..|exact HA|].
      destruct (Hrerank "EmptyDataError") as [Hraise _];
        [rewrite HsA; vm_compute; reflexivity|].
      apply Hraise. discriminate.
    + exfalso. vm_compute in HA. discriminate HA.
  - destruct (labels_stage (collaborators := collaborators [1; 0]) teamsvecs_value
                "out/rerank/" (no_calls inputs)) as [[[st labels]|e] sA] eqn:HA.
    + exists st, labels, sA. split; [reflexivity|].
      assert (sA = (labels_stage (collaborators := collaborators [1; 0]) teamsvecs_value
                      "out/rerank/" (no_calls inputs)).2) as HsA by (by rewrite HA).
      destruct (stage_on_load_failure (collaborators := collaborators [1; 0])
                  "out/f0.test.pred" "out/rerank/" "teamsvecs.pkl" "splits.json"
                  RatiosNone ["ndkl"] ["map_cut_2,5,10"] "det_cons" None (no_calls inputs)
                  teamsvecs_value members_8_2 splits_value preds_value)
        with (st := st) (labels := labels) (sA := sA) as (Hrerank & _);
        [vm_compute; reflexivity..|exact HA|].
      destruct (Hrerank FileNotFoundError) as [_ Hfresh];
        [rewrite HsA; vm_compute; reflexivity|].
      apply Hfresh. reflexivity.
    + exfalso. vm_compute in HA. discriminate HA.
  - destruct (stage_on_load_failure (collaborators := collaborators [1; 0])
                "out/f0.test.pred" "out/rerank/" "teamsvecs.pkl" "splits.json"
                RatiosNone ["ndkl"] ["map_cut_2,5,10"] "det_cons" None
                without_utility_before teamsvecs_value members_8_2 splits_value
                preds_value)
      with (st := {| nmembers := 2; nteams_candidate_idx := [(0%nat, 8); (1%nat, 2)];
                     avg_nteams_member := 5%float;
                     popularity_ratio := (0.5, 0.5)%float |})
           (labels := ["p"; "np"]) (sA := without_utility_before) as (_ & _ & HB);
      [vm_compute; reflexivity..|].
    destruct (HB [[1; 0]; [0; 1]] [[0.75; 0.25]; [0.5; 0.125]]%float
                 without_utility_before) as (_ & _ & HC); [vm_compute; reflexivity|].
    destruct (HC without_utility_before) as (_ & _ & HD); [vm_compute; reflexivity|].
    destruct (HD {| csr_shape := (2%nat, 2%nat); csr_entries := [] |}
                 without_utility_before) as (Hbefore & _); [vm_compute; reflexivity|].
    apply (Hbefore FileNotFoundError). vm_compute; reflexivity.
Defined.



(** X2, witness: the ten teams of the example. *)
Lemma get_stats_histogram_witness :
  ∃ st labels s',
    get_stats (collaborators := collaborators []) members_8_2 1%float "out/" (no_calls ∅)
      = (Ok (st, labels), s') ∧
    (nteams_candidate_idx st).*2 ≡ₚ sum_axis0 members_8_2 ∧
    Sorted (λ x y, y ≤ x) (nteams_candidate_idx st).*2 ∧
    (nteams_candidate_idx st).*1 = seq 0 (shape1 members_8_2) ∧
    nmembers st = shape1 members_8_2.
Proof.
  destruct (get_stats (collaborators := collaborators []) members_8_2 1%float "out/"
                      (no_calls ∅)) as [[[st labels]|e] s'] eqn:Hrun.
  - exists st, labels, s'. split; [reflexivity|].
    exact (get_stats_histogram (collaborators := collaborators [])
             members_8_2 1%float "out/" (no_calls ∅) st labels s' Hrun).
  - exfalso. vm_compute in Hrun. discriminate Hrun.
Defined.

(** X3, witness: a team of two with one label, and with two. *)
Lemma member_popularity_probs_table_witness :
  member_popularity_probs ["p"] [0.25; 0.75]%float = Raise IndexError ∧
  ∃ table,
    member_popularity_probs ["p"; "np"] [0.25; 0.75]%float = Ok table ∧
    table.*1.*1 ≡ₚ seq 0 2 ∧
    Forall (λ x, ["p"; "np"] !! x.1.1 = Some x.1.2 ∧
                 [0.25; 0.75]%float !! x.1.1 = Some x.2) table.
Proof.
  split.
  - apply (proj1 (member_popularity_probs_table ["p"] [0.25; 0.75]%float)).
    simpl; lia.
  - apply (proj2 (member_popularity_probs_table ["p"; "np"] [0.25; 0.75]%float)).
    simpl; lia.
Defined.

(** X4, witness: the two teams of the example. *)
Lemma rerank_output_aligned_witness :
  ∃ idx probs,
    (rerank (collaborators := collaborators [1; 0]) preds_value ["p"; "np"]
            "out/rerank//f0.test.pred" RatiosNone "det_cons" None (no_calls inputs)).1
      = Ok (idx, probs) ∧
    length idx = length preds_value ∧
    length probs = length preds_value ∧
    Forall2 (λ ids ps, length ids = length ps) idx probs ∧
    Forall2 (λ team ps, Forall (λ v, v ∈ team) ps) preds_value probs.
Proof.
  destruct (rerank (collaborators := collaborators [1; 0]) preds_value ["p"; "np"]
              "out/rerank//f0.test.pred" RatiosNone "det_cons" None (no_calls inputs)).1
    as [[idx probs]|e] eqn:Hrun.
  - exists idx, probs. split; [reflexivity|].
    exact (rerank_output_aligned (collaborators := collaborators [1; 0])
             preds_value ["p"; "np"] "out/rerank//f0.test.pred" RatiosNone "det_cons"
             None (no_calls inputs) idx probs Hrun).
  - exfalso. vm_compute in Hrun. discriminate Hrun.
Defined.

(** X5, witness: without labels [rerank] raises, and the inputs are as
    they were. *)
Lemma rerank_files_witness :
  files (rerank (collaborators := collaborators [1; 0]) preds_value []
                "out/rerank//f0.test.pred" RatiosNone "det_cons" None (no_calls inputs)).2
    !! "out/f0.test.pred" = files (no_calls inputs) !! "out/f0.test.pred".
Proof.
  destruct (rerank_files (collaborators := collaborators [1; 0]) preds_value []
              "out/rerank//f0.test.pred" RatiosNone "det_cons" None (no_calls inputs))
    as (_ & Hfail & _).
  apply Hfail; [vm_compute; reflexivity|]. intros H. vm_compute in H. discriminate H.
Defined.

(** X6, witness: two teams with one reranked row, and with two. *)
Lemma eval_fairness_rows_witness :
  is_ok (eval_fairness (collaborators := collaborators [1; 0]) preds_value ["p"; "np"]
           [[1; 0]] RatiosNone "out/rerank//f0.test.pred" "det_cons" None
           (no_calls inputs)).1 = false ∧
  ∃ dic s',
    eval_fairness (collaborators := collaborators [1; 0]) preds_value ["p"; "np"]
      [[1; 0]; [0; 1]] RatiosNone "out/rerank//f0.test.pred" "det_cons" None
      (no_calls inputs) = (Ok dic, s') ∧
    length (ndkl_before dic) = length preds_value ∧
    length (ndkl_after dic) = length preds_value.
Proof.
  split.
  - apply (proj1 (eval_fairness_rows (collaborators := collaborators [1; 0])
                    preds_value ["p"; "np"] [[1; 0]] RatiosNone
                    "out/rerank//f0.test.pred" "det_cons" None (no_calls inputs))).
    simpl; lia.
  - destruct (eval_fairness (collaborators := collaborators [1; 0]) preds_value
                ["p"; "np"] [[1; 0]; [0; 1]] RatiosNone "out/rerank//f0.test.pred"
                "det_cons" None (no_calls inputs)) as [[dic|e] s'] eqn:Hrun.
    + exists dic, s'. split; [reflexivity|].
      destruct (proj2 (eval_fairness_rows (collaborators := collaborators [1; 0])
                         preds_value ["p"; "np"] [[1; 0]; [0; 1]] RatiosNone
                         "out/rerank//f0.test.pred" "det_cons" None (no_calls inputs))
                      dic s' Hrun) as (Hbefore & Hafter & _).
      split; [exact Hbefore|exact Hafter].
    + exfalso. vm_compute in Hrun. discriminate Hrun.
Defined.

(** X7, witness: splits without a test entry; a candidate index 5 where
    the membership matrix has two columns; and the index 2^63. *)
Lemma reranked_preds_failures_witness :
  (reranked_preds (collaborators := collaborators [1; 0]) members_8_2 ∅
                  [[1; 0]] [[0.75; 0.25]]%float "out/rerank/" "det_cons" None
                  (no_calls inputs)).1 = Raise KeyError ∧
  (reranked_preds (collaborators := collaborators [1; 0]) members_8_2 splits_value
                  [[5]] [[0.5]]%float "out/rerank/" "det_cons" None
                  (no_calls inputs)).1 = Raise ValueError ∧
  (reranked_preds (collaborators := collaborators [1; 0]) members_8_2 splits_value
                  [[0; 2 ^ 63]] [[0.5; 0.5]]%float "out/rerank/" "det_cons" None
                  (no_calls inputs)).1 = Raise OverflowError ∧
  files (reranked_preds (collaborators := collaborators [1; 0]) members_8_2 splits_value
                        [[5]] [[0.5]]%float "out/rerank/" "det_cons" None
                        (no_calls inputs)).2 = files (no_calls inputs).
Proof.
  split_and!.
  - apply (proj1 (proj2 (reranked_preds_failures (collaborators := collaborators [1; 0])
             members_8_2 ∅ [[1; 0]] [[0.75; 0.25]]%float "out/rerank/" "det_cons" None
             (no_calls inputs)))).
    reflexivity.
  - apply (proj2 (proj2 (reranked_preds_failures (collaborators := collaborators [1; 0])
             members_8_2 splits_value [[5]] [[0.5]]%float "out/rerank/" "det_cons" None
             (no_calls inputs))) [8; 9]).
    + reflexivity.
    + vm_compute; reflexivity.
    + repeat constructor.
    + exists 0%nat, [5], 5. split_and!; [reflexivity|apply list_elem_of_here|right; simpl; lia].
    + repeat constructor; lia.
  - apply (proj2 (proj2 (reranked_preds_failures (collaborators := collaborators [1; 0])
             members_8_2 splits_value [[0; 2 ^ 63]] [[0.5; 0.5]]%float "out/rerank/"
             "det_cons" None (no_calls inputs))) [8; 9]).
    + reflexivity.
    + vm_compute; reflexivity.
    + repeat constructor.
    + exists 0%nat, [0; 2 ^ 63], (2 ^ 63).
      split_and!; [reflexivity|apply list_elem_of_further, list_elem_of_here|right; simpl; lia].
    + exists 0%nat, [0; 2 ^ 63], (2 ^ 63).
      split_and!; [reflexivity|apply list_elem_of_further, list_elem_of_here|right; lia].
  - apply (proj1 (reranked_preds_failures (collaborators := collaborators [1; 0])
             members_8_2 splits_value [[5]] [[0.5]]%float "out/rerank/" "det_cons" None
             (no_calls inputs))).
    vm_compute; reflexivity.
Defined.

(** X8, witness: splits without a test entry, and the evaluation "after"
    alone. *)
Lemma eval_utility_files_witness :
  eval_utility (collaborators := collaborators [1; 0]) members_8_2
               {| csr_shape := (2%nat, 2%nat); csr_entries := [] |} preds_value ∅
               ["map_cut_2,5,10"] "out/rerank//f0.test.pred" "det_cons" ["after"] None
               (no_calls inputs)
    = (Raise KeyError, entered "eval_utility" (no_calls inputs)) ∧
  files (eval_utility (collaborators := collaborators [1; 0]) members_8_2
           {| csr_shape := (2%nat, 2%nat); csr_entries := [] |} preds_value splits_value
           ["map_cut_2,5,10"] "out/rerank//f0.test.pred" "det_cons" ["after"] None
           (no_calls inputs)).2
    !! utilityeval_before_csv "out/rerank//f0.test.pred"
  = files (no_calls inputs) !! utilityeval_before_csv "out/rerank//f0.test.pred".
Proof.
  split.
  - apply (eval_utility_files (collaborators := collaborators [1; 0]) members_8_2
             {| csr_shape := (2%nat, 2%nat); csr_entries := [] |} preds_value ∅
             ["map_cut_2,5,10"] "out/rerank//f0.test.pred" "det_cons" ["after"] None
             (no_calls inputs)).
    reflexivity.
  - apply (proj1 (proj2 (eval_utility_files (collaborators := collaborators [1; 0])
             members_8_2 {| csr_shape := (2%nat, 2%nat); csr_entries := [] |} preds_value
             splits_value ["map_cut_2,5,10"] "out/rerank//f0.test.pred" "det_cons"
             ["after"] None (no_calls inputs)))).
    decided.
Defined.

(** X11, witness: a run leaves the team vectors it read as they were. *)
Lemma run_footprint_witness :
  files (run (collaborators := collaborators [1; 0])
             "out/f0.test.pred" "out/rerank/" "teamsvecs.pkl" "splits.json"
             RatiosNone ["ndkl"] ["map_cut_2,5,10"] "det_cons" None (no_calls inputs)).2
    !! "teamsvecs.pkl" = files (no_calls inputs) !! "teamsvecs.pkl".
Proof.
  apply (run_footprint (collaborators := collaborators [1; 0])
           "out/f0.test.pred" "out/rerank/" "teamsvecs.pkl" "splits.json"
           RatiosNone ["ndkl"] ["map_cut_2,5,10"] "det_cons" None (no_calls inputs)).
  decided.
Defined.

(** X12, witness: a second run on what the first run on the inputs left. *)
Lemma run_twice_witness :
  ∃ s1,
    run (collaborators := collaborators [1; 0])
        "out/f0.test.pred" "out/rerank/" "teamsvecs.pkl" "splits.json"
        RatiosNone ["ndkl"] ["map_cut_2,5,10"] "det_cons" None (no_calls inputs)
      = (Ok (), s1) ∧
    run (collaborators := collaborators [1; 0])
        "out/f0.test.pred" "out/rerank/" "teamsvecs.pkl" "splits.json"
        RatiosNone ["ndkl"] ["map_cut_2,5,10"] "det_cons" None s1
      = (Ok (), s1).
Proof.
  destruct (run (collaborators := collaborators [1; 0])
              "out/f0.test.pred" "out/rerank/" "teamsvecs.pkl" "splits.json"
              RatiosNone ["ndkl"] ["map_cut_2,5,10"] "det_cons" None (no_calls inputs))
    as [[[]|e] s1] eqn:Hrun.
  - exists s1. split; [reflexivity|].
    apply (run_twice (collaborators := collaborators [1; 0])
             "out/f0.test.pred" "out/rerank/" "teamsvecs.pkl" "splits.json"
             RatiosNone ["ndkl"] ["map_cut_2,5,10"] "det_cons" None (no_calls inputs) s1);
      first [ by apply fixed_codec_loads_own_dump | exact Hrun | decided ].
  - exfalso. vm_compute in Hrun. discriminate Hrun.
Defined.

(** X13, witness: no ratios option, and one ratio. *)
Lemma main_sequential_needs_two_ratios_witness :
  main_sequential (collaborators := collaborators [1; 0])
    {| args_fteamsvecs := "teamsvecs.pkl"; args_fsplits := "splits.json";
       args_ratios := None |} [file0; file1] (no_calls driver_inputs)
    = (Raise TypeError, no_calls driver_inputs) ∧
  main_sequential (collaborators := collaborators [1; 0])
    {| args_fteamsvecs := "teamsvecs.pkl"; args_fsplits := "splits.json";
       args_ratios := Some [0.5%float] |} [file0; file1] (no_calls driver_inputs)
    = (Raise IndexError, no_calls driver_inputs).
Proof.
  split.
  - apply (main_sequential_needs_two_ratios (collaborators := collaborators [1; 0])).
    reflexivity.
  - apply (proj2 (main_sequential_needs_two_ratios
                    (collaborators := collaborators [1; 0]) _ _ _) [0.5%float]).
    + reflexivity.
    + simpl; lia.
Defined.

(** X14, witness: the second prediction file after the first. *)
Lemma run_after_run_skips_shared_stages_witness :
  ∃ s1 l,
    run (collaborators := collaborators [1; 0])
        "out/f0.test.pred" "out/rerank/" "teamsvecs.pkl" "splits.json"
        RatiosNone ["ndkl"] ["map_cut_2,5,10"] "det_cons" None (no_calls inputs)
      = (Ok (), s1) ∧
    calls (run (collaborators := collaborators [1; 0])
               "out/f1.test.pred" "out/rerank/" "teamsvecs.pkl" "splits.json"
               RatiosNone ["ndkl"] ["map_cut_2,5,10"] "det_cons" None s1).2
      = calls s1 ++ l ∧
    Forall (λ x, x ∈ ["rerank"; "eval_fairness"; "eval_utility"]) l.
Proof.
  destruct (run (collaborators := collaborators [1; 0])
              "out/f0.test.pred" "out/rerank/" "teamsvecs.pkl" "splits.json"
              RatiosNone ["ndkl"] ["map_cut_2,5,10"] "det_cons" None (no_calls inputs))
    as [[[]|e] s1] eqn:Hrun.
  - destruct (run_after_run_skips_shared_stages (collaborators := collaborators [1; 0])
                "out/f0.test.pred" "out/rerank/" "teamsvecs.pkl" "splits.json"
                RatiosNone ["ndkl"] ["map_cut_2,5,10"] "det_cons" None (no_calls inputs) s1
                "out/f1.test.pred" "teamsvecs.pkl" "splits.json"
                RatiosNone ["ndkl"] ["map_cut_2,5,10"]) as (l & Hcalls & Hstages).
    + by apply fixed_codec_loads_own_dump.
    + intros labels _. reflexivity.
    + by apply fixed_codec_loads_own_dump.
    + exact Hrun.
    + exists s1, l. split_and!; [reflexivity|exact Hcalls|exact Hstages].
  - exfalso. vm_compute in Hrun. discriminate Hrun.
Defined.

(** X15, witness: a run for the first prediction file and the rerank
    table of the second. *)
Lemma run_leaves_other_prediction_files_witness :
  (rerank_csv (new_output_of "out/rerank/" "out/f1.test.pred") "det_cons" None
     ∉ run_paths "out/f0.test.pred" "out/rerank/" "det_cons" None) ∧
  files (run (collaborators := collaborators [1; 0])
             "out/f0.test.pred" "out/rerank/" "teamsvecs.pkl" "splits.json"
             RatiosNone ["ndkl"] ["map_cut_2,5,10"] "det_cons" None (no_calls inputs)).2
    !! rerank_csv (new_output_of "out/rerank/" "out/f1.test.pred") "det_cons" None
  = files (no_calls inputs)
    !! rerank_csv (new_output_of "out/rerank/" "out/f1.test.pred") "det_cons" None.
Proof.
  apply (run_leaves_other_prediction_files (collaborators := collaborators [1; 0])
           "out/f0.test.pred" "out/f1.test.pred" "out/rerank/" "teamsvecs.pkl"
           "splits.json" RatiosNone ["ndkl"] ["map_cut_2,5,10"] "det_cons" None
           (no_calls inputs)).
  - intros H. vm_compute in H. discriminate H.
  - apply list_elem_of_here.
Defined.

(** X16, witness: the driver on the two prediction files of the example
    leaves the team vectors as they were. *)
Lemma main_sequential_footprint_witness :
  files (main_sequential (collaborators := collaborators [1; 0]) the_args
                         [file0; file1] (no_calls driver_inputs)).2 !! "teamsvecs.pkl"
  = files (no_calls driver_inputs) !! "teamsvecs.pkl".
Proof.
  apply (main_sequential_footprint (collaborators := collaborators [1; 0]) the_args
           [file0; file1] (no_calls driver_inputs)).
  decided.
Defined.

End MoreRuns.
